(** * Fly-Pie menu editor: layout, transitions and drop zones

  A shallow embedding of [src/prefs/MenuEditor.js] (class
  [FlyPieMenuEditor]) together with the properties its design document
  states about it.

  Conventions of the embedding:
  - a JavaScript number is an exact rational ([Q]); rounding of doubles is
    not modelled.  [num] is a number that may be [NaN] ([None]), which the
    code produces when it reads [undefined] out of an array;
  - [null] / [undefined] members are [option]s;
  - arrays are lists, [splice] is written out with [firstn] / [skipn];
  - the toolkit (GTK) and the collaborator modules that are not part of the
    sources ([AnimatedValue], the trigonometry of [Math], the frame clock)
    enter as section variables or as explicit arguments of the handlers. *)

From Stdlib Require Import String.
From Stdlib Require Import List ZArith QArith Qabs Qround Qminmax Lqa Bool Lia Arith.
Import ListNotations.

Set Implicit Arguments.

(* ===================================================================== *)
(** ** JavaScript numbers *)
(* ===================================================================== *)

Module JS.

(** A number or [NaN]. *)
Definition num := option Q.

Definition ltb (a b : Q) : bool := negb (Qle_bool b a).
Definition leb (a b : Q) : bool := Qle_bool a b.

(** [Math.trunc]: rounding towards zero. *)
Definition trunc (q : Q) : Z :=
  if Qle_bool 0 q then Qfloor q else Qceiling q.

(** The [%] operator on finite numbers with a non-zero right operand: the
    result has the sign of the dividend. *)
Definition fmod (x m : Q) : Q := x - m * inject_Z (trunc (x / m)).

(** Arithmetic that propagates [NaN]. *)
Definition lift2 (f : Q -> Q -> Q) (a b : num) : num :=
  match a, b with
  | Some p, Some q => Some (f p q)
  | _, _ => None
  end.

Definition add := lift2 Qplus.
Definition sub := lift2 Qminus.

(** Comparisons with [NaN] are false. *)
Definition nltb (a b : num) : bool :=
  match a, b with
  | Some p, Some q => ltb p q
  | _, _ => false
  end.

End JS.

(* ===================================================================== *)
(** ** The angle solver ([utils.computeItemAngles]) *)
(* ===================================================================== *)

Module Utils.

(** One element of the array handed to the solver: [{}] or [{angle: a}]. *)
Definition entry := option Q.

Definition isFree (e : entry) : bool :=
  match e with None => true | Some _ => false end.

Fixpoint firstFixed (l : list entry) : option Q :=
  match l with
  | [] => None
  | Some a :: _ => Some a
  | None :: t => firstFixed t
  end.

(** Number of free entries in front of the first fixed one. *)
Fixpoint leading (l : list entry) : nat :=
  match l with
  | None :: t => S (leading t)
  | _ => 0%nat
  end.

(** Left-to-right pass.  Every entry learns the fixed angle [A] that
    precedes it and its position [j] in the run of free entries that
    started there. *)
Fixpoint before (A : Q) (j : nat) (l : list entry) : list (Q * nat) :=
  match l with
  | [] => []
  | Some a :: t => (a, 0%nat) :: before a 0 t
  | None :: t => (A, S j) :: before A (S j) t
  end.

(** Right-to-left pass.  Every entry learns the fixed angle [B] that
    follows it and the number [r] of free entries from itself up to [B]. *)
Fixpoint after (B : Q) (r : nat) (l : list entry) : (Q * nat) * list (Q * nat) :=
  match l with
  | [] => ((B, r), [])
  | e :: t =>
      let '((B', r'), out) := after B r t in
      match e with
      | Some a => ((a, 0%nat), (a, 0%nat) :: out)
      | None => ((B', S r'), (B', S r') :: out)
      end
  end.

(** The angle of one entry: a fixed entry keeps its angle, a free entry is
    the [j]-th of [j + r - 1] entries spread evenly over the range from
    [A] to [B] (one full turn further when [B] does not lie after [A]). *)
Definition place (e : entry) (b a : Q * nat) : Q :=
  match e with
  | Some fixed => fixed
  | None =>
      let '(A, j) := b in
      let '(B, r) := a in
      let B' := if Qle_bool B A then B + 360 else B in
      JS.fmod (A + inject_Z (Z.of_nat j) * ((B' - A) / inject_Z (Z.of_nat (j + r)))) 360
  end.

Fixpoint place_all (l : list entry) (bs az : list (Q * nat)) : list Q :=
  match l, bs, az with
  | e :: l', b :: bs', a :: az' => place e b a :: place_all l' bs' az'
  | _, _, _ => []
  end.

(** The entries between fixed angles, on a list that has a fixed entry. *)
Definition distribute (l : list entry) : list Q :=
  match firstFixed l, firstFixed (rev l) with
  | Some first, Some last =>
      place_all l (before last (leading (rev l)) l)
                  (snd (after first (leading l) l))
  | _, _ => []
  end.

(** The angle of one entry in the presence of a reserved direction [p].  If
    [p] lies inside the range from [A] to [B] in which a free entry sits,
    the entries of that range are spread as if one more entry stood among
    them, and the position next to [p] stays empty: an entry keeps its
    position if that is at least half a step before [p], and moves one
    position on otherwise. *)
Definition placeAround (p : Q) (e : entry) (b a : Q * nat) : Q :=
  match e with
  | Some fixed => fixed
  | None =>
      let '(A, j) := b in
      let '(B, r) := a in
      let B' := if Qle_bool B A then B + 360 else B in
      let p' := if Qle_bool p A then p + 360 else p in
      if Qle_bool B' p' then place e b a
      else
        let step := (B' - A) / inject_Z (Z.of_nat (j + r + 1)) in
        let position := A + inject_Z (Z.of_nat j) * step in
        JS.fmod (if Qle_bool (position + step / 2) p' then position
                 else position + step) 360
  end.

Fixpoint placeAround_all (p : Q) (l : list entry) (bs az : list (Q * nat)) : list Q :=
  match l, bs, az with
  | e :: l', b :: bs', a :: az' => placeAround p e b a :: placeAround_all p l' bs' az'
  | _, _, _ => []
  end.

(** The entries between fixed angles and around the reserved direction
    [p], on a list that has a fixed entry. *)
Definition distributeAround (p : Q) (l : list entry) : list Q :=
  match firstFixed l, firstFixed (rev l) with
  | Some first, Some last =>
      placeAround_all p l (before last (leading (rev l)) l)
                      (snd (after first (leading l) l))
  | _, _ => []
  end.

(** Modelled from the spec: [utils.computeItemAngles] lives in
    [src/common/utils.js], which is not among the sources.  The design
    document (section 4.1) gives its contract: one angle per item, in input
    order; zero items give an empty result; a fixed item keeps its angle;
    free items are distributed evenly over the angular ranges between fixed
    items and around the whole circle if none is fixed; a parent angle is
    reserved (no item is placed there), the items being distributed over
    the rest of the circle.
    The document does not say where the first item of an unconstrained menu
    goes; the model puts it at the top (0 degrees, the direction the editor
    measures angles from).  Without fixed items, a parent angle is one more
    fixed direction in front of the first item that receives no item.  With
    fixed items, the document does not say how the items of the range that
    contains the parent angle share it; the model spreads them evenly
    together with one empty position for the parent ([placeAround]).
    Angles, fixed and parent, are taken as the document has them: between 0
    and 360. *)
Definition computeItemAngles (items : list entry) (parentAngle : option Q) : list Q :=
  match items with
  | [] => []
  | first :: rest =>
      match firstFixed items, parentAngle with
      | Some _, None => distribute items
      | Some _, Some p => distributeAround p items
      | None, None => distribute (Some 0 :: rest)
      | None, Some p => tl (distribute (Some p :: items))
      end
  end.

End Utils.

(* ===================================================================== *)
(** ** The menu editor: data *)
(* ===================================================================== *)

Module MenuEditor.

(** [ItemState]: GRID items are shown in the overview, one CENTER and
    several CHILD items when a menu is edited. *)
Inductive ItemState := GRID | CENTER | CHILD.

(** [ItemSize]: the size an item is allocated, by its state. *)
Definition ItemSize (s : ItemState) : Z :=
  match s with
  | GRID => 130
  | CENTER => 120
  | CHILD => 100
  end.

Inductive TransitionType :=
| NONE
| TRANSITION_A
| TRANSITION_B
| TRANSITION_C
| TRANSITION_D
| TRANSITION_E.

Definition TRANSITION_DURATION : Z := 350.

(** The properties of a menu configuration the editor reads.  [angle] is
    the fixed angle; it counts only when it is a number [>= 0]. *)
Record Config := {
  name : string;
  icon : string;
  type : string;
  angle : option Q
}.

(** [AnimatedValue] (collaborator [src/prefs/AnimatedValue.js]): the
    members the editor assigns.  [startTime] and [endTime] are [None] as
    long as they hold whatever the constructor left there. *)
Record AnimatedValue := {
  start : JS.num;
  end_ : JS.num;
  startTime : option Q;
  endTime : option Q
}.

(** A [FlyPieMenuEditorItem].  The animated values [x] and [y] are created
    together (by [setAnimation]), so the record holds them as one optional
    pair: [None] is the item whose [x] is still [undefined].  [parented]
    turns false when the item is [unparent]ed. *)
Record Item := {
  state : ItemState;
  config : Config;
  xy : option (AnimatedValue * AnimatedValue);
  reveal_child : bool;
  sensitive : bool;
  parented : bool
}.

(** The back-navigation button; its state is always CHILD. *)
Record BackButton := {
  back_xy : option (AnimatedValue * AnimatedValue);
  back_reveal_child : bool
}.

(** [_selectedItem] is a reference to one of the displayed items. *)
Inductive ItemRef := RefItem (i : nat) | RefCenter.

(** The members of [FlyPieMenuEditor].  The widget size and the grid
    metrics are [None] while they are not a finite number (unset, [NaN] or
    infinite).  Indices are naturals: the handlers only produce
    non-negative ones.  [_lastHideTime] is a frame time as the frame clock
    reports it. *)
Record Editor := {
  _items : list Item;
  _centerItem : option Item;
  _selectedItem : option ItemRef;
  _oldItems : list Item;
  _lastHideTime : Z;
  _restartAnimation : bool;
  _upcomingTransition : TransitionType;
  _transitionAngle : JS.num;
  _backButton : BackButton;
  _parentAngle : option Q;
  _dragIndex : option nat;
  _dropIndex : option nat;
  _dropRow : option Z;
  _dropColumn : option Z;
  _lastDropIndex : option nat;
  _width : option Z;
  _height : option Z;
  _columnCount : option Z;
  _rowCount : option Z;
  _gridOffsetX : JS.num;
  _gridOffsetY : JS.num
}.

(** How a handler ends: normally, with a [TypeError] (the state is what
    had been assigned when it was thrown), or by computing with a value
    that is not a finite number, where the model stops. *)
Inductive Outcome (A : Type) :=
| Normal (a : A)
| TypeError (a : A)
| NonFinite.
Arguments NonFinite {A}.

Definition stateOf {A} (o : Outcome A) : option A :=
  match o with
  | Normal a => Some a
  | TypeError a => Some a
  | NonFinite => None
  end.

(** The signals the drop handler emits. *)
Inductive Signal :=
| Notification (message : string)
| DropItem (what : string) (index : nat)
| DropData (what : string) (index : nat).

(** What the drop handler learns about a drop: the dropped string, whether
    the drag started inside the application, whether the item type named
    in the dropped JSON is of class MENU in the item registry, whether the
    drop offers the mime type text/uri-list, and the lines of [what]. *)
Record DropEvent := {
  what : string;
  internalDrag : bool;
  isMenuClass : bool;
  uriList : bool;
  lines : list string
}.

Definition optNatEqb (o : option nat) (i : nat) : bool :=
  match o with
  | Some n => Nat.eqb n i
  | None => false
  end.

Definition optZEqb (o : option Z) (z : Z) : bool :=
  match o with
  | Some n => Z.eqb n z
  | None => false
  end.

Definition sameOptNat (a b : option nat) : bool :=
  match a, b with
  | Some m, Some n => Nat.eqb m n
  | None, None => true
  | _, _ => false
  end.

Definition sameOptZ (a b : option Z) : bool :=
  match a, b with
  | Some m, Some n => Z.eqb m n
  | None, None => true
  | _, _ => false
  end.

(** [array.splice(i, 1)] and [array.splice(i, 0, v)]; an index beyond the
    end is clamped to the length. *)
Definition spliceRemove {A} (i : nat) (l : list A) : list A :=
  firstn i l ++ skipn (S i) l.

Definition spliceInsert {A} (i : nat) (v : A) (l : list A) : list A :=
  firstn i l ++ v :: skipn i l.

(** [array[i]] on an array of numbers: [undefined] acts as [NaN]. *)
Definition element (l : list JS.num) (i : nat) : JS.num :=
  match nth_error l i with
  | Some v => v
  | None => None
  end.

(** Two configurations denote the same menu for the transition logic when
    name and icon agree. *)
Definition sameMenu (a b : Config) : bool :=
  (String.eqb (name a) (name b) && String.eqb (icon a) (icon b))%bool.

Definition inject_half (z : Z) : Q := inject_Z z / 2.

(* ------------------------------------------------------------------- *)
(** *** Collaborators *)
(* ------------------------------------------------------------------- *)

Section Collaborators.

(** [utils.computeItemAngles(fixedAngles, parentAngle)]. *)
Variable computeItemAngles : list Utils.entry -> option Q -> list Q.

(** [value.get(time)] of an [AnimatedValue]. *)
Variable AV_get : AnimatedValue -> Q -> JS.num.

(** [Math.floor(Math.sin(a * Math.PI / 180) * radius)] and the same with
    [Math.cos], for an angle [a] in degrees and the radius
    [ItemSize[GRID] * 1.4] of the edited menu. *)
Variable sinRadius : Q -> Z.
Variable cosRadius : Q -> Z.

(** The angle between centre-to-pointer and centre-to-top, for a pointer at
    [(x, y)] relative to the centre:
    [((y < 0 ? 360 - a : a) + 90) % 360] with
    [a = Math.acos(x / distance) * 180 / Math.PI]. *)
Variable pointerAngle : Q -> Q -> Q.

(* ------------------------------------------------------------------- *)
(** *** [_inMenuOverviewMode] and [_computeItemAngles] *)
(* ------------------------------------------------------------------- *)

Definition _inMenuOverviewMode (e : Editor) : bool :=
  match _centerItem e with
  | None => true
  | Some _ => false
  end.

(** The object pushed for an item: [{angle: a}] if [angle >= 0], else [{}]. *)
Definition entryOf (it : Item) : Utils.entry :=
  match angle (config it) with
  | Some a => if Qle_bool 0 a then Some a else None
  | None => None
  end.

(** The body of [this._items.forEach((item, i) => ...)]. *)
Fixpoint pushEntries (i : nat) (items : list Item) (drag drop : option nat)
  : list Utils.entry :=
  match items with
  | [] => []
  | it :: rest =>
      (if optNatEqb drop i then [None] else [])
      ++ (if optNatEqb drag i then [] else [entryOf it])
      ++ pushEntries (S i) rest drag drop
  end.

Definition fixedAngles (e : Editor) : list Utils.entry :=
  pushEntries 0 (_items e) (_dragIndex e) (_dropIndex e)
  ++ (if optNatEqb (_dropIndex e) (length (_items e)) then [None] else []).

Definition removeIndex (drag : option nat) (drop : nat) : nat :=
  match drag with
  | Some g => if (g + 1 <? drop)%nat then (drop - 1)%nat else drop
  | None => drop
  end.

Definition _computeItemAngles (e : Editor) : list JS.num :=
  let angles := map (@Some Q) (computeItemAngles (fixedAngles e) (_parentAngle e)) in
  let angles :=
    match _dropIndex e with
    | Some d => spliceRemove (removeIndex (_dragIndex e) d) angles
    | None => angles
    end in
  match _dragIndex e with
  | Some g =>
      let successor :=
        match angles with
        | [] => None
        | _ :: _ => element angles (g mod length angles)
        end in
      spliceInsert g successor angles
  | None => angles
  end.

(* ------------------------------------------------------------------- *)
(** *** The drop target: 'motion' *)
(* ------------------------------------------------------------------- *)

Definition withDrop (e : Editor) (row column : option Z) (index : option nat) : Editor :=
  {| _items := _items e; _centerItem := _centerItem e;
     _selectedItem := _selectedItem e; _oldItems := _oldItems e;
     _lastHideTime := _lastHideTime e; _restartAnimation := _restartAnimation e;
     _upcomingTransition := _upcomingTransition e;
     _transitionAngle := _transitionAngle e; _backButton := _backButton e;
     _parentAngle := _parentAngle e; _dragIndex := _dragIndex e;
     _dropIndex := index; _dropRow := row; _dropColumn := column;
     _lastDropIndex := _lastDropIndex e;
     _width := _width e; _height := _height e;
     _columnCount := _columnCount e; _rowCount := _rowCount e;
     _gridOffsetX := _gridOffsetX e; _gridOffsetY := _gridOffsetY e |}.

Definition withRestart (e : Editor) (restart : bool) : Editor :=
  {| _items := _items e; _centerItem := _centerItem e;
     _selectedItem := _selectedItem e; _oldItems := _oldItems e;
     _lastHideTime := _lastHideTime e; _restartAnimation := restart;
     _upcomingTransition := _upcomingTransition e;
     _transitionAngle := _transitionAngle e; _backButton := _backButton e;
     _parentAngle := _parentAngle e; _dragIndex := _dragIndex e;
     _dropIndex := _dropIndex e; _dropRow := _dropRow e;
     _dropColumn := _dropColumn e; _lastDropIndex := _lastDropIndex e;
     _width := _width e; _height := _height e;
     _columnCount := _columnCount e; _rowCount := _rowCount e;
     _gridOffsetX := _gridOffsetX e; _gridOffsetY := _gridOffsetY e |}.

(** [Math.max(0, Math.min(count * ItemSize[GRID], v))]. *)
Definition clampToGrid (count : Z) (v : Q) : Q :=
  Qmax 0 (Qmin (inject_Z (count * ItemSize GRID)) v).

Definition dropZoneWidth : Q := inject_Z (ItemSize GRID) / 4.

(** The test that decides whether the (clamped) pointer is in a drop zone. *)
Definition inDropZone (x : Q) : bool :=
  (JS.ltb (JS.fmod x (inject_Z (ItemSize GRID))) dropZoneWidth
   || JS.ltb (inject_Z (ItemSize GRID) - dropZoneWidth)
             (JS.fmod x (inject_Z (ItemSize GRID))))%bool.

(** The overview branch of 'motion', once the grid metrics are known to be
    finite numbers. *)
Definition motionGrid (e : Editor) (columnCount rowCount : Z)
           (gridOffsetX gridOffsetY : Q) (x y : Q) : Editor :=
  let x := clampToGrid columnCount (x - gridOffsetX) in
  let y := clampToGrid rowCount (y - gridOffsetY) in
  if inDropZone x then
    let dropColumn := Qfloor (x / inject_Z (ItemSize GRID) + (1 # 2)) in
    let dropRow := Qfloor (y / inject_Z (ItemSize GRID)) in
    let dropIndex :=
      Z.min (Z.of_nat (length (_items e))) (columnCount * dropRow + dropColumn) in
    withDrop e (Some dropRow) (Some dropColumn) (Some (Z.to_nat dropIndex))
  else
    withDrop e None None None.

(** [mouseAngle - itemAngles[0] < 90 || mouseAngle - itemAngles[0] > 270]. *)
Definition nearFirst (mouseAngle : Q) (itemAngles : list JS.num) : bool :=
  let d := JS.sub (Some mouseAngle) (element itemAngles 0) in
  (JS.nltb d (Some 90) || JS.nltb (Some 270) d)%bool.

Definition isCustomMenu (it : Item) : bool :=
  String.eqb (type (config it)) "CustomMenu".

(** One pass of the loop over the drop-zone wedges.  The result is [None]
    when reading an item beyond the end of [_items] throws, [Some None]
    when the pointer is not in this wedge, [Some (Some k)] when the loop
    breaks with drop index [k]. *)
Definition wedge (items : list Item) (drag : option nat) (mouseAngle : Q)
           (itemAngles : list JS.num) (i : nat) : option (option nat) :=
  let n := length itemAngles in
  let next := (S i mod n)%nat in
  match nth_error items i, nth_error items next with
  | Some item, Some nextItem =>
      match element itemAngles i, element itemAngles next with
      | Some wedgeStart, Some wedgeEnd0 =>
          let wedgeEnd := if JS.ltb wedgeEnd0 wedgeStart then wedgeEnd0 + 360 else wedgeEnd0 in
          let diff := wedgeEnd - wedgeStart in
          let wedgeStartPadding := if isCustomMenu item then 1 # 4 else 0 in
          let wedgeEndPadding := if isCustomMenu nextItem then 1 # 4 else 0 in
          let lastWedge :=
            (Nat.eqb (S i) n
             || (Nat.eqb (S (S i)) n && optNatEqb drag (n - 1)))%bool in
          let within lo hi m := (JS.leb lo m && JS.ltb m hi)%bool in
          let hi := wedgeEnd - diff * wedgeEndPadding in
          if (lastWedge
              && (within (wedgeStart + diff * (1 # 2)) hi mouseAngle
                  || within (wedgeStart + diff * (1 # 2)) hi (mouseAngle + 360)))%bool
          then Some (Some 0%nat)
          else if (within (wedgeStart + diff * wedgeStartPadding) hi mouseAngle
                   || within (wedgeStart + diff * wedgeStartPadding) hi
                             (mouseAngle + 360))%bool
          then Some (Some (S i))
          else Some None
      | _, _ => Some None
      end
  | _, _ => None
  end.

Fixpoint wedges (items : list Item) (drag : option nat) (mouseAngle : Q)
         (itemAngles : list JS.num) (indices : list nat) : option (option nat) :=
  match indices with
  | [] => Some None
  | i :: rest =>
      match wedge items drag mouseAngle itemAngles i with
      | None => None
      | Some (Some k) => Some (Some k)
      | Some None => wedges items drag mouseAngle itemAngles rest
      end
  end.

(** The drop index for a pointer at angle [mouseAngle], outside of the
    centre, in menu edit mode ([None]: a [TypeError]). *)
Definition radialDropIndex (items : list Item) (drag : option nat)
           (mouseAngle : Q) (itemAngles : list JS.num) : option (option nat) :=
  match length itemAngles with
  | 0%nat => Some (Some 0%nat)
  | 1%nat =>
      match drag with
      | Some _ => Some (Some 0%nat)
      | None => Some (Some (if nearFirst mouseAngle itemAngles then 0%nat else 1%nat))
      end
  | n =>
      match n, drag with
      | 2%nat, Some _ =>
          Some (Some (if nearFirst mouseAngle itemAngles then 0%nat else 2%nat))
      | _, _ => wedges items drag mouseAngle itemAngles (seq 0 n)
      end
  end.

(** The edit-mode branch of 'motion', once the widget size is known. *)
Definition motionRadial (e : Editor) (width height : Z) (x y : Q) : Outcome Editor :=
  let x := x - inject_half width in
  let y := y - inject_half height in
  let e0 := withDrop e (_dropRow e) (_dropColumn e) None in
  (* distance > ItemSize[CENTER] / 2, with distance = sqrt(x * x + y * y) *)
  if JS.ltb (inject_half (ItemSize CENTER) * inject_half (ItemSize CENTER))
            (x * x + y * y)
  then
    match radialDropIndex (_items e0) (_dragIndex e0) (pointerAngle x y)
                          (_computeItemAngles e0) with
    | Some index => Normal (withDrop e0 (_dropRow e0) (_dropColumn e0) index)
    | None => TypeError e0
    end
  else Normal e0.

(** The end of 'motion': restart the animation if the drop position
    changed.  (The handler then queues a re-allocation and returns
    [Gdk.DragAction.MOVE] unless [_dropIndex] is [null].) *)
Definition motionFinish (before after : Editor) : Editor :=
  if (negb (sameOptZ (_dropColumn after) (_dropColumn before))
      || negb (sameOptZ (_dropRow after) (_dropRow before))
      || negb (sameOptNat (_dropIndex after) (_dropIndex before)))%bool
  then withRestart after true
  else after.

Definition motion (e : Editor) (x y : Q) : Outcome Editor :=
  if _inMenuOverviewMode e then
    match _columnCount e, _rowCount e, _gridOffsetX e, _gridOffsetY e with
    | Some columnCount, Some rowCount, Some gridOffsetX, Some gridOffsetY =>
        Normal (motionFinish e (motionGrid e columnCount rowCount
                                           gridOffsetX gridOffsetY x y))
    | _, _, _, _ => NonFinite
    end
  else
    match _width e, _height e with
    | Some width, Some height =>
        match motionRadial e width height x y with
        | Normal e' => Normal (motionFinish e e')
        | other => other
        end
    | _, _ => NonFinite
    end.

(* ------------------------------------------------------------------- *)
(** *** The drop target: 'leave' and 'drop' *)
(* ------------------------------------------------------------------- *)

Definition withLastDropIndex (e : Editor) (last : option nat) : Editor :=
  {| _items := _items e; _centerItem := _centerItem e;
     _selectedItem := _selectedItem e; _oldItems := _oldItems e;
     _lastHideTime := _lastHideTime e; _restartAnimation := _restartAnimation e;
     _upcomingTransition := _upcomingTransition e;
     _transitionAngle := _transitionAngle e; _backButton := _backButton e;
     _parentAngle := _parentAngle e; _dragIndex := _dragIndex e;
     _dropIndex := _dropIndex e; _dropRow := _dropRow e;
     _dropColumn := _dropColumn e; _lastDropIndex := last;
     _width := _width e; _height := _height e;
     _columnCount := _columnCount e; _rowCount := _rowCount e;
     _gridOffsetX := _gridOffsetX e; _gridOffsetY := _gridOffsetY e |}.

(** [updateLayout]: flag the restart; the re-allocation it queues is the
    next call of [vfunc_size_allocate]. *)
Definition updateLayout (e : Editor) : Editor := withRestart e true.

Definition leave (e : Editor) : Editor :=
  let e := withLastDropIndex e (_dropIndex e) in
  updateLayout (withDrop e None None None).

(** [what.split(...).forEach((line, i) => ...)]: one 'drop-data' for every
    non-empty line, at [_dropIndex + i]. *)
Fixpoint dropLines (i : nat) (ls : list string) (dropIndex : nat) : list Signal :=
  match ls with
  | [] => []
  | line :: rest =>
      (if String.eqb line EmptyString then [] else [DropData line (dropIndex + i)])
      ++ dropLines (S i) rest dropIndex
  end.

(** The 'drop' handler: the new state, the signals it emits, and its
    return value.  For an internal drag this is the handler on a string
    that [JSON.parse] accepts and, in overview mode, on an item type the
    registry knows; [dropHandler] below adds the calls in which one of the
    two throws. *)
Definition drop (e : Editor) (d : DropEvent) : Editor * list Signal * bool :=
  let e :=
    match _dropIndex e with
    | None => withDrop e (_dropRow e) (_dropColumn e) (_lastDropIndex e)
    | Some _ => e
    end in
  match _dropIndex e with
  | None => (e, [], false)
  | Some dropIndex =>
      if internalDrag d then
        if (_inMenuOverviewMode e && negb (isMenuClass d))%bool then
          (withDrop e None None None,
           [Notification "Actions cannot be turned into toplevel menus."],
           false)
        else
          (withDrop e None None None, [DropItem (what d) dropIndex], true)
      else
        if _inMenuOverviewMode e then
          (withDrop e None None None,
           [Notification "You can only create new Action items inside of Custom Menus."],
           false)
        else if uriList d then
          (withDrop e None None None, dropLines 0 (lines d) dropIndex, true)
        else
          (withDrop e None None None, [DropData (what d) dropIndex], true)
  end.

(* ------------------------------------------------------------------- *)
(** *** [vfunc_size_allocate] *)
(* ------------------------------------------------------------------- *)

(** The helper lambda [setAnimation(item, time, x, y)], on the pair of
    animated values of the item. *)
Definition setAnimation (restart : bool) (time : Q)
           (xy : option (AnimatedValue * AnimatedValue)) (x y : JS.num)
  : AnimatedValue * AnimatedValue :=
  let fresh v :=
    {| start := v; end_ := v;
       startTime := if restart then Some time else None;
       endTime := if restart then Some (time + inject_Z TRANSITION_DURATION) else None |} in
  let retarget a v :=
    {| start := if restart then AV_get a time else start a;
       end_ := v;
       startTime := if restart then Some time else startTime a;
       endTime := if restart then Some (time + inject_Z TRANSITION_DURATION)
                  else endTime a |} in
  match xy with
  | None => (fresh x, fresh y)
  | Some (ax, ay) => (retarget ax x, retarget ay y)
  end.

Definition animate (restart : bool) (time : Q) (it : Item) (x y : JS.num) : Item :=
  {| state := state it; config := config it;
     xy := Some (setAnimation restart time (xy it) x y);
     reveal_child := reveal_child it; sensitive := sensitive it;
     parented := parented it |}.

Definition animateBack (restart : bool) (time : Q) (b : BackButton) (x y : JS.num)
  : BackButton :=
  {| back_xy := Some (setAnimation restart time (back_xy b) x y);
     back_reveal_child := back_reveal_child b |}.

(** [Math.ceil(n / columns)] for [columns <> 0]. *)
Definition ceilDiv (n columns : Z) : Z := (- ((- n) / columns))%Z.

(** The horizontal offset that makes space for the dropped item. *)
Definition dropOffset (dropRow dropColumn : option Z) (row column : Z) : Z :=
  if optZEqb dropRow row then
    let dropColumn := match dropColumn with Some c => c | None => 0%Z end in
    if (column <? dropColumn)%Z
    then (- (Z.max 0 (3 - (dropColumn - column) + 1) * 15))%Z
    else (Z.max 0 (3 - (column - dropColumn)) * 15)%Z
  else 0%Z.

(** The grid metrics for a widget of the given size holding [n] items:
    column count, row count and the two offsets.  A width below one cell
    divides by a column count of zero: the row count and the vertical
    offset are then not finite. *)
Definition gridMetrics (width height : Z) (n : nat)
  : option Z * option Z * JS.num * JS.num :=
  let columns := (width / ItemSize GRID)%Z in
  if (columns =? 0)%Z then
    (Some 0%Z, None, Some (inject_half width), None)
  else
    let rows := ceilDiv (Z.of_nat n) columns in
    let columns := if (rows =? 1)%Z then Z.of_nat n else columns in
    (Some columns, Some rows,
     Some (inject_half (width - columns * ItemSize GRID)),
     Some (inject_half (height - rows * ItemSize GRID))).

(** The target position of item [i] in the grid. *)
Definition gridPosition (metrics : option Z * option Z * JS.num * JS.num)
           (dropRow dropColumn : option Z) (i : nat) : JS.num * JS.num :=
  match metrics with
  | (Some columns, Some _, Some gridOffsetX, Some gridOffsetY) =>
      let column := Z.rem (Z.of_nat i) columns in
      let row := (Z.of_nat i / columns)%Z in
      let offset := dropOffset dropRow dropColumn row column in
      (Some (gridOffsetX + inject_Z (column * ItemSize GRID) + inject_Z offset),
       Some (gridOffsetY + inject_Z (row * ItemSize GRID)))
  | _ => (None, None)
  end.

(** The point at the given angle on the circle around the centre, moved so
    that an item of the given state is centred on it. *)
Definition polarPosition (centerX centerY : Z) (st : ItemState) (a : JS.num)
  : JS.num * JS.num :=
  match a with
  | Some a =>
      (Some (inject_Z (sinRadius a + centerX) - inject_half (ItemSize st)),
       Some (inject_Z (- cosRadius a + centerY) - inject_half (ItemSize st)))
  | None => (None, None)
  end.

Definition centerPosition (centerX centerY : Z) (st : ItemState) : JS.num * JS.num :=
  (Some (inject_Z centerX - inject_half (ItemSize st)),
   Some (inject_Z centerY - inject_half (ItemSize st))).

Fixpoint placeItems (restart : bool) (time : Q) (position : nat -> Item -> JS.num * JS.num)
         (i : nat) (items : list Item) : list Item :=
  match items with
  | [] => []
  | it :: rest =>
      let '(x, y) := position i it in
      animate restart time it x y :: placeItems restart time position (S i) rest
  end.

(** The item a reference denotes. *)
Definition deref (items : list Item) (center : option Item) (r : option ItemRef)
  : option Item :=
  match r with
  | Some (RefItem i) => nth_error items i
  | Some RefCenter => center
  | None => None
  end.

(** The loops of transitions A and B: move the first old item that shows
    the same menu as [target] to the position [x], [y] computes from it.
    Reading the configuration of a missing [target] throws. *)
Fixpoint moveMatching (restart : bool) (time : Q) (target : option Item)
         (position : Item -> JS.num * JS.num) (old : list Item)
  : Outcome (list Item) :=
  match old with
  | [] => Normal []
  | it :: rest =>
      match target with
      | None => TypeError (it :: rest)
      | Some t =>
          if sameMenu (config it) (config t) then
            let '(x, y) := position it in
            Normal (animate restart time it x y :: rest)
          else
            match moveMatching restart time target position rest with
            | Normal rest' => Normal (it :: rest')
            | TypeError rest' => TypeError (it :: rest')
            | NonFinite => NonFinite
            end
      end
  end.

(** [this._oldItems.forEach(item => setAnimation(item, time, item.x.end +
    offsetX, item.y.end + offsetY))]; reading [x.end] of an item that was
    never positioned throws. *)
Fixpoint slideOld (restart : bool) (time : Q) (offsetX offsetY : JS.num)
         (old : list Item) : Outcome (list Item) :=
  match old with
  | [] => Normal []
  | it :: rest =>
      match xy it with
      | None => TypeError (it :: rest)
      | Some (ax, ay) =>
          let it' := animate restart time it (JS.add (end_ ax) offsetX)
                             (JS.add (end_ ay) offsetY) in
          match slideOld restart time offsetX offsetY rest with
          | Normal rest' => Normal (it' :: rest')
          | TypeError rest' => TypeError (it' :: rest')
          | NonFinite => NonFinite
          end
      end
  end.

(** [item.x.start -= offsetX; item.y.start -= offsetY]. *)
Definition shiftStart (offsetX offsetY : JS.num) (it : Item) : Item :=
  match xy it with
  | Some (ax, ay) =>
      {| state := state it; config := config it;
         xy := Some ({| start := JS.sub (start ax) offsetX; end_ := end_ ax;
                        startTime := startTime ax; endTime := endTime ax |},
                     {| start := JS.sub (start ay) offsetY; end_ := end_ ay;
                        startTime := startTime ay; endTime := endTime ay |});
         reveal_child := reveal_child it; sensitive := sensitive it;
         parented := parented it |}
  | None => it
  end.

(** The displayed items, the centre item and the old items, as the
    transition part of the allocation changes them. *)
Definition Shown : Type := (list Item * option Item * list Item)%type.

Definition transition (restart : bool) (time : Q) (centerX centerY : Z)
           (kind : TransitionType) (transitionAngle : JS.num)
           (selected : option ItemRef) (shown : Shown) : Outcome Shown :=
  let '(items, center, old) := shown in
  match kind with
  | TRANSITION_A =>
      match moveMatching restart time center
              (fun it => centerPosition centerX centerY (state it)) old with
      | Normal old' => Normal (items, center, old')
      | TypeError old' => TypeError (items, center, old')
      | NonFinite => NonFinite
      end
  | TRANSITION_B =>
      let target := deref items center selected in
      let goal :=
        match target with
        | Some {| xy := Some (ax, ay) |} => (end_ ax, end_ ay)
        | _ => (None, None)
        end in
      match moveMatching restart time target (fun _ => goal) old with
      | Normal old' => Normal (items, center, old')
      | TypeError old' => TypeError (items, center, old')
      | NonFinite => NonFinite
      end
  | TRANSITION_C | TRANSITION_D =>
      let offsetX := option_map (fun a => inject_Z (sinRadius a)) transitionAngle in
      let offsetY := option_map (fun a => inject_Z (- cosRadius a)) transitionAngle in
      match slideOld restart time offsetX offsetY old with
      | Normal old' =>
          let items' := map (shiftStart offsetX offsetY) items in
          match center with
          | Some c => Normal (items', Some (shiftStart offsetX offsetY c), old')
          | None => TypeError (items', center, old')
          end
      | TypeError old' => TypeError (items, center, old')
      | NonFinite => NonFinite
      end
  | TRANSITION_E | NONE => Normal shown
  end.

(** The frame time in the unit of the animations:
    [this.get_frame_clock().get_frame_time() / 1000]. *)
Definition animationTime (frameTime : Z) : Q := inject_Z frameTime / 1000.

(** [vfunc_size_allocate(width, height, baseline)], at the given frame
    time.  The allocation of the child widgets and the tick callback that
    repeats it are the toolkit's part and not modelled. *)
Definition vfunc_size_allocate (e : Editor) (width height : Z) (frameTime : Z)
  : Outcome Editor :=
  let restart := _restartAnimation e in
  let time := animationTime frameTime in
  let centerX := (width / 2)%Z in
  let centerY := (height / 2)%Z in
  let overview := _inMenuOverviewMode e in
  let metrics :=
    if overview then gridMetrics width height (length (_items e))
    else (_columnCount e, _rowCount e, _gridOffsetX e, _gridOffsetY e) in
  let items :=
    if overview then
      placeItems restart time
        (fun i _ => gridPosition metrics (_dropRow e) (_dropColumn e) i) 0 (_items e)
    else
      let angles := _computeItemAngles e in
      placeItems restart time
        (fun i it => polarPosition centerX centerY (state it) (element angles i))
        0 (_items e) in
  let center :=
    match _centerItem e with
    | Some c =>
        let '(x, y) := centerPosition centerX centerY (state c) in
        Some (animate restart time c x y)
    | None => None
    end in
  let back :=
    let '(x, y) :=
      match _parentAngle e with
      | Some a => polarPosition centerX centerY CHILD (Some a)
      | None => centerPosition centerX centerY CHILD
      end in
    animateBack restart time (_backButton e) x y in
  let finish (done : bool) (shown : Shown) : Editor :=
    let '(items', center', old') := shown in
    let '(columnCount, rowCount, gridOffsetX, gridOffsetY) := metrics in
    {| _items := items'; _centerItem := center';
       _selectedItem := _selectedItem e; _oldItems := old';
       _lastHideTime := _lastHideTime e;
       _restartAnimation := if done then false else restart;
       _upcomingTransition := if done then NONE else _upcomingTransition e;
       _transitionAngle := _transitionAngle e; _backButton := back;
       _parentAngle := _parentAngle e; _dragIndex := _dragIndex e;
       _dropIndex := _dropIndex e; _dropRow := _dropRow e;
       _dropColumn := _dropColumn e; _lastDropIndex := _lastDropIndex e;
       _width := Some width; _height := Some height;
       _columnCount := columnCount; _rowCount := rowCount;
       _gridOffsetX := gridOffsetX; _gridOffsetY := gridOffsetY |} in
  match transition restart time centerX centerY (_upcomingTransition e)
                   (_transitionAngle e) (_selectedItem e)
                   (items, center, _oldItems e) with
  | Normal shown => Normal (finish true shown)
  | TypeError shown => TypeError (finish false shown)
  | NonFinite => NonFinite
  end.

(* ------------------------------------------------------------------- *)
(** *** [setItems] *)
(* ------------------------------------------------------------------- *)

(** [_createItem(config, itemState)]: revealed, parented to the editor,
    without a position yet. *)
Definition _createItem (c : Config) (st : ItemState) : Item :=
  {| state := st; config := c; xy := None;
     reveal_child := true; sensitive := true; parented := true |}.

(** The first part of [setItems]: which transition shows the new items. *)
Definition classify (e : Editor) (configs : list Config)
           (centerConfig : option Config) (parentAngle : option Q)
  : TransitionType * JS.num :=
  let wentOneLevelDeeper :=
    match centerConfig with
    | Some c => existsb (fun it => sameMenu (config it) c) (_items e)
    | None => false
    end in
  let wentOneLevelUp :=
    match _centerItem e with
    | Some c => existsb (fun cfg => sameMenu cfg (config c)) configs
    | None => false
    end in
  match _centerItem e, parentAngle, centerConfig, _parentAngle e with
  | None, None, Some _, _ => (TRANSITION_A, _transitionAngle e)
  | Some _, _, None, None => (TRANSITION_B, _transitionAngle e)
  | _, _, _, _ =>
      if wentOneLevelDeeper then (TRANSITION_C, parentAngle)
      else if wentOneLevelUp then
        (TRANSITION_D,
         option_map (fun a => JS.fmod (a + 180) 360) (_parentAngle e))
      else (TRANSITION_E, _transitionAngle e)
  end.

(** Make an old item insensitive and start its fade-out. *)
Definition hide (it : Item) : Item :=
  {| state := state it; config := config it; xy := xy it;
     reveal_child := false; sensitive := false; parented := parented it |}.

(** The second part: the items kept for the transition and the new hide
    time.  [frameTime] is [this.get_frame_clock().get_frame_time()], if
    the widget has a frame clock. *)
Definition retire (e : Editor) (frameTime : option Z) : list Item * Z :=
  let '(old, lastHideTime) :=
    match frameTime with
    | Some now =>
        if (_lastHideTime e + TRANSITION_DURATION <? now)%Z
        then ([], now)
        else (_oldItems e, now)
    | None => (_oldItems e, _lastHideTime e)
    end in
  let old := old ++ _items e in
  let old := match _centerItem e with Some c => old ++ [c] | None => old end in
  (map hide old, lastHideTime).

(** [_selectedItem] after the items were created. *)
Definition select (configs : list Config) (selectedIndex : option Z)
           (centerConfig : option Config) : option ItemRef :=
  match selectedIndex with
  | Some k =>
      if ((0 <=? k) && (k <? Z.of_nat (length configs)))%Z%bool
      then Some (RefItem (Z.to_nat k))
      else if (k =? -1)%Z then
        match centerConfig with
        | Some _ => Some RefCenter
        | None => None
        end
      else None
  | None => None
  end.

Definition setItems (e : Editor) (configs : list Config) (selectedIndex : option Z)
           (centerConfig : option Config) (parentAngle : option Q)
           (frameTime : option Z) : Editor :=
  let '(kind, transitionAngle) := classify e configs centerConfig parentAngle in
  let '(old, lastHideTime) := retire e frameTime in
  let st := match centerConfig with Some _ => CHILD | None => GRID end in
  {| _items := map (fun c => _createItem c st) configs;
     _centerItem := option_map (fun c => _createItem c CENTER) centerConfig;
     _selectedItem := select configs selectedIndex centerConfig;
     _oldItems := old;
     _lastHideTime := lastHideTime;
     _restartAnimation := true;
     _upcomingTransition := kind;
     _transitionAngle := transitionAngle;
     _backButton := {| back_xy := back_xy (_backButton e);
                       back_reveal_child :=
                         match parentAngle with Some _ => true | None => false end |};
     _parentAngle := parentAngle; _dragIndex := _dragIndex e;
     _dropIndex := _dropIndex e; _dropRow := _dropRow e;
     _dropColumn := _dropColumn e; _lastDropIndex := _lastDropIndex e;
     _width := _width e; _height := _height e;
     _columnCount := _columnCount e; _rowCount := _rowCount e;
     _gridOffsetX := _gridOffsetX e; _gridOffsetY := _gridOffsetY e |}.

End Collaborators.

(** [dragSource.connect('drag-begin', ...)] of the item at index [i]: the
    item turns insensitive (and translucent), [_dragIndex] is its index. *)
Fixpoint desensitize (i : nat) (items : list Item) : list Item :=
  match items, i with
  | [], _ => []
  | it :: rest, O =>
      {| state := state it; config := config it; xy := xy it;
         reveal_child := reveal_child it; sensitive := false;
         parented := parented it |} :: rest
  | it :: rest, S k => it :: desensitize k rest
  end.

Definition dragBegin (e : Editor) (i : nat) : Editor :=
  {| _items := desensitize i (_items e); _centerItem := _centerItem e;
     _selectedItem := _selectedItem e; _oldItems := _oldItems e;
     _lastHideTime := _lastHideTime e; _restartAnimation := true;
     _upcomingTransition := _upcomingTransition e;
     _transitionAngle := _transitionAngle e; _backButton := _backButton e;
     _parentAngle := _parentAngle e; _dragIndex := Some i;
     _dropIndex := _dropIndex e; _dropRow := _dropRow e;
     _dropColumn := _dropColumn e; _lastDropIndex := _lastDropIndex e;
     _width := _width e; _height := _height e;
     _columnCount := _columnCount e; _rowCount := _rowCount e;
     _gridOffsetX := _gridOffsetX e; _gridOffsetY := _gridOffsetY e |}.

(** The editor as [_init] leaves it. *)
Definition init : Editor :=
  {| _items := []; _centerItem := None; _selectedItem := None; _oldItems := [];
     _lastHideTime := 0; _restartAnimation := false;
     _upcomingTransition := NONE; _transitionAngle := Some 0;
     _backButton := {| back_xy := None; back_reveal_child := false |};
     _parentAngle := None; _dragIndex := None; _dropIndex := None;
     _dropRow := None; _dropColumn := None; _lastDropIndex := None;
     _width := None; _height := None;
     _columnCount := None; _rowCount := None;
     _gridOffsetX := None; _gridOffsetY := None |}.

(* ------------------------------------------------------------------- *)
(** *** [add], [remove] and the end of a drag *)
(* ------------------------------------------------------------------- *)

(** The index [array.splice(start, ...)] starts at, for an array of the
    given length: a negative [start] counts from the end, and the result is
    clamped to the array. *)
Definition spliceStart (len : nat) (start : Z) : nat :=
  if (start <? 0)%Z then Z.to_nat (Z.max (Z.of_nat len + start) 0)
  else Nat.min (Z.to_nat start) len.

Definition withItems (e : Editor) (items : list Item) (selected : option ItemRef)
           (restart : bool) (drag : option nat) : Editor :=
  {| _items := items; _centerItem := _centerItem e;
     _selectedItem := selected; _oldItems := _oldItems e;
     _lastHideTime := _lastHideTime e; _restartAnimation := restart;
     _upcomingTransition := _upcomingTransition e;
     _transitionAngle := _transitionAngle e; _backButton := _backButton e;
     _parentAngle := _parentAngle e; _dragIndex := drag;
     _dropIndex := _dropIndex e; _dropRow := _dropRow e;
     _dropColumn := _dropColumn e; _lastDropIndex := _lastDropIndex e;
     _width := _width e; _height := _height e;
     _columnCount := _columnCount e; _rowCount := _rowCount e;
     _gridOffsetX := _gridOffsetX e; _gridOffsetY := _gridOffsetY e |}.

(** [add(config, where)]: the new item is selected and spliced in; the
    layout is only restarted when no drag is going on. *)
Definition add (e : Editor) (c : Config) (position : Z) : Editor :=
  let item := _createItem c (if _inMenuOverviewMode e then GRID else CHILD) in
  let index := spliceStart (length (_items e)) position in
  withItems e (spliceInsert index item (_items e)) (Some (RefItem index))
            (match _dragIndex e with
             | None => true
             | Some _ => _restartAnimation e
             end)
            (_dragIndex e).

(** A reference to a displayed item after the item at [index] was taken out
    of the array: the reference to that item is gone, those to later items
    move down with them. *)
Definition unreference (index : nat) (r : option ItemRef) : option ItemRef :=
  match r with
  | Some (RefItem i) =>
      if Nat.eqb i index then None
      else if (index <? i)%nat then Some (RefItem (i - 1))
      else Some (RefItem i)
  | other => other
  end.

(** [remove(which)].  If [splice] removes nothing, [removed] is [undefined]
    and [removed.unparent()] throws. *)
Definition remove (e : Editor) (which : Z) : Outcome Editor :=
  let index := spliceStart (length (_items e)) which in
  match nth_error (_items e) index with
  | Some _ =>
      Normal (withItems e (spliceRemove index (_items e))
                        (unreference index (_selectedItem e))
                        (_restartAnimation e) (_dragIndex e))
  | None => TypeError e
  end.

(** [item.sensitive = true] (and [item.opacity = 1]) for the item at the
    given index. *)
Fixpoint sensitize (i : nat) (items : list Item) : list Item :=
  match items, i with
  | [], _ => []
  | it :: rest, O =>
      {| state := state it; config := config it; xy := xy it;
         reveal_child := reveal_child it; sensitive := true;
         parented := parented it |} :: rest
  | it :: rest, S k => it :: sensitize k rest
  end.

(** Where the handlers of an item find it: among the displayed items,
    among the old items kept for a transition, or in neither list (it was
    removed, or dropped from the old items). *)
Inductive Place :=
| Displayed (i : nat)
| Kept (i : nat)
| Detached.

(** [this._items.indexOf(item)]: -1 when the item is not displayed. *)
Definition indexOf (p : Place) : Z :=
  match p with
  | Displayed i => Z.of_nat i
  | _ => (-1)%Z
  end.

(** [item.opacity = 1; item.sensitive = true; this._dragIndex = null],
    with the value [_restartAnimation] has afterwards. *)
Definition release (e : Editor) (p : Place) (restart : bool) : Editor :=
  {| _items := match p with
               | Displayed i => sensitize i (_items e)
               | _ => _items e
               end;
     _centerItem := _centerItem e;
     _selectedItem := _selectedItem e;
     _oldItems := match p with
                  | Kept i => sensitize i (_oldItems e)
                  | _ => _oldItems e
                  end;
     _lastHideTime := _lastHideTime e; _restartAnimation := restart;
     _upcomingTransition := _upcomingTransition e;
     _transitionAngle := _transitionAngle e; _backButton := _backButton e;
     _parentAngle := _parentAngle e; _dragIndex := None;
     _dropIndex := _dropIndex e; _dropRow := _dropRow e;
     _dropColumn := _dropColumn e; _lastDropIndex := _lastDropIndex e;
     _width := _width e; _height := _height e;
     _columnCount := _columnCount e; _rowCount := _rowCount e;
     _gridOffsetX := _gridOffsetX e; _gridOffsetY := _gridOffsetY e |}.

(** The 'drag-end' handler of the item at the given place.  It returns the
    index it emits with the 'remove' signal, if it emits one. *)
Definition dragEnd (e : Editor) (p : Place) (deleteData : bool)
  : Outcome Editor * option Z :=
  if deleteData then
    let removeIndex := indexOf p in
    match remove e removeIndex with
    | Normal e' =>
        (Normal (withItems e' (_items e') (_selectedItem e') (_restartAnimation e') None),
         Some removeIndex)
    | other => (other, None)
    end
  else (Normal (release e p (_restartAnimation e)), None).

(** The 'drag-cancel' handler of the item at the given place. *)
Definition dragCancel (e : Editor) (p : Place) : Editor := release e p true.

(* ------------------------------------------------------------------- *)
(** *** The 'drop' handler with its exceptions *)
(* ------------------------------------------------------------------- *)

(** What becomes of the string of an internal drag:
    [JSON.parse(what)] throws; or it returns a value for which
    [ItemRegistry.getItemTypes()[config.type].class] throws ([null], or a
    type the registry does not have); or the type is registered, and
    [isMenuClass] tells whether its class is MENU. *)
Inductive Parsed :=
| NotJSON
| UnknownType
| KnownType.

(** A call of the handler returns, or throws at the state it has reached,
    before it has emitted anything. *)
Inductive Dropped :=
| Returned (r : Editor * list Signal * bool)
| Thrown (e : Editor).

(** The 'drop' handler.  The index is restored first; [JSON.parse] is
    called for every internal drag that has an index, the registry is only
    asked in overview mode. *)
Definition dropHandler (e : Editor) (d : DropEvent) (p : Parsed) : Dropped :=
  let e0 :=
    match _dropIndex e with
    | None => withDrop e (_dropRow e) (_dropColumn e) (_lastDropIndex e)
    | Some _ => e
    end in
  match _dropIndex e0 with
  | None => Returned (drop e d)
  | Some _ =>
      if internalDrag d then
        match p with
        | NotJSON => Thrown e0
        | UnknownType => if _inMenuOverviewMode e0 then Thrown e0 else Returned (drop e d)
        | KnownType => Returned (drop e d)
        end
      else Returned (drop e d)
  end.

(* ------------------------------------------------------------------- *)
(** *** [vfunc_measure] *)
(* ------------------------------------------------------------------- *)

Inductive Orientation := HORIZONTAL | VERTICAL.

(** [vfunc_measure(orientation, for_size)]: minimum size, natural size and
    the two baselines.  [None] stands for a height that is not a finite
    number ([for_size] below one cell divides by zero columns). *)
Definition vfunc_measure (e : Editor) (orientation : Orientation) (for_size : Z)
  : option (Z * Z * Z * Z) :=
  if _inMenuOverviewMode e then
    match orientation with
    | HORIZONTAL => Some (ItemSize GRID * 4, ItemSize GRID * 4, -1, -1)%Z
    | VERTICAL =>
        let columns := (for_size / ItemSize GRID)%Z in
        if (columns =? 0)%Z then None
        else
          let rows := ceilDiv (Z.of_nat (length (_items e))) columns in
          let gridHeight := (rows * ItemSize GRID)%Z in
          Some (gridHeight, gridHeight, -1, -1)%Z
    end
  else Some (ItemSize GRID * 4, ItemSize GRID * 4, -1, -1)%Z.

End MenuEditor.

(* ===================================================================== *)
(** ** [ConfigWidgetFactory.createShortcutLabel]: the shortcut grab *)
(* ===================================================================== *)

Module ShortcutLabel.

(** The two texts the label shows while no accelerator is set: 'Not Bound'
    and the request to press the shortcut. *)
Inductive DisabledText := NOT_BOUND | PRESS_THE_SHORTCUT.

(** The state the closures of [createShortcutLabel] share: the accelerator
    and the disabled text of the label, [lastAccelerator], whether the row
    is selected ([row.is_selected()]), whether the system shortcuts are
    inhibited, and the arguments [onSelect] was called with, oldest
    first. *)
Record State := {
  accelerator : string;
  disabled_text : DisabledText;
  lastAccelerator : string;
  selected : bool;
  inhibited : bool;
  selections : list string
}.

(** A key as the 'key-pressed' handler sees it: Escape, BackSpace, or any
    other key with [Gtk.accelerator_valid(keyval, mods)] and
    [Gtk.accelerator_name(keyval, mods)]. *)
Inductive Key :=
| Escape
| BackSpace
| Other (valid : bool) (name : string).

Section Grab.

Variable doFullGrab : bool.

Definition grabKeyboard (s : State) : State :=
  {| accelerator := EmptyString;
     disabled_text := PRESS_THE_SHORTCUT;
     lastAccelerator := accelerator s;
     selected := selected s;
     inhibited := if doFullGrab then true else inhibited s;
     selections := selections s |}.

Definition cancelGrab (s : State) : State :=
  {| accelerator := accelerator s;
     disabled_text := NOT_BOUND;
     lastAccelerator := lastAccelerator s;
     selected := false;
     inhibited := if doFullGrab then false else inhibited s;
     selections := selections s |}.

(** [label.set_accelerator(a)]. *)
Definition set_accelerator (s : State) (a : string) : State :=
  {| accelerator := a;
     disabled_text := disabled_text s;
     lastAccelerator := lastAccelerator s;
     selected := selected s;
     inhibited := inhibited s;
     selections := selections s |}.

(** [onSelect(a)]. *)
Definition onSelect (s : State) (a : string) : State :=
  {| accelerator := accelerator s;
     disabled_text := disabled_text s;
     lastAccelerator := lastAccelerator s;
     selected := selected s;
     inhibited := inhibited s;
     selections := selections s ++ [a] |}.

(** The 'row-activated' handler. *)
Definition rowActivated (s : State) : State := grabKeyboard s.

(** The 'key-pressed' handler: the new state and the value it returns. *)
Definition keyPressed (s : State) (k : Key) : State * bool :=
  if selected s then
    (match k with
     | Escape => cancelGrab (set_accelerator s (lastAccelerator s))
     | BackSpace => cancelGrab (onSelect (set_accelerator s EmptyString) EmptyString)
     | Other true name => cancelGrab (set_accelerator (onSelect s name) name)
     | Other false _ => s
     end, true)
  else (s, false).

(** The 'pressed' handler of the click gesture and the 'leave' handler of
    the focus controller have the same body. *)
Definition pressed (s : State) : State :=
  if selected s then cancelGrab (set_accelerator s (lastAccelerator s)) else s.

Definition focusLeave (s : State) : State := pressed s.

End Grab.

End ShortcutLabel.

(* ===================================================================== *)
(** ** [AchievementsPage]: the two lists of achievements *)
(* ===================================================================== *)

Module AchievementsPage.

(** [AchievementState], as far as the page looks at it: it compares with
    [ACTIVE] and with [COMPLETED], every other state is [LOCKED] here. *)
Inductive AchievementState := LOCKED | ACTIVE | COMPLETED.

(** A JS object used as a dictionary from achievement ids to widgets.  Of a
    widget the model keeps [revealer.reveal_child]; the order of the
    revealers in their boxes is not part of it. *)
Definition Widgets := string -> option bool.

Definition assign (w : Widgets) (id : string) (reveal_child : bool) : Widgets :=
  fun key => if String.eqb key id then Some reveal_child else w key.

Record Page := {
  _activeAchievements : Widgets;
  _completedAchievements : Widgets
}.

(** A call returns, or throws a [TypeError] at the state it has reached. *)
Inductive Result :=
| Returned (p : Page)
| Threw (p : Page).

Definition pageOf (r : Result) : Page :=
  match r with
  | Returned p => p
  | Threw p => p
  end.

(** The page before the constructor adds the achievements. *)
Definition empty : Page :=
  {| _activeAchievements := fun _ => None;
     _completedAchievements := fun _ => None |}.

(** [_add(achievement, id)]: a fresh [Gtk.Revealer] does not reveal its
    child. *)
Definition _add (p : Page) (state : AchievementState) (id : string) : Page :=
  {| _activeAchievements :=
       assign (_activeAchievements p) id
              match state with ACTIVE => true | _ => false end;
     _completedAchievements :=
       assign (_completedAchievements p) id
              match state with COMPLETED => true | _ => false end |}.

(** [this._activeAchievements[id].revealer.reveal_child = a;
     this._completedAchievements[id].revealer.reveal_child = c]: reading
    [revealer] of a widget that is not there throws. *)
Definition reveal (p : Page) (id : string) (a c : bool) : Result :=
  match _activeAchievements p id with
  | None => Threw p
  | Some _ =>
      let p1 := {| _activeAchievements := assign (_activeAchievements p) id a;
                   _completedAchievements := _completedAchievements p |} in
      match _completedAchievements p1 id with
      | None => Threw p1
      | Some _ =>
          Returned {| _activeAchievements := _activeAchievements p1;
                      _completedAchievements :=
                        assign (_completedAchievements p1) id c |}
      end
  end.

Definition _achievementUnlocked (p : Page) (id : string) : Result := reveal p id true false.

Definition _achievementLocked (p : Page) (id : string) : Result := reveal p id false false.

Definition _achievementCompleted (p : Page) (id : string) : Result := reveal p id false true.

(** [_updateProgress(id, cur, max)] changes no revealer; it throws for an
    id without widget. *)
Definition _updateProgress (p : Page) (id : string) : Result :=
  match _activeAchievements p id with
  | None => Threw p
  | Some _ => Returned p
  end.

End AchievementsPage.

Module JSFacts.
Import JS.

Lemma ltb_lt a b : ltb a b = true <-> a < b.
Proof.
  unfold ltb. rewrite negb_true_iff. split.
  - intros H. apply Qnot_le_lt. intros Hle.
    apply Qle_bool_iff in Hle. congruence.
  - intros H. destruct (Qle_bool b a) eqn:E; [|reflexivity].
    apply Qle_bool_iff in E. exfalso. apply (Qlt_not_le _ _ H E).
Qed.

Lemma ltb_ge a b : ltb a b = false <-> b <= a.
Proof.
  unfold ltb. rewrite negb_false_iff. apply Qle_bool_iff.
Qed.

Lemma fmod_small x m : 0 <= x -> x < m -> fmod x m == x.
Proof.
  intros H0 Hm. unfold fmod, trunc.
  assert (Hmpos : 0 < m) by (eapply Qle_lt_trans; eauto).
  assert (Hq0 : 0 <= x / m).
  { apply Qle_shift_div_l; [assumption|]. now rewrite Qmult_0_l. }
  assert (Hq1 : x / m < 1).
  { apply Qlt_shift_div_r; [assumption|]. now rewrite Qmult_1_l. }
  destruct (Qle_bool 0 (x / m)) eqn:E.
  - assert (Hf : Qfloor (x / m) = 0%Z).
    { assert (H1 : (Qfloor (x / m) < 1)%Z).
      { rewrite Zlt_Qlt. eapply Qle_lt_trans; [apply Qfloor_le|exact Hq1]. }
      assert (H2 : (0 <= Qfloor (x / m))%Z).
      { change 0%Z with (Qfloor 0). apply Qfloor_resp_le. exact Hq0. }
      lia. }
    rewrite Hf. change (inject_Z 0) with 0. ring.
  - apply Qle_bool_iff in Hq0. congruence.
Qed.

End JSFacts.
(* ===================================================================== *)
(** ** Even distribution of unconstrained items *)
(* ===================================================================== *)

Module UtilsFacts.
Import Utils.

Definition Qnat (n : nat) : Q := inject_Z (Z.of_nat n).

Lemma all_free_repeat (l : list entry) :
  forallb isFree l = true -> l = repeat None (length l).
Proof.
  induction l as [|[a|] t IH]; simpl; intros H.
  - reflexivity.
  - discriminate.
  - f_equal. apply IH. exact H.
Qed.

Lemma rev_repeat_id (A : Type) (x : A) m : rev (repeat x m) = repeat x m.
Proof.
  induction m as [|m IH]; [reflexivity|].
  cbn [repeat rev]. rewrite IH. symmetry. apply repeat_cons.
Qed.

Lemma firstFixed_free_app m a :
  firstFixed (repeat None m ++ [Some a]) = Some a.
Proof. induction m; simpl; auto. Qed.

Lemma after_free_state m B r :
  fst (after B r (repeat None m)) = (B, (r + m)%nat).
Proof.
  induction m as [|m IH]; simpl.
  - now rewrite Nat.add_0_r.
  - destruct (after B r (repeat None m)) as [[B' r'] out].
    simpl in *. inversion IH; subst. f_equal. lia.
Qed.

Lemma place_all_free m : forall A j B r,
  place_all (repeat None m) (before A j (repeat None m))
            (snd (after B r (repeat None m)))
  = map (fun k => place None (A, (j + S k)%nat) (B, (r + m - k)%nat)) (seq 0 m).
Proof.
  induction m as [|m IH]; intros A j B r; [reflexivity|].
  cbn [repeat before after].
  pose proof (after_free_state m B r) as Hst.
  specialize (IH A (S j) B r).
  destruct (after B r (repeat None m)) as [[B' r'] out].
  cbn [fst snd] in *. inversion Hst; subst B' r'.
  cbn [place_all seq map]. f_equal.
  - f_equal; f_equal; lia.
  - rewrite IH. rewrite <- seq_shift, map_map.
    apply map_ext. intros k. f_equal; f_equal; lia.
Qed.

(** The solver returns one angle per entry. *)
Lemma length_before l : forall A j, length (before A j l) = length l.
Proof.
  induction l as [|[a|] t IH]; intros A j; cbn [before length]; auto.
Qed.

Lemma length_after l : forall B r, length (snd (after B r l)) = length l.
Proof.
  induction l as [|e t IH]; intros B r; [reflexivity|].
  cbn [after]. specialize (IH B r).
  destruct (after B r t) as [[B' r'] out]. destruct e; cbn in *; now rewrite IH.
Qed.

Lemma length_place_all l : forall bs az,
  length bs = length l -> length az = length l ->
  length (place_all l bs az) = length l.
Proof.
  induction l as [|e t IH]; intros bs az Hb Ha; [reflexivity|].
  destruct bs as [|b bs]; [discriminate|]. destruct az as [|a az]; [discriminate|].
  cbn [place_all length] in *. f_equal. apply IH; lia.
Qed.

Lemma firstFixed_In l a : firstFixed l = Some a -> In (Some a) l.
Proof.
  induction l as [|[b|] t IH]; cbn [firstFixed]; intros H.
  - discriminate.
  - inversion H; subst. now left.
  - right. now apply IH.
Qed.

Lemma In_firstFixed l a : In (Some a) l -> firstFixed l <> None.
Proof.
  induction l as [|[b|] t IH]; cbn [firstFixed In]; intros H.
  - contradiction.
  - discriminate.
  - destruct H as [H|H]; [discriminate|]. now apply IH.
Qed.

Lemma length_distribute l : firstFixed l <> None -> length (distribute l) = length l.
Proof.
  intros H. unfold distribute.
  destruct (firstFixed l) as [first|] eqn:Hf; [|congruence].
  destruct (firstFixed (rev l)) as [last|] eqn:Hl.
  - apply length_place_all; [apply length_before|apply length_after].
  - exfalso. apply firstFixed_In in Hf. apply (In_firstFixed (rev l) first); [|exact Hl].
    now apply in_rev in Hf.
Qed.

Lemma length_placeAround_all p l : forall bs az,
  length bs = length l -> length az = length l ->
  length (placeAround_all p l bs az) = length l.
Proof.
  induction l as [|e t IH]; intros bs az Hb Ha; [reflexivity|].
  destruct bs as [|b bs]; [discriminate|]. destruct az as [|a az]; [discriminate|].
  cbn [placeAround_all length] in *. f_equal. apply IH; lia.
Qed.

Lemma length_distributeAround p l :
  firstFixed l <> None -> length (distributeAround p l) = length l.
Proof.
  intros H. unfold distributeAround.
  destruct (firstFixed l) as [first|] eqn:Hf; [|congruence].
  destruct (firstFixed (rev l)) as [last|] eqn:Hl.
  - apply length_placeAround_all; [apply length_before|apply length_after].
  - exfalso. apply firstFixed_In in Hf. apply (In_firstFixed (rev l) first); [|exact Hl].
    now apply in_rev in Hf.
Qed.

Lemma computeItemAngles_length (items : list entry) (parentAngle : option Q) :
  length (computeItemAngles items parentAngle) = length items.
Proof.
  unfold computeItemAngles. destruct items as [|first rest]; [reflexivity|].
  destruct (firstFixed (first :: rest)) eqn:Hf.
  - destruct parentAngle as [p|];
      [apply length_distributeAround|apply length_distribute]; congruence.
  - destruct parentAngle as [p|].
    + assert (H : length (distribute (Some p :: first :: rest))
                  = length (Some p :: first :: rest))
        by (apply length_distribute; discriminate).
      destruct (distribute (Some p :: first :: rest)) as [|q angles];
        [discriminate H|].
      cbn [tl]. cbn [length] in H. now injection H.
    + assert (H : length (distribute (Some 0 :: rest)) = length (Some 0 :: rest))
        by (apply length_distribute; discriminate).
      exact H.
Qed.

(** The result for [S m] unconstrained items and no parent angle. *)
Lemma computeItemAngles_free m :
  computeItemAngles (repeat None (S m)) None
  = 0 :: map (fun k => place None (0, S k) (0, (m - k)%nat)) (seq 0 m).
Proof.
  unfold computeItemAngles. cbn [repeat firstFixed].
  assert (Hff : firstFixed (None :: repeat None m) = None).
  { clear. induction m; simpl; auto. }
  cbn [firstFixed] in Hff. rewrite Hff.
  unfold distribute. cbn [firstFixed rev].
  rewrite rev_repeat_id, firstFixed_free_app.
  cbn [before after leading].
  pose proof (place_all_free m 0 0 0 0) as Hp.
  destruct (after 0 0 (repeat None m)) as [[B' r'] out].
  cbn [snd place_all place] in *. f_equal. exact Hp.
Qed.

Lemma place_even m k :
  (k < m)%nat ->
  place None (0, S k) (0, (m - k)%nat) == Qnat (S k) * (360 / Qnat (S m)).
Proof.
  intros Hk. unfold place.
  change (Qle_bool 0 0) with true. cbv iota.
  replace (S k + (m - k))%nat with (S m) by lia.
  fold (Qnat (S k)). fold (Qnat (S m)).
  assert (Hm : 0 < Qnat (S m)).
  { unfold Qnat. rewrite <- (Zlt_Qlt 0). lia. }
  assert (Hk0 : 0 <= Qnat (S k)).
  { unfold Qnat. rewrite <- (Zle_Qle 0). lia. }
  assert (Hkm : Qnat (S k) < Qnat (S m)).
  { unfold Qnat. rewrite <- Zlt_Qlt. lia. }
  assert (Hne : ~ Qnat (S m) == 0) by (intros E; rewrite E in Hm; inversion Hm).
  assert (Heq : 0 + Qnat (S k) * ((0 + 360 - 0) / Qnat (S m))
                == Qnat (S k) * (360 / Qnat (S m))) by (field; exact Hne).
  assert (Hlo : 0 <= 0 + Qnat (S k) * ((0 + 360 - 0) / Qnat (S m))).
  { rewrite Heq. apply Qmult_le_0_compat; [exact Hk0|].
    apply Qle_shift_div_l; [exact Hm|]. rewrite Qmult_0_l. discriminate. }
  assert (Hhi : 0 + Qnat (S k) * ((0 + 360 - 0) / Qnat (S m)) < 360).
  { rewrite Heq.
    assert (E : Qnat (S k) * (360 / Qnat (S m)) == (Qnat (S k) * 360) / Qnat (S m))
      by (field; exact Hne).
    rewrite E. apply Qlt_shift_div_r; [exact Hm|].
    rewrite (Qmult_comm 360). apply Qmult_lt_compat_r; [reflexivity|exact Hkm]. }
  rewrite (JSFacts.fmod_small Hlo Hhi). exact Heq.
Qed.

(** The [i]-th angle of an unconstrained menu without parent angle. *)
Lemma computeItemAngles_free_nth m i a :
  nth_error (computeItemAngles (repeat None (S m)) None) i = Some a ->
  a == Qnat i * (360 / Qnat (S m)).
Proof.
  rewrite computeItemAngles_free. destruct i as [|k]; cbn [nth_error].
  - intros H. inversion H; subst. unfold Qnat. simpl.
    now rewrite Qmult_0_l.
  - intros H.
    assert (Hk : (k < m)%nat).
    { assert (Hn : nth_error (map (fun k => place None (0, S k) (0, (m - k)%nat)) (seq 0 m)) k
                   <> None) by congruence.
      apply nth_error_Some in Hn. now rewrite length_map, length_seq in Hn. }
    rewrite nth_error_map, nth_error_seq in H.
    apply Nat.ltb_lt in Hk. rewrite Hk in H. apply Nat.ltb_lt in Hk.
    simpl in H. inversion H; subst. now apply place_even.
Qed.

(** C3.  For every list of [N] items none of which carries a fixed angle,
    and no parent angle, the angle solver returns exactly [N] angles, the
    [i]-th of which (in input order) is [i * 360 / N]; consecutive angles
    are therefore exactly [360 / N] degrees apart.  For zero items the
    result is empty. *)
Theorem computeItemAngles_evenly_spaced (items : list entry) :
  forallb isFree items = true ->
  let N := length items in
  let angles := computeItemAngles items None in
  length angles = N
  /\ (forall i a, nth_error angles i = Some a -> a == Qnat i * (360 / Qnat N))
  /\ (forall i a b, nth_error angles i = Some a -> nth_error angles (S i) = Some b ->
                    b - a == 360 / Qnat N)
  /\ (N = 0%nat -> angles = []).
Proof.
  intros Hfree N angles. subst N angles.
  rewrite (all_free_repeat _ Hfree).
  rewrite repeat_length.
  destruct (length items) as [|m].
  - simpl. repeat split; try reflexivity; intros [|i]; discriminate.
  - assert (Hnth := computeItemAngles_free_nth m).
    repeat split.
    + rewrite computeItemAngles_free. simpl.
      now rewrite length_map, length_seq.
    + exact Hnth.
    + intros i a b Ha Hb.
      rewrite (Hnth _ _ Ha), (Hnth _ _ Hb).
      unfold Qnat. rewrite Nat2Z.inj_succ. unfold Z.succ. rewrite inject_Z_plus.
      assert (Hne : ~ inject_Z (Z.of_nat (S m)) == 0).
      { intros E. apply (Qeq_bool_neq (inject_Z (Z.of_nat (S m))) 0); [|exact E].
        reflexivity. }
      field. exact Hne.
    + discriminate.
Qed.

Lemma computeItemAngles_evenly_spaced_witness :
  forallb isFree [None; None; None; None; None] = true
  /\ length (computeItemAngles [None; None; None; None; None] None) = 5%nat
  /\ (forall i a b,
        nth_error (computeItemAngles [None; None; None; None; None] None) i = Some a ->
        nth_error (computeItemAngles [None; None; None; None; None] None) (S i) = Some b ->
        b - a == 360 / Qnat 5).
Proof.
  split; [reflexivity|].
  pose proof (computeItemAngles_evenly_spaced [None; None; None; None; None] eq_refl) as H.
  cbv zeta in H. split; [exact (proj1 H)|exact (proj1 (proj2 (proj2 H)))].
Defined.

End UtilsFacts.

(* ===================================================================== *)
(** ** The menu editor: properties *)
(* ===================================================================== *)

Module MenuEditorFacts.
Import MenuEditor.

Definition emitted (r : Editor * list Signal * bool) : list Signal := snd (fst r).
Definition accepted (r : Editor * list Signal * bool) : bool := snd r.

(* ------------------------------------------------------------------- *)
(** *** 'leave' before 'drop' *)
(* ------------------------------------------------------------------- *)

Lemma leave_saves_index (e : Editor) :
  _dropIndex (leave e) = None /\ _lastDropIndex (leave e) = _dropIndex e.
Proof. split; reflexivity. Qed.

(** What a drop at index [k] emits and returns. *)
Definition dropResult (overview : bool) (d : DropEvent) (k : nat) : list Signal * bool :=
  if internalDrag d then
    if (overview && negb (isMenuClass d))%bool
    then ([Notification "Actions cannot be turned into toplevel menus."], false)
    else ([DropItem (what d) k], true)
  else if overview
    then ([Notification "You can only create new Action items inside of Custom Menus."],
          false)
    else if uriList d then (dropLines 0 (lines d) k, true)
    else ([DropData (what d) k], true).

Lemma drop_at_index (e : Editor) (d : DropEvent) (k : nat) :
  _dropIndex e = Some k \/ (_dropIndex e = None /\ _lastDropIndex e = Some k) ->
  (emitted (drop e d), accepted (drop e d)) = dropResult (_inMenuOverviewMode e) d k.
Proof.
  intros H. unfold drop, dropResult, emitted, accepted, _inMenuOverviewMode.
  destruct e; cbn [_dropIndex _lastDropIndex _centerItem _dropRow _dropColumn] in *.
  destruct H as [H|[H1 H2]]; subst;
    cbn [withDrop _dropIndex _centerItem _lastDropIndex _dropRow _dropColumn];
    destruct (internalDrag d), _centerItem0, (isMenuClass d), (uriList d); reflexivity.
Qed.

(** C1.  If 'leave' fires before 'drop', the drop handler works with the
    insertion index the last motion event left in [_dropIndex]: it emits
    exactly the signals, and returns the value, of a drop that was not
    preceded by 'leave', and the emitted 'drop-item' / 'drop-data' signals
    carry that index. *)
Theorem drop_after_leave_keeps_index (e : Editor) (d : DropEvent) (k : nat) :
  _dropIndex e = Some k ->
  _dropIndex (leave e) = None
  /\ emitted (drop (leave e) d) = emitted (drop e d)
  /\ accepted (drop (leave e) d) = accepted (drop e d)
  /\ (internalDrag d = true ->
      (_inMenuOverviewMode e && negb (isMenuClass d))%bool = false ->
      emitted (drop (leave e) d) = [DropItem (what d) k])
  /\ (internalDrag d = false -> _inMenuOverviewMode e = false ->
      emitted (drop (leave e) d)
      = if uriList d then dropLines 0 (lines d) k else [DropData (what d) k]).
Proof.
  intros Hk.
  assert (Hleave : (emitted (drop (leave e) d), accepted (drop (leave e) d))
                   = dropResult (_inMenuOverviewMode e) d k).
  { apply (drop_at_index (leave e) d). right. split; [reflexivity|exact Hk]. }
  assert (Hstay : (emitted (drop e d), accepted (drop e d))
                  = dropResult (_inMenuOverviewMode e) d k).
  { apply drop_at_index. left. exact Hk. }
  assert (He : emitted (drop (leave e) d) = fst (dropResult (_inMenuOverviewMode e) d k))
    by (rewrite <- Hleave; reflexivity).
  assert (Ha : accepted (drop (leave e) d) = snd (dropResult (_inMenuOverviewMode e) d k))
    by (rewrite <- Hleave; reflexivity).
  assert (He' : emitted (drop e d) = fst (dropResult (_inMenuOverviewMode e) d k))
    by (rewrite <- Hstay; reflexivity).
  assert (Ha' : accepted (drop e d) = snd (dropResult (_inMenuOverviewMode e) d k))
    by (rewrite <- Hstay; reflexivity).
  split; [reflexivity|].
  split; [congruence|].
  split; [congruence|].
  split.
  - intros Hi Hm. rewrite He. unfold dropResult. rewrite Hi, Hm. reflexivity.
  - intros Hi Hm. rewrite He. unfold dropResult. rewrite Hi, Hm.
    destruct (uriList d); reflexivity.
Qed.

(* ------------------------------------------------------------------- *)
(** *** Classification of the transition in [setItems] *)
(* ------------------------------------------------------------------- *)

(** C5.  A call of [setItems] on an editor without centre item that
    supplies a centre configuration and no parent angle is classified as
    transition A; a call on an editor with a centre item and no parent
    angle that supplies no centre configuration is classified as
    transition B.  Neither depends on the item lists. *)
Theorem setItems_overview_transitions
        (e : Editor) (configs : list Config) (selectedIndex : option Z)
        (centerConfig : option Config) (parentAngle : option Q)
        (frameTime : option Z) :
  (_centerItem e = None -> centerConfig <> None -> parentAngle = None ->
   _upcomingTransition (setItems e configs selectedIndex centerConfig parentAngle frameTime)
   = TRANSITION_A)
  /\ (_centerItem e <> None -> _parentAngle e = None -> centerConfig = None ->
      _upcomingTransition (setItems e configs selectedIndex centerConfig parentAngle frameTime)
      = TRANSITION_B).
Proof.
  split.
  - intros Hc Hcfg Hp. unfold setItems, classify. rewrite Hc, Hp.
    destruct centerConfig as [c|]; [|congruence].
    destruct (retire e frameTime). reflexivity.
  - intros Hc Hp Hcfg. unfold setItems, classify. rewrite Hp, Hcfg.
    destruct (_centerItem e) as [c|]; [|congruence].
    destruct (retire e frameTime). destruct parentAngle; reflexivity.
Qed.

(* ------------------------------------------------------------------- *)
(** *** [_computeItemAngles] *)
(* ------------------------------------------------------------------- *)

Lemma length_spliceRemove {A} (i : nat) (l : list A) :
  length (spliceRemove i l) = if (i <? length l)%nat then (length l - 1)%nat else length l.
Proof.
  unfold spliceRemove. rewrite length_app, length_firstn, length_skipn.
  destruct (Nat.ltb_spec i (length l)); lia.
Qed.

Lemma length_spliceInsert {A} (i : nat) (v : A) (l : list A) :
  length (spliceInsert i v l) = S (length l).
Proof.
  unfold spliceInsert. rewrite length_app. cbn [length].
  rewrite length_firstn, length_skipn. lia.
Qed.

Lemma nth_spliceInsert_at {A} (i : nat) (v : A) (l : list A) :
  (i <= length l)%nat -> nth_error (spliceInsert i v l) i = Some v.
Proof.
  intros H. unfold spliceInsert.
  rewrite nth_error_app2; rewrite length_firstn, Nat.min_l by lia; [|lia].
  now rewrite Nat.sub_diag.
Qed.

Lemma nth_spliceInsert_after {A} (i : nat) (v : A) (l : list A) :
  (i < length l)%nat -> nth_error (spliceInsert i v l) (S i) = nth_error l i.
Proof.
  intros H. unfold spliceInsert.
  rewrite nth_error_app2; rewrite length_firstn, Nat.min_l by lia; [|lia].
  replace (S i - i)%nat with 1%nat by lia.
  change (nth_error (v :: skipn i l) 1) with (nth_error (skipn i l) 0).
  rewrite nth_error_skipn. f_equal. lia.
Qed.

Lemma nth_spliceInsert_before {A} (i j : nat) (v : A) (l : list A) :
  (j < i)%nat -> (i <= length l)%nat -> nth_error (spliceInsert i v l) j = nth_error l j.
Proof.
  intros Hj Hi. unfold spliceInsert.
  rewrite nth_error_app1 by (rewrite length_firstn; lia).
  rewrite nth_error_firstn. apply Nat.ltb_lt in Hj. now rewrite Hj.
Qed.

(** A position of the array relative to the current item: [shift o] is the
    position seen from the next item. *)
Definition shift (o : option nat) : option nat :=
  match o with
  | Some (S k) => Some k
  | _ => None
  end.

Definition since (i : nat) (o : option nat) : option nat :=
  match o with
  | Some k => if (k <? i)%nat then None else Some (k - i)%nat
  | None => None
  end.

(** [pushEntries] with positions counted from the current item. *)
Fixpoint pushRelative (items : list Item) (drag drop : option nat) : list Utils.entry :=
  match items with
  | [] => []
  | it :: rest =>
      (if optNatEqb drop 0 then [None] else [])
      ++ (if optNatEqb drag 0 then [] else [entryOf it])
      ++ pushRelative rest (shift drag) (shift drop)
  end.

Lemma optNatEqb_since i o : optNatEqb (since i o) 0 = optNatEqb o i.
Proof.
  destruct o as [k|]; [|reflexivity]. cbn [since].
  destruct (Nat.ltb_spec k i); cbn [optNatEqb].
  - symmetry. apply Nat.eqb_neq. lia.
  - destruct (Nat.eqb_spec (k - i) 0), (Nat.eqb_spec k i); try reflexivity; lia.
Qed.

Lemma shift_since i o : shift (since i o) = since (S i) o.
Proof.
  destruct o as [k|]; [|reflexivity]. cbn [since].
  destruct (Nat.ltb_spec k i), (Nat.ltb_spec k (S i)); cbn [shift]; try lia; try reflexivity.
  - assert (k - i = 0)%nat as -> by lia. reflexivity.
  - destruct (k - i)%nat as [|m] eqn:E; [lia|]. f_equal. lia.
Qed.

Lemma pushEntries_relative items : forall i drag drop,
  pushEntries i items drag drop = pushRelative items (since i drag) (since i drop).
Proof.
  induction items as [|it rest IH]; intros i drag drop; [reflexivity|].
  cbn [pushEntries pushRelative].
  rewrite !optNatEqb_since, !shift_since, IH. reflexivity.
Qed.

Lemma since_0 o : since 0 o = o.
Proof. destruct o as [k|]; [|reflexivity]. cbn. now rewrite Nat.sub_0_r. Qed.

Definition endGap (drop : option nat) (n : nat) : list Utils.entry :=
  if optNatEqb drop n then [None] else [].

Lemma fixedAngles_relative (e : Editor) :
  fixedAngles e
  = pushRelative (_items e) (_dragIndex e) (_dropIndex e)
    ++ endGap (_dropIndex e) (length (_items e)).
Proof.
  unfold fixedAngles. now rewrite pushEntries_relative, !since_0.
Qed.

(** Without a dragged item the array handed to the solver is the list of
    the items' entries, with an empty entry where the drop index is. *)
Lemma pushRelative_plain items :
  pushRelative items None None = map entryOf items.
Proof.
  induction items as [|it rest IH]; [reflexivity|].
  cbn [pushRelative optNatEqb shift map app]. now rewrite IH.
Qed.

Lemma pushRelative_gap items : forall d,
  (d <= length items)%nat ->
  pushRelative items None (Some d) ++ endGap (Some d) (length items)
  = spliceInsert d None (map entryOf items).
Proof.
  induction items as [|it rest IH]; intros d Hd.
  - cbn [length] in Hd. assert (d = 0)%nat as -> by lia. reflexivity.
  - destruct d as [|d].
    + cbn [pushRelative optNatEqb Nat.eqb shift map app length endGap].
      rewrite pushRelative_plain, app_nil_r. reflexivity.
    + cbn [pushRelative optNatEqb Nat.eqb shift map app length] in *.
      change (endGap (Some (S d)) (S (length rest))) with (endGap (Some d) (length rest)).
      rewrite IH by lia. reflexivity.
Qed.

Lemma fixedAngles_no_drag (e : Editor) :
  _dragIndex e = None ->
  fixedAngles e
  = match _dropIndex e with
    | Some d =>
        if (d <=? length (_items e))%nat
        then spliceInsert d None (map entryOf (_items e))
        else map entryOf (_items e)
    | None => map entryOf (_items e)
    end.
Proof.
  intros Hd. rewrite fixedAngles_relative, Hd.
  destruct (_dropIndex e) as [d|].
  - destruct (Nat.leb_spec d (length (_items e))) as [Hle|Hgt].
    + now apply pushRelative_gap.
    + unfold endGap. cbn [optNatEqb].
      assert (Nat.eqb d (length (_items e)) = false) as -> by (apply Nat.eqb_neq; lia).
      rewrite app_nil_r. clear Hd. revert d Hgt.
      induction (_items e) as [|it rest IH]; intros d Hgt; [reflexivity|].
      destruct d as [|d]; [cbn [length] in Hgt; lia|].
      cbn [pushRelative optNatEqb Nat.eqb shift map app length] in *.
      f_equal. apply IH. lia.
  - unfold endGap. cbn [optNatEqb]. rewrite app_nil_r. apply pushRelative_plain.
Qed.

(** The drop index as it reads once the dragged item [g] is taken out of
    the list. *)
Definition withoutGap (g : nat) (drop : option nat) : option nat :=
  match drop with
  | Some d => Some (if (g <? d)%nat then (d - 1)%nat else d)
  | None => None
  end.

Lemma endGap_shift drop n : endGap (shift drop) n = endGap drop (S n).
Proof. destruct drop as [[|k]|]; reflexivity. Qed.

Lemma pushRelative_without items : forall g drop,
  (g < length items)%nat ->
  pushRelative items (Some g) drop ++ endGap drop (length items)
  = pushRelative (spliceRemove g items) None (withoutGap g drop)
    ++ endGap (withoutGap g drop) (length (spliceRemove g items)).
Proof.
  induction items as [|it rest IH]; intros g drop Hg; [cbn in Hg; lia|].
  destruct g as [|g].
  - change (spliceRemove 0 (it :: rest)) with rest.
    cbn [pushRelative optNatEqb Nat.eqb shift length].
    destruct drop as [[|d]|]; cbn [optNatEqb Nat.eqb shift withoutGap Nat.ltb Nat.leb app].
    + destruct rest as [|r rs]; reflexivity.
    + replace (S d - 1)%nat with d by lia. reflexivity.
    + reflexivity.
  - assert (Hsplice : spliceRemove (S g) (it :: rest) = it :: spliceRemove g rest)
      by reflexivity.
    rewrite Hsplice. cbn [pushRelative length shift optNatEqb Nat.eqb].
    cbn [length] in Hg. specialize (IH g (shift drop) ltac:(lia)).
    rewrite !endGap_shift in IH.
    assert (Hshift : shift (withoutGap (S g) drop) = withoutGap g (shift drop)).
    { destruct drop as [[|d]|]; try reflexivity. cbn [withoutGap shift].
      change (S g <? S d)%nat with (g <? d)%nat.
      destruct (Nat.ltb_spec g d).
      - destruct d as [|d]; [lia|]. cbn. now rewrite Nat.sub_0_r.
      - reflexivity. }
    assert (Hzero : optNatEqb (withoutGap (S g) drop) 0 = optNatEqb drop 0).
    { destruct drop as [[|d]|]; try reflexivity. cbn [withoutGap optNatEqb].
      destruct (Nat.ltb_spec (S g) (S d)); [|reflexivity].
      apply Nat.eqb_neq. lia. }
    rewrite Hzero, Hshift.
    rewrite <- !app_assoc. f_equal. f_equal.
    rewrite <- (endGap_shift (withoutGap (S g) drop)), Hshift. exact IH.
Qed.

(** The editor "as if the dragged item did not exist": the item at index
    [g] is taken out of [_items], nothing is dragged, and the drop index
    counts the remaining items. *)
Definition withoutDragged (e : Editor) (g : nat) : Editor :=
  {| _items := spliceRemove g (_items e); _centerItem := _centerItem e;
     _selectedItem := _selectedItem e; _oldItems := _oldItems e;
     _lastHideTime := _lastHideTime e; _restartAnimation := _restartAnimation e;
     _upcomingTransition := _upcomingTransition e;
     _transitionAngle := _transitionAngle e; _backButton := _backButton e;
     _parentAngle := _parentAngle e; _dragIndex := None;
     _dropIndex := withoutGap g (_dropIndex e); _dropRow := _dropRow e;
     _dropColumn := _dropColumn e; _lastDropIndex := _lastDropIndex e;
     _width := _width e; _height := _height e;
     _columnCount := _columnCount e; _rowCount := _rowCount e;
     _gridOffsetX := _gridOffsetX e; _gridOffsetY := _gridOffsetY e |}.

Lemma fixedAngles_without (e : Editor) (g : nat) :
  _dragIndex e = Some g -> (g < length (_items e))%nat ->
  fixedAngles e = fixedAngles (withoutDragged e g).
Proof.
  intros Hd Hg. rewrite !fixedAngles_relative, Hd.
  cbn [withoutDragged _items _dragIndex _dropIndex].
  now apply pushRelative_without.
Qed.

(** The number of entries handed to the solver. *)
Lemma length_pushRelative items : forall drag drop,
  (length (pushRelative items drag drop)
   + match drag with Some g => if (g <? length items)%nat then 1 else 0 | None => 0 end
   = length items
     + match drop with Some d => if (d <? length items)%nat then 1 else 0 | None => 0 end)%nat.
Proof.
  induction items as [|it rest IH]; intros drag drop.
  - destruct drag, drop; reflexivity.
  - cbn [pushRelative length]. rewrite !length_app.
    specialize (IH (shift drag) (shift drop)).
    destruct drag as [[|g]|], drop as [[|d]|];
      cbn [optNatEqb Nat.eqb shift length] in *;
      repeat match goal with
             | |- context [(?a <? ?b)%nat] => destruct (Nat.ltb_spec a b)
             | H : context [(?a <? ?b)%nat] |- _ => destruct (Nat.ltb_spec a b)
             end; cbn [length] in *; lia.
Qed.

Lemma length_fixedAngles (e : Editor) :
  (length (fixedAngles e)
   + match _dragIndex e with
     | Some g => if (g <? length (_items e))%nat then 1 else 0
     | None => 0
     end
   = length (_items e)
     + match _dropIndex e with
       | Some d => if (d <=? length (_items e))%nat then 1 else 0
       | None => 0
       end)%nat.
Proof.
  rewrite fixedAngles_relative, length_app.
  pose proof (length_pushRelative (_items e) (_dragIndex e) (_dropIndex e)) as H.
  unfold endGap.
  destruct (_dropIndex e) as [d|]; cbn [optNatEqb] in *.
  - destruct (Nat.eqb_spec d (length (_items e))), (Nat.ltb_spec d (length (_items e))),
      (Nat.leb_spec d (length (_items e))); cbn [length]; try lia.
  - cbn [length]. lia.
Qed.

Section Solver.

Variable solver : list Utils.entry -> option Q -> list Q.

(** The contract of the solver that the editor relies on: one angle per
    entry. *)
Definition onePerEntry : Prop :=
  forall entries parentAngle, length (solver entries parentAngle) = length entries.

(** The angles before the dragged item is re-inserted. *)
Definition reducedAngles (e : Editor) : list JS.num :=
  let angles := map (@Some Q) (solver (fixedAngles e) (_parentAngle e)) in
  match _dropIndex e with
  | Some d => spliceRemove (removeIndex (_dragIndex e) d) angles
  | None => angles
  end.

Lemma computeItemAngles_unfold (e : Editor) :
  _computeItemAngles solver e
  = match _dragIndex e with
    | Some g =>
        spliceInsert g
          match reducedAngles e with
          | [] => None
          | _ :: _ => element (reducedAngles e) (g mod length (reducedAngles e))
          end
          (reducedAngles e)
    | None => reducedAngles e
    end.
Proof. reflexivity. Qed.

(** The dragged item leaves the length of the reduced array at one less
    than the number of items, except when the last item is dragged to the
    position behind itself: there the gap is not removed. *)
Lemma length_reducedAngles (e : Editor) (g : nat) :
  onePerEntry -> _dragIndex e = Some g -> (g < length (_items e))%nat ->
  length (reducedAngles e)
  = if (optNatEqb (_dropIndex e) (S g) && Nat.eqb (S g) (length (_items e)))%bool
    then length (_items e) else (length (_items e) - 1)%nat.
Proof.
  intros Hone Hd Hg. unfold reducedAngles.
  pose proof (length_fixedAngles e) as Hlen. rewrite Hd in Hlen.
  apply Nat.ltb_lt in Hg. rewrite Hg in Hlen. apply Nat.ltb_lt in Hg.
  destruct (_dropIndex e) as [d|]; cbn [optNatEqb andb].
  - rewrite length_spliceRemove, length_map, Hone, Hd. unfold removeIndex.
    revert Hlen.
    destruct (Nat.leb_spec d (length (_items e))),
             (Nat.ltb_spec (g + 1) d),
             (Nat.eqb_spec d (S g)),
             (Nat.eqb_spec (S g) (length (_items e)));
      cbn [andb]; intros Hlen;
      repeat match goal with
             | |- context [(?a <? ?b)%nat] => destruct (Nat.ltb_spec a b)
             end; lia.
  - rewrite length_map, Hone. lia.
Qed.

Lemma length_reducedAngles_no_drag (e : Editor) :
  onePerEntry -> _dragIndex e = None ->
  match _dropIndex e with
  | Some d => (d <= length (_items e))%nat
  | None => True
  end ->
  length (reducedAngles e) = length (_items e).
Proof.
  intros Hone Hd Hdrop. unfold reducedAngles.
  pose proof (length_fixedAngles e) as Hlen. rewrite Hd in Hlen.
  destruct (_dropIndex e) as [d|].
  - rewrite length_spliceRemove, length_map, Hone, Hd. cbn [removeIndex].
    apply Nat.leb_le in Hdrop. rewrite Hdrop in Hlen. apply Nat.leb_le in Hdrop.
    destruct (Nat.ltb_spec d (length (fixedAngles e))); lia.
  - rewrite length_map, Hone. lia.
Qed.

(** The length of the returned array, for every state the drag-and-drop
    handlers can produce: it is the number of items, except when the last
    item is dragged and the drop index is the position behind it, where
    the array is one longer. *)
Lemma length_computeItemAngles (e : Editor) :
  onePerEntry ->
  match _dragIndex e with Some g => (g < length (_items e))%nat | None => True end ->
  match _dropIndex e with Some d => (d <= length (_items e))%nat | None => True end ->
  length (_computeItemAngles solver e)
  = match _dragIndex e with
    | Some g =>
        if (optNatEqb (_dropIndex e) (S g) && Nat.eqb (S g) (length (_items e)))%bool
        then S (length (_items e)) else length (_items e)
    | None => length (_items e)
    end.
Proof.
  intros Hone Hdrag Hdrop. rewrite computeItemAngles_unfold.
  destruct (_dragIndex e) as [g|] eqn:Hd.
  - rewrite length_spliceInsert, (length_reducedAngles e Hone Hd Hdrag).
    destruct (optNatEqb (_dropIndex e) (S g) && Nat.eqb (S g) (length (_items e)))%bool;
      lia.
  - now apply length_reducedAngles_no_drag.
Qed.

Lemma nth_spliceInsert_beyond {A} (g i : nat) (v : A) (l : list A) :
  (g <= i)%nat -> (g <= length l)%nat ->
  nth_error (spliceInsert g v l) (S i) = nth_error l i.
Proof.
  intros Hi Hg. unfold spliceInsert.
  rewrite nth_error_app2; rewrite length_firstn, Nat.min_l by lia; [|lia].
  replace (S i - g)%nat with (S (i - g)) by lia.
  cbn [nth_error]. rewrite nth_error_skipn. f_equal. lia.
Qed.

(** Away from the drop index directly behind the dragged item, the gap is
    removed where the editor without the dragged item has it. *)
Lemma reducedAngles_without (e : Editor) (g : nat) :
  _dragIndex e = Some g -> (g < length (_items e))%nat ->
  _dropIndex e <> Some (S g) ->
  reducedAngles e = _computeItemAngles solver (withoutDragged e g).
Proof.
  intros Hd Hg Hdrop. unfold reducedAngles, _computeItemAngles.
  rewrite (fixedAngles_without e Hd Hg), Hd.
  cbn [withoutDragged _dragIndex _dropIndex _parentAngle].
  destruct (_dropIndex e) as [d|]; [|reflexivity].
  cbn [withoutGap removeIndex]. f_equal.
  assert (Hne : d <> S g) by congruence.
  destruct (Nat.ltb_spec (g + 1) d), (Nat.ltb_spec g d); lia.
Qed.

(** Without a dragged item every slot of the array holds a number. *)
Lemma numbers_without_drag (e : Editor) :
  _dragIndex e = None ->
  Forall (fun x : JS.num => x <> None) (_computeItemAngles solver e).
Proof.
  intros Hd. unfold _computeItemAngles. rewrite Hd.
  set (l := map (@Some Q) (solver (fixedAngles e) (_parentAngle e))).
  assert (Hall : Forall (fun x : JS.num => x <> None) l).
  { apply Forall_forall. intros x Hx. apply in_map_iff in Hx.
    destruct Hx as (q & Hq & _). subst x. discriminate. }
  destruct (_dropIndex e) as [d|]; [|exact Hall].
  unfold spliceRemove. apply Forall_app. split.
  - rewrite <- (firstn_skipn (removeIndex None d) l) in Hall.
    now apply Forall_app in Hall.
  - rewrite <- (firstn_skipn (S (removeIndex None d)) l) in Hall.
    now apply Forall_app in Hall.
Qed.

(** The array with a dragged item, from the array of the editor without
    it. *)
Lemma dragged_from_others (e : Editor) (g : nat) :
  onePerEntry -> _dragIndex e = Some g -> (g < length (_items e))%nat ->
  match _dropIndex e with
  | Some d => (d <= length (_items e))%nat /\ d <> S g
  | None => True
  end ->
  let n := length (_items e) in
  let angles := _computeItemAngles solver e in
  let others := _computeItemAngles solver (withoutDragged e g) in
  length others = (n - 1)%nat /\ length angles = n
  /\ angles = spliceInsert g (element others (g mod (n - 1))) others
  /\ (forall i, (i < g)%nat -> nth_error angles i = nth_error others i)
  /\ (forall i, (g <= i)%nat -> nth_error angles (S i) = nth_error others i)
  /\ nth_error angles g = Some (element angles (S g mod n))
  /\ ((1 < n)%nat -> exists a, nth_error angles g = Some (Some a)).
Proof.
  intros Hone Hd Hg Hdrop n angles others.
  assert (Hne : _dropIndex e <> Some (S g)).
  { destruct (_dropIndex e) as [d|]; [|discriminate].
    destruct Hdrop as [_ Hdrop]. congruence. }
  assert (Hlen : length others = (n - 1)%nat).
  { subst others n. rewrite (length_computeItemAngles (withoutDragged e g) Hone);
      cbn [withoutDragged _dragIndex _dropIndex _items].
    - rewrite length_spliceRemove. apply Nat.ltb_lt in Hg. now rewrite Hg.
    - exact I.
    - rewrite length_spliceRemove. apply Nat.ltb_lt in Hg. rewrite Hg.
      apply Nat.ltb_lt in Hg.
      destruct (_dropIndex e) as [d|]; cbn [withoutGap]; [|exact I].
      destruct Hdrop as [Hle Hsg]. destruct (Nat.ltb_spec g d); lia. }
  assert (Hangles : angles = spliceInsert g (element others (g mod (n - 1))) others).
  { subst angles. rewrite computeItemAngles_unfold, Hd.
    rewrite (reducedAngles_without e Hd Hg Hne). fold others. rewrite Hlen.
    destruct others as [|a rest] eqn:Ho; [|reflexivity].
    cbn [length] in Hlen. rewrite <- Hlen. unfold element.
    now destruct (g mod 0)%nat. }
  assert (Hgo : (g <= length others)%nat) by (rewrite Hlen; subst n; lia).
  split; [exact Hlen|]. split; [rewrite Hangles, length_spliceInsert, Hlen; subst n; lia|].
  split; [exact Hangles|].
  split; [intros i Hi; rewrite Hangles; now apply nth_spliceInsert_before|].
  split; [intros i Hi; rewrite Hangles; now apply nth_spliceInsert_beyond|].
  assert (Hat : nth_error angles g = Some (element others (g mod (n - 1)))).
  { rewrite Hangles. now apply nth_spliceInsert_at. }
  split.
  - rewrite Hat. f_equal. unfold element at 2.
    destruct (Nat.eq_dec (S g) n) as [Hlast|Hmid].
    + (* the dragged item is the last one: its successor is the first *)
      rewrite Hlast, Nat.Div0.mod_same.
      replace (g mod (n - 1))%nat with 0%nat
        by (replace (n - 1)%nat with g by lia; symmetry; apply Nat.Div0.mod_same).
      destruct g as [|g'].
      * rewrite Hat. replace (n - 1)%nat with 0%nat by lia. reflexivity.
      * rewrite Hangles, nth_spliceInsert_before by lia. reflexivity.
    + rewrite (Nat.mod_small (S g)) by (subst n; lia).
      rewrite (Nat.mod_small g) by (subst n; lia).
      rewrite Hangles, nth_spliceInsert_beyond by lia. reflexivity.
  - intros Hn. rewrite Hat.
    assert (Hmod : (g mod (n - 1) < length others)%nat)
      by (rewrite Hlen; apply Nat.mod_upper_bound; lia).
    unfold element. destruct (nth_error others (g mod (n - 1))) as [v|] eqn:Hv;
      [|apply nth_error_None in Hv; lia].
    assert (Hin : In v others) by (eapply nth_error_In; exact Hv).
    pose proof (numbers_without_drag (withoutDragged e g) eq_refl) as Hall.
    fold others in Hall. rewrite Forall_forall in Hall. specialize (Hall v Hin).
    destruct v as [a|]; [now exists a|congruence].
Qed.

(** The array of the editor without the dragged item, from the solver. *)
Lemma others_from_solver (e : Editor) (g : nat) :
  _dragIndex e = Some g -> (g < length (_items e))%nat ->
  match _dropIndex e with
  | Some d => (d <= length (_items e))%nat /\ d <> S g
  | None => True
  end ->
  let rest := map entryOf (spliceRemove g (_items e)) in
  _computeItemAngles solver (withoutDragged e g)
  = match _dropIndex e with
    | Some d =>
        let d' := if (g <? d)%nat then (d - 1)%nat else d in
        spliceRemove d' (map (@Some Q) (solver (spliceInsert d' None rest) (_parentAngle e)))
    | None => map (@Some Q) (solver rest (_parentAngle e))
    end.
Proof.
  intros Hd Hg Hdrop rest. unfold _computeItemAngles.
  rewrite (fixedAngles_no_drag (withoutDragged e g) eq_refl).
  cbn [withoutDragged _dragIndex _dropIndex _parentAngle _items].
  destruct (_dropIndex e) as [d|]; cbn [withoutGap removeIndex]; [|reflexivity].
  destruct Hdrop as [Hle Hne].
  assert (Hin : ((if (g <? d)%nat then (d - 1)%nat else d)
                 <=? length (spliceRemove g (_items e)))%nat = true).
  { apply Nat.leb_le. rewrite length_spliceRemove.
    apply Nat.ltb_lt in Hg. rewrite Hg. apply Nat.ltb_lt in Hg.
    destruct (Nat.ltb_spec g d); lia. }
  rewrite Hin. reflexivity.
Qed.

(** X18.  The rule of [_computeItemAngles] for a dragged item, in every
    state but those with the drop index directly behind the dragged item.
    The solver is called with the entries of the other items, in order,
    with an empty entry at the drop index (counted without the dragged
    item); the gap's angle is removed again; these are the angles of the
    other items, in the same order, the ones the editor without the dragged
    item has.  The dragged item has the angle of the item that follows it,
    the first item following the last one; if it is the only item, its slot
    holds [undefined].  The array has one slot per item. *)
Theorem dragged_item_takes_successor_angle (e : Editor) (g : nat) :
  onePerEntry -> _dragIndex e = Some g -> (g < length (_items e))%nat ->
  match _dropIndex e with
  | Some d => (d <= length (_items e))%nat /\ d <> S g
  | None => True
  end ->
  let n := length (_items e) in
  let rest := map entryOf (spliceRemove g (_items e)) in
  let others :=
    match _dropIndex e with
    | Some d =>
        let d' := if (g <? d)%nat then (d - 1)%nat else d in
        spliceRemove d' (map (@Some Q) (solver (spliceInsert d' None rest) (_parentAngle e)))
    | None => map (@Some Q) (solver rest (_parentAngle e))
    end in
  let angles := _computeItemAngles solver e in
  others = _computeItemAngles solver (withoutDragged e g)
  /\ length others = (n - 1)%nat /\ length angles = n
  /\ angles = spliceInsert g (element others (g mod (n - 1))) others
  /\ (forall i, (i < g)%nat -> nth_error angles i = nth_error others i)
  /\ (forall i, (g <= i)%nat -> nth_error angles (S i) = nth_error others i)
  /\ nth_error angles g = Some (element angles (S g mod n))
  /\ ((1 < n)%nat -> exists a, nth_error angles g = Some (Some a)).
Proof.
  intros Hone Hd Hg Hdrop n rest others angles.
  assert (Hothers : others = _computeItemAngles solver (withoutDragged e g))
    by (symmetry; exact (others_from_solver e Hd Hg Hdrop)).
  split; [exact Hothers|]. rewrite Hothers.
  exact (dragged_from_others e Hone Hd Hg Hdrop).
Qed.

End Solver.

(** The example menu of the design document: an edited menu with the given
    children, none of which has a fixed angle. *)
Definition plain (n : string) : Config :=
  {| name := n; icon := "icon"; type := "Command"; angle := None |}.

Definition editing (children : list string) : Editor :=
  setItems init (map plain children) None (Some (plain "menu")) None None.

Definition dragging (e : Editor) (drag drop : option nat) : Editor :=
  {| _items := _items e; _centerItem := _centerItem e;
     _selectedItem := _selectedItem e; _oldItems := _oldItems e;
     _lastHideTime := _lastHideTime e; _restartAnimation := _restartAnimation e;
     _upcomingTransition := _upcomingTransition e;
     _transitionAngle := _transitionAngle e; _backButton := _backButton e;
     _parentAngle := _parentAngle e; _dragIndex := drag;
     _dropIndex := drop; _dropRow := _dropRow e;
     _dropColumn := _dropColumn e; _lastDropIndex := _lastDropIndex e;
     _width := _width e; _height := _height e;
     _columnCount := _columnCount e; _rowCount := _rowCount e;
     _gridOffsetX := _gridOffsetX e; _gridOffsetY := _gridOffsetY e |}.

(* ------------------------------------------------------------------- *)
(** *** The drop zones in menu edit mode: a single item *)
(* ------------------------------------------------------------------- *)

(** The angular distance of two directions on the circle. *)
Definition circularDistance (m a : Q) : Q :=
  Qmin (Qabs (m - a)) (360 - Qabs (m - a)).

(** The test of the single-item case, as a proposition. *)
Lemma nearFirst_spec (m a : Q) :
  nearFirst m [Some a] = true <-> (m - a < 90 \/ 270 < m - a).
Proof.
  unfold nearFirst, element. cbn [nth_error JS.sub JS.lift2 JS.nltb].
  rewrite orb_true_iff, !JSFacts.ltb_lt. reflexivity.
Qed.

Lemma nearFirst_false (m a : Q) :
  nearFirst m [Some a] = false <-> (90 <= m - a /\ m - a <= 270).
Proof.
  unfold nearFirst, element. cbn [nth_error JS.sub JS.lift2 JS.nltb].
  rewrite orb_false_iff, !JSFacts.ltb_ge. reflexivity.
Qed.

Lemma circularDistance_near (m a : Q) :
  0 <= m < 360 -> 0 <= a < 360 -> circularDistance m a < 90 ->
  m - a < 90 \/ 270 < m - a.
Proof.
  intros Hm Ha. unfold circularDistance.
  destruct (Qlt_le_dec (m - a) 90) as [H|H]; [now left|right].
  assert (Habs : Qabs (m - a) == m - a) by (apply Qabs_pos; lra).
  rewrite Habs in H0.
  destruct (Q.min_spec (m - a) (360 - (m - a))) as [[_ E]|[_ E]];
    rewrite E in H0; lra.
Qed.

(** C4 (as the code has it).  With a single angle in the array: if the
    only item is the one being dragged, the drop index is 0.  Otherwise
    the drop index is 0 ('before') whenever the pointer is less than 90
    degrees of circular distance away from the item, and 1 ('after')
    whenever the pointer angle exceeds the item angle by 90 to 270
    degrees; so a pointer 180 degrees ahead of the item resolves to 1 and
    a pointer 45 degrees to either side resolves to 0. *)
Theorem single_item_drop_index (items : list Item) (m a : Q) :
  0 <= m < 360 -> 0 <= a < 360 ->
  (forall g angle, radialDropIndex items (Some g) m [angle] = Some (Some 0%nat))
  /\ (circularDistance m a < 90 ->
      radialDropIndex items None m [Some a] = Some (Some 0%nat))
  /\ (90 <= m - a <= 270 ->
      radialDropIndex items None m [Some a] = Some (Some 1%nat))
  /\ (m - a == 180 -> radialDropIndex items None m [Some a] = Some (Some 1%nat))
  /\ (Qabs (m - a) == 45 -> radialDropIndex items None m [Some a] = Some (Some 0%nat)).
Proof.
  intros Hm Ha.
  assert (Hnear : m - a < 90 \/ 270 < m - a ->
                  radialDropIndex items None m [Some a] = Some (Some 0%nat)).
  { intros H. apply nearFirst_spec in H. cbn [radialDropIndex length]. now rewrite H. }
  assert (Hfar : 90 <= m - a <= 270 ->
                 radialDropIndex items None m [Some a] = Some (Some 1%nat)).
  { intros H. apply nearFirst_false in H. cbn [radialDropIndex length]. now rewrite H. }
  split; [reflexivity|].
  split; [intros H; apply Hnear; now apply circularDistance_near|].
  split; [exact Hfar|].
  split.
  - intros H. apply Hfar. rewrite H. split; discriminate.
  - intros H. apply Hnear. left.
    eapply Qle_lt_trans; [apply Qle_Qabs|]. rewrite H. reflexivity.
Qed.

(** At exactly 90 degrees of distance the pointer counts as 'after', and
    so the statement with "at most 90 degrees" does not hold. *)
Lemma single_item_at_most_90_fails :
  ~ (forall (items : list Item) (m a : Q),
        0 <= m < 360 -> 0 <= a < 360 ->
        radialDropIndex items None m [Some a]
        = Some (Some (if Qle_bool (circularDistance m a) 90 then 0%nat else 1%nat))).
Proof.
  intros H.
  specialize (H [] 90 0 ltac:(split; [discriminate|reflexivity])
                ltac:(split; [discriminate|reflexivity])).
  vm_compute in H. discriminate.
Qed.

(** The difference of the two angles is not brought back into the circle:
    a pointer at the top, opposite an item at 180 degrees, has the
    difference -180 and counts as 'before'. *)
Lemma single_item_behind_pointer :
  radialDropIndex [] None 0 [Some 180] = Some (Some 0%nat).
Proof. reflexivity. Qed.

(* ------------------------------------------------------------------- *)
(** *** The drop zones in overview mode *)
(* ------------------------------------------------------------------- *)

Lemma clampToGrid_bounds (count : Z) (v : Q) :
  0 <= clampToGrid count v
  /\ ((0 <= count)%Z -> clampToGrid count v <= inject_Z (count * ItemSize GRID)).
Proof.
  unfold clampToGrid. split.
  - apply Q.le_max_l.
  - intros Hc. apply Q.max_lub.
    + rewrite <- (Zle_Qle 0). change (ItemSize GRID) with 130%Z. lia.
    + apply Q.le_min_l.
Qed.

Lemma inDropZone_spec (x : Q) :
  inDropZone x = true
  <-> (JS.fmod x (inject_Z (ItemSize GRID)) < inject_Z (ItemSize GRID) / 4
       \/ 3 * inject_Z (ItemSize GRID) / 4 < JS.fmod x (inject_Z (ItemSize GRID))).
Proof.
  unfold inDropZone, dropZoneWidth. rewrite orb_true_iff, !JSFacts.ltb_lt.
  assert (E : inject_Z (ItemSize GRID) - inject_Z (ItemSize GRID) / 4
              == 3 * inject_Z (ItemSize GRID) / 4) by (vm_compute; reflexivity).
  rewrite E. reflexivity.
Qed.

Lemma motionFinish_drop (before after : Editor) :
  _dropIndex (motionFinish before after) = _dropIndex after
  /\ _dropRow (motionFinish before after) = _dropRow after
  /\ _dropColumn (motionFinish before after) = _dropColumn after.
Proof.
  unfold motionFinish.
  destruct (negb (sameOptZ (_dropColumn after) (_dropColumn before))
            || negb (sameOptZ (_dropRow after) (_dropRow before))
            || negb (sameOptNat (_dropIndex after) (_dropIndex before)))%bool;
    repeat split.
Qed.

Section Motion.

Variable solver : list Utils.entry -> option Q -> list Q.
Variable pointerAngle : Q -> Q -> Q.

(** C7.  In overview mode the motion handler clamps the pointer into the
    grid and sets a drop index, row and column exactly when the clamped x
    coordinate is within a quarter of a cell of a cell boundary
    ([x mod cell < cell / 4] or [x mod cell > 3 * cell / 4]); everywhere
    else the three are [null]. *)
Theorem motion_overview_drop_zone
        (e : Editor) (columnCount rowCount : Z) (gridOffsetX gridOffsetY x y : Q) :
  _inMenuOverviewMode e = true ->
  _columnCount e = Some columnCount -> _rowCount e = Some rowCount ->
  _gridOffsetX e = Some gridOffsetX -> _gridOffsetY e = Some gridOffsetY ->
  let cell := inject_Z (ItemSize GRID) in
  let cx := clampToGrid columnCount (x - gridOffsetX) in
  let cy := clampToGrid rowCount (y - gridOffsetY) in
  exists e',
    motion solver pointerAngle e x y = Normal e'
    /\ 0 <= cx /\ 0 <= cy
    /\ ((0 <= columnCount)%Z -> cx <= inject_Z columnCount * cell)
    /\ ((0 <= rowCount)%Z -> cy <= inject_Z rowCount * cell)
    /\ (JS.fmod cx cell < cell / 4 \/ 3 * cell / 4 < JS.fmod cx cell ->
        _dropColumn e' = Some (Qfloor (cx / cell + (1 # 2)))
        /\ _dropRow e' = Some (Qfloor (cy / cell))
        /\ _dropIndex e'
           = Some (Z.to_nat (Z.min (Z.of_nat (length (_items e)))
                                   (columnCount * Qfloor (cy / cell)
                                    + Qfloor (cx / cell + (1 # 2))))))
    /\ (~ (JS.fmod cx cell < cell / 4 \/ 3 * cell / 4 < JS.fmod cx cell) ->
        _dropColumn e' = None /\ _dropRow e' = None /\ _dropIndex e' = None).
Proof.
  intros Hmode Hc Hr Hx Hy cell cx cy.
  unfold motion. rewrite Hmode, Hc, Hr, Hx, Hy.
  eexists. split; [reflexivity|].
  destruct (clampToGrid_bounds columnCount (x - gridOffsetX)) as [Hx0 Hx1].
  destruct (clampToGrid_bounds rowCount (y - gridOffsetY)) as [Hy0 Hy1].
  split; [exact Hx0|]. split; [exact Hy0|].
  split; [intros H; subst cell cx; rewrite <- inject_Z_mult; now apply Hx1|].
  split; [intros H; subst cell cy; rewrite <- inject_Z_mult; now apply Hy1|].
  destruct (motionFinish_drop e (motionGrid e columnCount rowCount
                                            gridOffsetX gridOffsetY x y))
    as (Hi & Hrow & Hcol).
  rewrite Hi, Hrow, Hcol. unfold motionGrid. fold cx. fold cy. fold cell.
  pose proof (inDropZone_spec cx) as Hzone. fold cell in Hzone.
  destruct (inDropZone cx) eqn:E.
  - split; [intros _; repeat split|].
    intros Hn. exfalso. apply Hn. now apply Hzone.
  - split; [|intros _; repeat split].
    intros Hz. apply Hzone in Hz. discriminate.
Qed.

End Motion.

(* ------------------------------------------------------------------- *)
(** *** Target positions computed by [vfunc_size_allocate] *)
(* ------------------------------------------------------------------- *)

(** The position an item is heading for: [(x.end, y.end)]. *)
Definition target (it : Item) : option (JS.num * JS.num) :=
  match xy it with
  | Some (ax, ay) => Some (end_ ax, end_ ay)
  | None => None
  end.

Fixpoint positions (position : nat -> Item -> JS.num * JS.num) (i : nat)
         (items : list Item) : list (JS.num * JS.num) :=
  match items with
  | [] => []
  | it :: rest => position i it :: positions position (S i) rest
  end.

Section Layout.

Variable solver : list Utils.entry -> option Q -> list Q.
Variable AV_get : AnimatedValue -> Q -> JS.num.
Variable sinRadius cosRadius : Q -> Z.

Local Abbreviation allocate := (vfunc_size_allocate solver AV_get sinRadius cosRadius).

(** The targets the first part of the allocation assigns to the displayed
    items and to the centre item. *)
Definition layoutTargets (e : Editor) (width height : Z)
  : list (JS.num * JS.num) * option (JS.num * JS.num) :=
  let centerX := (width / 2)%Z in
  let centerY := (height / 2)%Z in
  (if _inMenuOverviewMode e then
     positions (fun i _ => gridPosition
                             (gridMetrics width height (length (_items e)))
                             (_dropRow e) (_dropColumn e) i) 0 (_items e)
   else
     positions (fun i it => polarPosition sinRadius cosRadius centerX centerY (state it)
                                          (element (_computeItemAngles solver e) i))
               0 (_items e),
   option_map (fun c => centerPosition centerX centerY (state c)) (_centerItem e)).

Lemma target_animate restart time it x y :
  target (animate AV_get restart time it x y) = Some (x, y).
Proof. unfold target, animate, setAnimation. cbn. destruct (xy it) as [[ax ay]|]; reflexivity. Qed.

Lemma target_shiftStart ox oy it : target (shiftStart ox oy it) = target it.
Proof. unfold target, shiftStart. destruct (xy it) as [[ax ay]|] eqn:E; cbn; now rewrite ?E. Qed.

Lemma config_shiftStart ox oy it : config (shiftStart ox oy it) = config it.
Proof. unfold shiftStart. destruct (xy it) as [[ax ay]|]; reflexivity. Qed.

Lemma config_placeItems restart time position items : forall i,
  map config (placeItems AV_get restart time position i items) = map config items.
Proof.
  induction items as [|it rest IH]; intros i; [reflexivity|].
  cbn [placeItems map]. destruct (position i it) as [x y].
  cbn [map]. now rewrite IH.
Qed.

Lemma target_placeItems restart time position items : forall i,
  map target (placeItems AV_get restart time position i items)
  = map Some (positions position i items).
Proof.
  induction items as [|it rest IH]; intros i; [reflexivity|].
  cbn [placeItems positions map]. destruct (position i it) as [x y].
  cbn [map]. now rewrite target_animate, IH.
Qed.

(** The transition part of the allocation always ends with a state, and it
    leaves the targets and the configurations of the displayed items and of
    the centre item as they are. *)
Lemma transition_targets restart time centerX centerY kind angle selected
      (items : list Item) (center : option Item) (old : list Item) :
  exists items' center' old',
    stateOf (transition AV_get sinRadius cosRadius restart time centerX centerY
                        kind angle selected (items, center, old))
    = Some (items', center', old')
    /\ map target items' = map target items
    /\ option_map target center' = option_map target center
    /\ map config items' = map config items
    /\ option_map config center' = option_map config center.
Proof.
  assert (Hmove : forall tgt pos l,
             exists l', stateOf (moveMatching AV_get restart time tgt pos l) = Some l').
  { intros tgt pos l. induction l as [|it rest [l' IH]]; cbn [moveMatching].
    - eexists; reflexivity.
    - destruct tgt as [t|]; [|eexists; reflexivity].
      destruct (sameMenu (config it) (config t)).
      + destruct (pos it). eexists; reflexivity.
      + destruct (moveMatching AV_get restart time (Some t) pos rest);
          cbn in *; try discriminate; eexists; reflexivity. }
  assert (Hslide : forall ox oy l,
             exists l', stateOf (slideOld AV_get restart time ox oy l) = Some l').
  { intros ox oy l. induction l as [|it rest [l' IH]]; cbn [slideOld].
    - eexists; reflexivity.
    - destruct (xy it) as [[ax ay]|]; [|eexists; reflexivity].
      destruct (slideOld AV_get restart time ox oy rest);
        cbn in *; try discriminate; eexists; reflexivity. }
  unfold transition. destruct kind.
  - do 3 eexists. repeat split.
  - match goal with
    | |- context [moveMatching _ _ _ ?t ?p ?l] =>
        destruct (Hmove t p l) as [l' Hl];
        destruct (moveMatching AV_get restart time t p l); cbn in Hl; try discriminate
    end; do 3 eexists; repeat split.
  - match goal with
    | |- context [moveMatching _ _ _ ?t ?p ?l] =>
        destruct (Hmove t p l) as [l' Hl];
        destruct (moveMatching AV_get restart time t p l); cbn in Hl; try discriminate
    end; do 3 eexists; repeat split.
  - match goal with
    | |- context [slideOld _ _ _ ?ox ?oy ?l] =>
        destruct (Hslide ox oy l) as [l' Hl];
        destruct (slideOld AV_get restart time ox oy l); cbn in Hl; try discriminate
    end.
    + destruct center as [c|]; do 3 eexists; (split; [reflexivity|]);
        rewrite !map_map; cbn [option_map];
        rewrite ?target_shiftStart, ?config_shiftStart;
        repeat split; apply map_ext; intros;
        (apply target_shiftStart || apply config_shiftStart).
    + do 3 eexists. repeat split.
  - match goal with
    | |- context [slideOld _ _ _ ?ox ?oy ?l] =>
        destruct (Hslide ox oy l) as [l' Hl];
        destruct (slideOld AV_get restart time ox oy l); cbn in Hl; try discriminate
    end.
    + destruct center as [c|]; do 3 eexists; (split; [reflexivity|]);
        rewrite !map_map; cbn [option_map];
        rewrite ?target_shiftStart, ?config_shiftStart;
        repeat split; apply map_ext; intros;
        (apply target_shiftStart || apply config_shiftStart).
    + do 3 eexists. repeat split.
  - do 3 eexists. repeat split.
Qed.

(** What an allocation leaves behind: it always ends with a state, in which
    every displayed item and the centre item head for the positions of
    [layoutTargets]; the drag-and-drop cursor and the parent angle are
    untouched; in overview mode the grid metrics are those of
    [gridMetrics]. *)
Lemma allocate_targets (e : Editor) (width height frameTime : Z) :
  exists e',
    stateOf (allocate e width height frameTime) = Some e'
    /\ map target (_items e') = map Some (fst (layoutTargets e width height))
    /\ option_map target (_centerItem e')
       = option_map Some (snd (layoutTargets e width height))
    /\ _dragIndex e' = _dragIndex e /\ _dropIndex e' = _dropIndex e
    /\ _dropRow e' = _dropRow e /\ _dropColumn e' = _dropColumn e
    /\ _parentAngle e' = _parentAngle e
    /\ map config (_items e') = map config (_items e)
    /\ option_map config (_centerItem e') = option_map config (_centerItem e)
    /\ (_inMenuOverviewMode e = true ->
        (_columnCount e', _rowCount e', _gridOffsetX e', _gridOffsetY e')
        = gridMetrics width height (length (_items e))).
Proof.
  unfold vfunc_size_allocate, layoutTargets.
  match goal with
  | |- context [transition _ _ _ ?r ?t ?cx ?cy ?k ?a ?s (?items, ?center, ?old)] =>
      destruct (transition_targets r t cx cy k a s items center old)
        as (items' & center' & old' & Hst & Hitems & Hcenter & Hcfg & Hccfg);
      destruct (transition AV_get sinRadius cosRadius r t cx cy k a s (items, center, old))
        as [[[i1 c1] o1]|[[i1 c1] o1]|]; cbn [stateOf] in Hst; try discriminate;
      inversion Hst; subst i1 c1 o1; clear Hst
  end.
  all: eexists; split; [reflexivity|].
  all: destruct (_inMenuOverviewMode e) eqn:Hmode.
  all: try destruct (gridMetrics width height (length (_items e)))
         as [[[cc rc] ox] oy] eqn:Hgm.
  all: cbn [_items _centerItem _dragIndex _dropIndex _dropRow _dropColumn _parentAngle
            _columnCount _rowCount _gridOffsetX _gridOffsetY fst snd].
  all: rewrite Hitems, Hcenter, Hcfg, Hccfg, target_placeItems, config_placeItems.
  all: repeat split; try discriminate.
  all: destruct (_centerItem e) as [c|]; cbn [option_map]; try reflexivity.
  all: unfold centerPosition; cbn [option_map]; now rewrite ?target_animate.
Qed.

(** The targets depend on the editor only through the displayed items, the
    centre item, the parent angle and the drag-and-drop cursor. *)
Lemma layoutTargets_ext (e1 e2 : Editor) (width height : Z) :
  _items e2 = _items e1 -> _centerItem e2 = _centerItem e1 ->
  _parentAngle e2 = _parentAngle e1 ->
  _dragIndex e2 = _dragIndex e1 -> _dropIndex e2 = _dropIndex e1 ->
  _dropRow e2 = _dropRow e1 -> _dropColumn e2 = _dropColumn e1 ->
  layoutTargets e2 width height = layoutTargets e1 width height.
Proof.
  destruct e1, e2. cbn. intros. subst. reflexivity.
Qed.

End Layout.

(* ------------------------------------------------------------------- *)
(** *** The grid of the overview *)
(* ------------------------------------------------------------------- *)

Lemma nth_error_positions position items : forall k i,
  nth_error (positions position k items) i
  = option_map (position (k + i)%nat) (nth_error items i).
Proof.
  induction items as [|it rest IH]; intros k i.
  - destruct i; reflexivity.
  - destruct i as [|i]; cbn [positions nth_error option_map].
    + now rewrite Nat.add_0_r.
    + rewrite IH. now rewrite Nat.add_succ_r.
Qed.

Lemma ceilDiv_spec (n c : Z) :
  (0 < c)%Z -> ((ceilDiv n c - 1) * c < n <= ceilDiv n c * c)%Z.
Proof.
  intros Hc. unfold ceilDiv.
  pose proof (Z.mul_div_le (- n) c Hc).
  pose proof (Z.mul_succ_div_gt (- n) c Hc).
  nia.
Qed.

Lemma dropOffset_no_drop (dropColumn : option Z) (row column : Z) :
  dropOffset None dropColumn row column = 0%Z.
Proof. reflexivity. Qed.

Section Allocation.

Variable solver : list Utils.entry -> option Q -> list Q.
Variable AV_get : AnimatedValue -> Q -> JS.num.
Variable sinRadius cosRadius : Q -> Z.

Local Abbreviation allocate := (vfunc_size_allocate solver AV_get sinRadius cosRadius).

(** C6 (as the code has it).  In overview mode, for a width [W] of at
    least one cell and [N >= 1] items: the row count is
    [ceil(N / floor(W / cell))]; the column count is [floor(W / cell)],
    unless all items fit into one row, where it is [N]; the grid is
    centred with the offsets [(W - columns * cell) / 2] and
    [(H - rows * cell) / 2]; item [i] heads for the cell
    [(i mod columns, floor(i / columns))], moved sideways by the drop
    offset, which is zero when no drop row is set. *)
Theorem overview_grid_layout (e : Editor) (W H frameTime : Z) :
  _inMenuOverviewMode e = true ->
  (ItemSize GRID <= W)%Z -> (1 <= length (_items e))%nat ->
  let N := Z.of_nat (length (_items e)) in
  let cell := ItemSize GRID in
  let fit := (W / cell)%Z in
  let rows := ceilDiv N fit in
  let columns := if (rows =? 1)%Z then N else fit in
  let offsetX := inject_half (W - columns * cell) in
  let offsetY := inject_half (H - rows * cell) in
  exists e',
    stateOf (allocate e W H frameTime) = Some e'
    /\ _columnCount e' = Some columns /\ _rowCount e' = Some rows
    /\ ((rows - 1) * fit < N <= rows * fit)%Z
    /\ _gridOffsetX e' = Some offsetX /\ _gridOffsetY e' = Some offsetY
    /\ (forall i it,
          nth_error (_items e') i = Some it ->
          let column := (Z.of_nat i mod columns)%Z in
          let row := (Z.of_nat i / columns)%Z in
          target it
          = Some (Some (offsetX + inject_Z (column * cell)
                        + inject_Z (dropOffset (_dropRow e) (_dropColumn e) row column)),
                  Some (offsetY + inject_Z (row * cell))))
    /\ (forall dropColumn row column, dropOffset None dropColumn row column = 0%Z).
Proof.
  intros Hmode HW HN N cell fit rows columns offsetX offsetY.
  destruct (allocate_targets solver AV_get sinRadius cosRadius e W H frameTime)
    as (e' & Hst & Hitems & _ & _ & _ & _ & _ & _ & _ & _ & Hmetrics).
  specialize (Hmetrics Hmode).
  assert (Hfit : (0 < fit)%Z).
  { subst fit cell. change (ItemSize GRID) with 130%Z in *.
    apply Z.div_str_pos. lia. }
  assert (Hgm : gridMetrics W H (length (_items e))
                = (Some columns, Some rows, Some offsetX, Some offsetY)).
  { unfold gridMetrics. fold cell. fold fit.
    destruct (Z.eqb_spec fit 0); [lia|]. reflexivity. }
  rewrite Hgm in Hmetrics. inversion Hmetrics as [[Hc Hr Hx Hy]].
  exists e'. split; [exact Hst|].
  split; [reflexivity|]. split; [reflexivity|].
  split; [apply ceilDiv_spec; exact Hfit|].
  split; [reflexivity|]. split; [reflexivity|].
  split; [|reflexivity].
  intros i it Hi column row.
  assert (Hcols : (0 < columns)%Z).
  { subst columns. destruct (rows =? 1)%Z; subst N; lia. }
  assert (Hmap : nth_error (map target (_items e')) i = Some (target it))
    by (rewrite nth_error_map, Hi; reflexivity).
  rewrite Hitems in Hmap. unfold layoutTargets in Hmap.
  rewrite Hmode in Hmap. cbn [fst] in Hmap.
  rewrite nth_error_map, nth_error_positions in Hmap.
  destruct (nth_error (_items e) i) as [it0|]; [|discriminate].
  cbn [option_map Nat.add] in Hmap. inversion Hmap as [Ht].
  rewrite Hgm. unfold gridPosition.
  rewrite Z.rem_mod_nonneg by lia. reflexivity.
Qed.

(* ------------------------------------------------------------------- *)
(** *** Old items *)
(* ------------------------------------------------------------------- *)

(** The gate of [setItems]: the old items are dropped exactly when the
    widget has a frame clock whose frame time exceeds [_lastHideTime] by
    more than [TRANSITION_DURATION]; the displayed items and the centre
    item are appended and everything is hidden. *)
Lemma retire_spec (e : Editor) (frameTime : option Z) :
  let discard :=
    match frameTime with
    | Some now => (_lastHideTime e + TRANSITION_DURATION <? now)%Z
    | None => false
    end in
  retire e frameTime
  = (map hide ((if discard then [] else _oldItems e) ++ _items e
               ++ match _centerItem e with Some c => [c] | None => [] end),
     match frameTime with Some now => now | None => _lastHideTime e end).
Proof.
  unfold retire.
  destruct frameTime as [now|];
    [destruct (_lastHideTime e + TRANSITION_DURATION <? now)%Z|];
    destruct (_centerItem e); cbn [app];
    rewrite <- ?app_assoc, ?app_nil_r; reflexivity.
Qed.

(* ------------------------------------------------------------------- *)
(** *** Applying the same configuration twice *)
(* ------------------------------------------------------------------- *)

(** The targets of the displayed items and of the centre item. *)
Definition targets (e : Editor) : list (option (JS.num * JS.num)) * option (option (JS.num * JS.num)) :=
  (map target (_items e), option_map target (_centerItem e)).

(** Does one of the configurations show the same menu as the centre? *)
Definition centerAmongItems (configs : list Config) (centerConfig : option Config) : bool :=
  match centerConfig with
  | Some c => existsb (fun cfg => sameMenu cfg c) configs
  | None => false
  end.

Lemma setItems_fields (e : Editor) configs selectedIndex centerConfig parentAngle frameTime :
  let e' := setItems e configs selectedIndex centerConfig parentAngle frameTime in
  _items e' = map (fun c => _createItem c match centerConfig with
                                            | Some _ => CHILD
                                            | None => GRID
                                            end) configs
  /\ _centerItem e' = option_map (fun c => _createItem c CENTER) centerConfig
  /\ _parentAngle e' = parentAngle
  /\ _dragIndex e' = _dragIndex e /\ _dropIndex e' = _dropIndex e
  /\ _dropRow e' = _dropRow e /\ _dropColumn e' = _dropColumn e
  /\ _upcomingTransition e' = fst (classify e configs centerConfig parentAngle).
Proof.
  unfold setItems.
  destruct (classify e configs centerConfig parentAngle) as [kind a].
  destruct (retire e frameTime) as [old last].
  repeat split.
Qed.

(** The classification of a call that repeats the configuration the editor
    already shows. *)
Lemma classify_repeated (e : Editor) configs centerConfig parentAngle :
  map config (_items e) = configs ->
  option_map config (_centerItem e) = centerConfig ->
  _parentAngle e = parentAngle ->
  fst (classify e configs centerConfig parentAngle)
  = if centerAmongItems configs centerConfig then TRANSITION_C else TRANSITION_E.
Proof.
  intros Hi Hc Hp. unfold classify, centerAmongItems. rewrite Hp.
  assert (Hex : forall c, existsb (fun it => sameMenu (config it) c) (_items e)
                          = existsb (fun cfg => sameMenu cfg c) configs).
  { intros c. rewrite <- Hi. clear.
    induction (_items e) as [|it rest IH]; [reflexivity|].
    cbn [map existsb]. now rewrite IH. }
  destruct (_centerItem e) as [c0|], centerConfig as [c|];
    cbn [option_map] in Hc; try discriminate.
  - inversion Hc; subst c. rewrite Hex.
    destruct parentAngle;
      destruct (existsb (fun cfg => sameMenu cfg (config c0)) configs); reflexivity.
  - destruct parentAngle; reflexivity.
Qed.

(** C9 (as the code has it).  Applying the same configurations, selection,
    centre configuration and parent angle a second time, each call being
    followed by an allocation of the same size, leaves every displayed
    item and the centre item with the targets the first call gave them.
    The second call is classified as transition E, unless one of the
    configurations has the name and icon of the centre configuration: then
    it is classified as transition C. *)
Theorem setItems_twice (e : Editor) (configs : list Config) (selectedIndex : option Z)
        (centerConfig : option Config) (parentAngle : option Q)
        (frameTime1 frameTime2 : option Z) (W H time1 time2 : Z) :
  exists e1 e2,
    stateOf (allocate (setItems e configs selectedIndex centerConfig parentAngle frameTime1)
                      W H time1) = Some e1
    /\ stateOf (allocate (setItems e1 configs selectedIndex centerConfig parentAngle
                                   frameTime2) W H time2) = Some e2
    /\ targets e2 = targets e1
    /\ length (_items e2) = length configs
    /\ _upcomingTransition
         (setItems e1 configs selectedIndex centerConfig parentAngle frameTime2)
       = if centerAmongItems configs centerConfig then TRANSITION_C else TRANSITION_E.
Proof.
  set (s1 := setItems e configs selectedIndex centerConfig parentAngle frameTime1).
  destruct (allocate_targets solver AV_get sinRadius cosRadius s1 W H time1)
    as (e1 & Hst1 & Hitems1 & Hcenter1 & Hdrag1 & Hdrop1 & Hrow1 & Hcol1 & Hparent1
        & Hcfg1 & Hccfg1 & _).
  set (s2 := setItems e1 configs selectedIndex centerConfig parentAngle frameTime2).
  destruct (allocate_targets solver AV_get sinRadius cosRadius s2 W H time2)
    as (e2 & Hst2 & Hitems2 & Hcenter2 & _).
  destruct (setItems_fields e configs selectedIndex centerConfig parentAngle frameTime1)
    as (Hi1 & Hc1 & Hp1 & Hg1 & Hd1 & Hr1 & Hk1 & _).
  destruct (setItems_fields e1 configs selectedIndex centerConfig parentAngle frameTime2)
    as (Hi2 & Hc2 & Hp2 & Hg2 & Hd2 & Hr2 & Hk2 & Hkind).
  fold s1 in Hi1, Hc1, Hp1, Hg1, Hd1, Hr1, Hk1.
  fold s2 in Hi2, Hc2, Hp2, Hg2, Hd2, Hr2, Hk2, Hkind.
  assert (Hsame : layoutTargets solver sinRadius cosRadius s2 W H
                  = layoutTargets solver sinRadius cosRadius s1 W H).
  { apply layoutTargets_ext; congruence. }
  exists e1, e2. fold s2.
  split; [exact Hst1|]. split; [exact Hst2|].
  split; [unfold targets; congruence|].
  split.
  - rewrite <- (length_map target), Hitems2, length_map.
    unfold layoutTargets. cbn [fst].
    assert (Hlen : forall pos k l, length (positions pos k l) = length l).
    { intros pos k l. revert k. induction l; intros k; cbn; [reflexivity|now rewrite IHl]. }
    destruct (_inMenuOverviewMode s2); rewrite Hlen, Hi2, length_map; reflexivity.
  - rewrite Hkind. apply classify_repeated.
    + rewrite Hcfg1, Hi1, map_map. cbn [config _createItem]. apply map_id.
    + rewrite Hccfg1, Hc1. destruct centerConfig; reflexivity.
    + congruence.
Qed.

End Allocation.

(* ------------------------------------------------------------------- *)
(** *** Concrete runs *)
(* ------------------------------------------------------------------- *)

(** Collaborators for the concrete runs below: an animated value that has
    arrived at its end, a circle whose points all project onto the centre,
    and a pointer straight below the centre (180 degrees).  The runs do
    not depend on the first two. *)
Definition arrived (a : AnimatedValue) (time : Q) : JS.num := end_ a.
Definition flat (a : Q) : Z := 0%Z.
Definition pointerBelow (x y : Q) : Q := 180.

Definition allocated (e : Editor) (W H frameTime : Z) : Editor :=
  match stateOf (vfunc_size_allocate Utils.computeItemAngles arrived flat flat
                                     e W H frameTime) with
  | Some e' => e'
  | None => e
  end.

(** The overview with the given menus. *)
Definition showing (menus : list string) : Editor :=
  setItems init (map plain menus) None None None None.

Definition names (items : list Item) : list string :=
  map (fun it => name (config it)) items.

(** Angles as fractions in lowest terms. *)
Definition lowestTerms (angles : list JS.num) : list JS.num :=
  map (option_map Qred) angles.

(** C8 (the code falls short).  Frame times are microseconds: the
    allocation divides them by 1000 before it adds [TRANSITION_DURATION]
    ([animationTime]), [setItems] compares them with [TRANSITION_DURATION]
    as they are.  Three calls at the frame times 0, 1000 and 2000: the
    item hidden by the second call is gone from [_oldItems] after the
    third, one millisecond of animation time later, far less than
    [TRANSITION_DURATION]. *)
Theorem old_items_discarded_during_fade :
  let e1 := setItems init [plain "first"] None None None (Some 0%Z) in
  let e2 := setItems (allocated e1 520 520 0) [plain "second"] None None None
                     (Some 1000%Z) in
  let e3 := setItems (allocated e2 520 520 1000) [plain "third"] None None None
                     (Some 2000%Z) in
  names (_oldItems e2) = ["first"%string]
  /\ names (_oldItems e3) = ["second"%string]
  /\ animationTime 2000 - animationTime 1000 < inject_Z TRANSITION_DURATION.
Proof. vm_compute. repeat split. Qed.

(** C10 (the code falls short).  Two items, the second one dragged, the
    pointer opposite the first: the motion handler resolves the drop index
    2, and with it [_computeItemAngles] returns three angles for two
    items. *)
Theorem computeItemAngles_longer_than_items :
  let e := dragBegin (allocated (editing ["a"; "b"]%string) 520 520 0) 1 in
  exists e',
    motion Utils.computeItemAngles pointerBelow e 260 400 = Normal e'
    /\ _dragIndex e' = Some 1%nat /\ _dropIndex e' = Some 2%nat
    /\ length (_items e') = 2%nat
    /\ length (_computeItemAngles Utils.computeItemAngles e') = 3%nat.
Proof.
  eexists. split; [vm_compute; reflexivity|]. vm_compute. repeat split.
Qed.

(** C2 (the code falls short).  The state of C10: two items, the second
    one dragged, the drop index 2 directly behind it.  The gap pushed for
    the drop index is not removed (the test is
    [_dropIndex > _dragIndex + 1]), so the dragged item, which is the last
    one, receives the angle of the gap, 180 degrees, and not the angle of
    the item that follows it around the circle, the first one at 0
    degrees; the other item is alone in the editor without the dragged one
    and the array has a slot too many.  Before the motion event, with no
    drop index, the dragged item has the angle of the first item. *)
Theorem dragged_last_item_takes_gap_angle :
  let e := dragBegin (allocated (editing ["a"; "b"]%string) 520 520 0) 1 in
  exists e',
    motion Utils.computeItemAngles pointerBelow e 260 400 = Normal e'
    /\ _dragIndex e' = Some 1%nat /\ _dropIndex e' = Some 2%nat
    /\ length (_items e') = 2%nat
    /\ lowestTerms (_computeItemAngles Utils.computeItemAngles e')
       = [Some 0; Some 180; Some 180]
    /\ lowestTerms (_computeItemAngles Utils.computeItemAngles (withoutDragged e' 1))
       = [Some 0]
    /\ lowestTerms (_computeItemAngles Utils.computeItemAngles e) = [Some 0; Some 0].
Proof.
  eexists. split; [vm_compute; reflexivity|]. vm_compute. repeat split.
Qed.

(** With a single row the column count is the number of items, not the
    number of cells that fit into the width: two menus in a widget that is
    four cells wide. *)
Lemma column_count_single_row :
  ~ (forall (e e' : Editor) (W H frameTime : Z),
        _inMenuOverviewMode e = true -> (1 <= length (_items e))%nat ->
        stateOf (vfunc_size_allocate Utils.computeItemAngles arrived flat flat
                                     e W H frameTime) = Some e' ->
        _columnCount e' = Some (W / ItemSize GRID)%Z).
Proof.
  intros Hall.
  specialize (Hall (showing ["a"; "b"]%string) _ 520%Z 520%Z 0%Z
                   eq_refl ltac:(vm_compute; lia) eq_refl).
  vm_compute in Hall. discriminate.
Qed.

(** Repeating a configuration in which a child has the name and icon of
    the centre is classified as transition C, not E. *)
Lemma setItems_twice_not_E :
  let configs := [plain "menu"; plain "other"] in
  let center := Some (plain "menu") in
  let e1 := allocated (setItems init configs None center None None) 520 520 0 in
  _upcomingTransition (setItems e1 configs None center None None) <> TRANSITION_E.
Proof. vm_compute. discriminate. Qed.

(* ------------------------------------------------------------------- *)
(** *** The theorems at concrete inputs *)
(* ------------------------------------------------------------------- *)

Definition externalDrop : DropEvent :=
  {| what := "file:///a.desktop"; internalDrag := false; isMenuClass := false;
     uriList := false; lines := ["file:///a.desktop"%string] |}.

Lemma drop_after_leave_keeps_index_witness :
  let e := dragging (editing ["a"; "b"; "c"]%string) None (Some 1%nat) in
  _dropIndex e = Some 1%nat
  /\ emitted (drop (leave e) externalDrop) = [DropData "file:///a.desktop" 1].
Proof.
  intros e. split; [reflexivity|].
  exact (proj2 (proj2 (proj2 (proj2
           (drop_after_leave_keeps_index e externalDrop (k := 1%nat) eq_refl))))
           eq_refl eq_refl).
Defined.

Lemma dragged_item_takes_successor_angle_witness :
  let e := dragging (editing ["a"; "b"; "c"; "d"; "e"; "f"]%string) (Some 2%nat) None in
  let angles := _computeItemAngles Utils.computeItemAngles e in
  let others :=
    map (@Some Q) (Utils.computeItemAngles [None; None; None; None; None] None) in
  onePerEntry Utils.computeItemAngles
  /\ _dragIndex e = Some 2%nat /\ (2 < length (_items e))%nat
  /\ match _dropIndex e with
     | Some d => (d <= length (_items e))%nat /\ d <> 3%nat
     | None => True
     end
  /\ lowestTerms others = [Some 0; Some 72; Some 144; Some 216; Some 288]
  /\ angles = spliceInsert 2 (element others (2 mod (6 - 1))) others
  /\ lowestTerms angles = [Some 0; Some 72; Some 144; Some 144; Some 216; Some 288].
Proof.
  intros e angles others.
  assert (Hone : onePerEntry Utils.computeItemAngles)
    by exact UtilsFacts.computeItemAngles_length.
  assert (Hlt : (2 < length (_items e))%nat) by (vm_compute; lia).
  split; [exact Hone|]. split; [reflexivity|]. split; [exact Hlt|].
  split; [exact I|]. split; [reflexivity|].
  split; [|reflexivity].
  exact (proj1 (proj2 (proj2 (proj2
           (@dragged_item_takes_successor_angle Utils.computeItemAngles e 2
              Hone eq_refl Hlt I))))).
Defined.

Lemma single_item_drop_index_witness :
  0 <= 180 < 360 /\ 0 <= 0 < 360
  /\ radialDropIndex [] None 180 [Some 0] = Some (Some 1%nat).
Proof.
  assert (Hm : 0 <= 180 < 360) by (split; [discriminate|reflexivity]).
  assert (Ha : 0 <= 0 < 360) by (split; [discriminate|reflexivity]).
  split; [exact Hm|]. split; [exact Ha|].
  exact (proj1 (proj2 (proj2 (proj2 (single_item_drop_index [] Hm Ha))))
               (Qeq_refl 180)).
Defined.

Lemma setItems_overview_transitions_witness :
  _centerItem init = None /\ Some (plain "menu") <> None
  /\ _upcomingTransition (setItems init [plain "a"] None (Some (plain "menu")) None None)
     = TRANSITION_A
  /\ _centerItem (editing ["a"%string]) <> None
  /\ _parentAngle (editing ["a"%string]) = None
  /\ _upcomingTransition (setItems (editing ["a"%string]) [plain "menu"] None None None None)
     = TRANSITION_B.
Proof.
  assert (Hc : Some (plain "menu") <> None) by discriminate.
  assert (He : _centerItem (editing ["a"%string]) <> None) by discriminate.
  split; [reflexivity|]. split; [exact Hc|].
  split.
  - exact (proj1 (setItems_overview_transitions init [plain "a"] None
                    (Some (plain "menu")) None None) eq_refl Hc eq_refl).
  - split; [exact He|]. split; [reflexivity|].
    exact (proj2 (setItems_overview_transitions (editing ["a"%string]) [plain "menu"]
                    None None None None) He eq_refl eq_refl).
Defined.

Definition fiveMenus : Editor := showing ["a"; "b"; "c"; "d"; "e"]%string.

Lemma overview_grid_layout_witness :
  _inMenuOverviewMode fiveMenus = true
  /\ (ItemSize GRID <= 520)%Z /\ (1 <= length (_items fiveMenus))%nat
  /\ exists e',
       stateOf (vfunc_size_allocate Utils.computeItemAngles arrived flat flat
                                    fiveMenus 520 520 0) = Some e'
       /\ _columnCount e' = Some 4%Z /\ _rowCount e' = Some 2%Z.
Proof.
  assert (HW : (ItemSize GRID <= 520)%Z) by (vm_compute; discriminate).
  assert (HN : (1 <= length (_items fiveMenus))%nat) by (vm_compute; lia).
  split; [reflexivity|]. split; [exact HW|]. split; [exact HN|].
  destruct (overview_grid_layout Utils.computeItemAngles arrived flat flat
                                 fiveMenus (W := 520) 520 0 eq_refl HW HN)
    as (e' & Hst & Hc & Hr & _).
  exists e'. split; [exact Hst|]. split; [exact Hc|exact Hr].
Defined.

Lemma motion_overview_drop_zone_witness :
  let e := allocated fiveMenus 520 520 0 in
  _inMenuOverviewMode e = true
  /\ _columnCount e = Some 4%Z /\ _rowCount e = Some 2%Z
  /\ _gridOffsetX e = Some (inject_half 0) /\ _gridOffsetY e = Some (inject_half 260)
  /\ exists e',
       motion Utils.computeItemAngles pointerBelow e 140 50 = Normal e'
       /\ _dropColumn e' = Some 1%Z /\ _dropRow e' = Some 0%Z
       /\ _dropIndex e' = Some 1%nat.
Proof.
  intros e.
  split; [reflexivity|]. split; [reflexivity|]. split; [reflexivity|].
  split; [reflexivity|]. split; [reflexivity|].
  destruct (motion_overview_drop_zone Utils.computeItemAngles pointerBelow e
              (columnCount := 4) (rowCount := 2) (gridOffsetX := inject_half 0)
              (gridOffsetY := inject_half 260) 140 50
              eq_refl eq_refl eq_refl eq_refl eq_refl)
    as (e' & Hm & _ & _ & _ & _ & Hin & _).
  exists e'. split; [exact Hm|].
  apply Hin. left. vm_compute. reflexivity.
Defined.

End MenuEditorFacts.

(* ===================================================================== *)
(** ** The menu editor: further properties *)
(* ===================================================================== *)

Module MenuEditorMore.
Import MenuEditor MenuEditorFacts.

(* ------------------------------------------------------------------- *)
(** *** [splice] *)
(* ------------------------------------------------------------------- *)

Lemma spliceInsert_cons {A} (i : nat) (x a : A) (l : list A) :
  spliceInsert (S i) x (a :: l) = a :: spliceInsert i x l.
Proof. reflexivity. Qed.

Lemma spliceRemove_cons {A} (i : nat) (a : A) (l : list A) :
  spliceRemove (S i) (a :: l) = a :: spliceRemove i l.
Proof. reflexivity. Qed.

Lemma spliceRemove_insert {A} (x : A) (l : list A) : forall i,
  (i <= length l)%nat -> spliceRemove i (spliceInsert i x l) = l.
Proof.
  induction l as [|a l IH]; intros i Hi.
  - assert (i = 0%nat) as -> by (cbn in Hi; lia). reflexivity.
  - destruct i as [|i]; [reflexivity|].
    rewrite spliceInsert_cons, spliceRemove_cons, IH; [reflexivity|cbn in Hi; lia].
Qed.

Lemma spliceInsert_remove {A} (x : A) (l : list A) : forall i,
  nth_error l i = Some x -> spliceInsert i x (spliceRemove i l) = l.
Proof.
  induction l as [|a l IH]; intros i Hi.
  - destruct i; discriminate.
  - destruct i as [|i].
    + cbn in Hi. inversion Hi; subst. reflexivity.
    + rewrite spliceRemove_cons, spliceInsert_cons, IH; [reflexivity|exact Hi].
Qed.

Lemma map_spliceInsert {A B} (f : A -> B) (i : nat) (x : A) (l : list A) :
  map f (spliceInsert i x l) = spliceInsert i (f x) (map f l).
Proof.
  unfold spliceInsert. now rewrite map_app, firstn_map, map_cons, skipn_map.
Qed.

Lemma map_spliceRemove {A B} (f : A -> B) (i : nat) (l : list A) :
  map f (spliceRemove i l) = spliceRemove i (map f l).
Proof.
  unfold spliceRemove. now rewrite map_app, firstn_map, skipn_map.
Qed.

(** Inserting at [d] and then removing the element that was at [g] moves
    that slot's content out and puts [x] where [d] pointed to. *)
Lemma splice_move {A} (x : A) (l : list A) : forall g d,
  (g < length l)%nat -> (d <= length l)%nat ->
  spliceRemove (if (d <=? g)%nat then S g else g) (spliceInsert d x l)
  = spliceInsert (if (g <? d)%nat then (d - 1)%nat else d) x (spliceRemove g l).
Proof.
  induction l as [|a l IH]; intros g d Hg Hd; [cbn in Hg; lia|].
  destruct d as [|d].
  - cbn [Nat.leb Nat.ltb]. reflexivity.
  - destruct g as [|g].
    + cbn [Nat.leb]. change (0 <? S d)%nat with true. cbn [Nat.sub].
      rewrite Nat.sub_0_r. reflexivity.
    + change (S d <=? S g)%nat with (d <=? g)%nat.
      change (S g <? S d)%nat with (g <? d)%nat.
      cbn [length] in Hg, Hd.
      specialize (IH g d ltac:(lia) ltac:(lia)).
      rewrite spliceInsert_cons, spliceRemove_cons.
      destruct (Nat.leb_spec d g), (Nat.ltb_spec g d); try lia.
      * rewrite spliceRemove_cons, IH, spliceInsert_cons. reflexivity.
      * rewrite spliceRemove_cons, IH.
        replace (S d - 1)%nat with (S (d - 1)) by lia.
        rewrite spliceInsert_cons. reflexivity.
Qed.

Lemma nth_spliceInsert_shifted {A} (x : A) (l : list A) : forall d g,
  (d <= length l)%nat ->
  nth_error (spliceInsert d x l) (if (d <=? g)%nat then S g else g) = nth_error l g.
Proof.
  induction l as [|a l IH]; intros d g Hd.
  - assert (d = 0%nat) as -> by (cbn in Hd; lia). cbn. now destruct g.
  - destruct d as [|d]; [reflexivity|].
    rewrite spliceInsert_cons. destruct g as [|g]; [reflexivity|].
    change (S d <=? S g)%nat with (d <=? g)%nat.
    cbn [length] in Hd. specialize (IH d g ltac:(lia)).
    destruct (d <=? g)%nat; exact IH.
Qed.

Lemma spliceRemove_last {A} (l : list A) :
  spliceRemove (length l - 1) l = removelast l.
Proof.
  induction l as [|a l IH]; [reflexivity|].
  destruct l as [|b l]; [reflexivity|].
  change (removelast (a :: b :: l)) with (a :: removelast (b :: l)).
  rewrite <- IH. cbn [length Nat.sub]. rewrite !Nat.sub_0_r. reflexivity.
Qed.

Lemma spliceStart_index (len i : nat) :
  (i <= len)%nat -> spliceStart len (Z.of_nat i) = i.
Proof.
  intros H. unfold spliceStart.
  destruct (Z.ltb_spec (Z.of_nat i) 0); [lia|].
  rewrite Nat2Z.id. lia.
Qed.

Lemma spliceStart_bound (len : nat) (start : Z) : (spliceStart len start <= len)%nat.
Proof.
  unfold spliceStart. destruct (Z.ltb_spec start 0); lia.
Qed.

(* ------------------------------------------------------------------- *)
(** *** [add] and [remove] *)
(* ------------------------------------------------------------------- *)

(** X1.  Removing the item that [add] just inserted gives back the list of
    displayed items; the selection, which [add] had moved to the new item,
    is cleared.  This holds for every insertion position, also negative
    ones and those beyond the end. *)
Theorem remove_add (e : Editor) (c : Config) (position : Z) :
  let index := spliceStart (length (_items e)) position in
  exists e',
    remove (add e c position) (Z.of_nat index) = Normal e'
    /\ _items e' = _items e
    /\ _selectedItem e' = None
    /\ nth_error (_items (add e c position)) index
       = Some (_createItem c (if _inMenuOverviewMode e then GRID else CHILD)).
Proof.
  intros index.
  pose proof (spliceStart_bound (length (_items e)) position) as Hb. fold index in Hb.
  assert (Hnth : nth_error (_items (add e c position)) index
                 = Some (_createItem c (if _inMenuOverviewMode e then GRID else CHILD))).
  { unfold add. fold index. cbn [withItems _items].
    now apply nth_spliceInsert_at. }
  unfold remove.
  assert (Hlen : length (_items (add e c position)) = S (length (_items e))).
  { unfold add. cbn [withItems _items]. apply length_spliceInsert. }
  rewrite Hlen, spliceStart_index by lia. rewrite Hnth.
  eexists. split; [reflexivity|].
  unfold add. fold index. cbn [withItems _items _selectedItem unreference].
  rewrite Nat.eqb_refl. split; [now apply spliceRemove_insert|]. split; reflexivity.
Qed.

(** X2.  An internal drag-and-drop as the handlers compose it: the item at
    index [g] is dragged, [add] inserts a copy of its configuration at the
    drop index [d], and 'drag-end' then removes the original, which sits at
    [g + 1] if [d <= g] and still at [g] otherwise.  The result is the list
    without the dragged configuration, with it inserted at [d] counted
    before the removal ([d - 1] if [d > g]); the number of items is
    unchanged, the moved item is the selected one, and dropping an item
    directly in front of or behind itself changes nothing. *)
Theorem drag_and_drop_moves (e : Editor) (g d : nat) (it : Item) :
  nth_error (_items e) g = Some it -> (d <= length (_items e))%nat ->
  let original := if (d <=? g)%nat then S g else g in
  let final := if (g <? d)%nat then (d - 1)%nat else d in
  let e1 := add e (config it) (Z.of_nat d) in
  nth_error (_items e1) original = Some it
  /\ exists e2,
       dragEnd e1 (Displayed original) true = (Normal e2, Some (Z.of_nat original))
       /\ map config (_items e2)
          = spliceInsert final (config it) (spliceRemove g (map config (_items e)))
       /\ length (_items e2) = length (_items e)
       /\ _selectedItem e2 = Some (RefItem final)
       /\ _dragIndex e2 = None
       /\ (d = g \/ d = S g -> map config (_items e2) = map config (_items e)).
Proof.
  intros Hit Hd original final e1.
  assert (Hg : (g < length (_items e))%nat) by (apply nth_error_Some; congruence).
  assert (Hitems1 : _items e1
                    = spliceInsert d (_createItem (config it)
                                        (if _inMenuOverviewMode e then GRID else CHILD))
                                   (_items e)).
  { unfold e1, add. cbn [withItems _items]. now rewrite spliceStart_index. }
  assert (Hsel1 : _selectedItem e1 = Some (RefItem d)).
  { unfold e1, add. cbn [withItems _selectedItem]. now rewrite spliceStart_index. }
  assert (Horig : nth_error (_items e1) original = Some it).
  { rewrite Hitems1. unfold original. now rewrite nth_spliceInsert_shifted. }
  split; [exact Horig|].
  assert (Hlen1 : length (_items e1) = S (length (_items e))).
  { rewrite Hitems1. apply length_spliceInsert. }
  assert (Hob : (original <= length (_items e1))%nat).
  { assert (original < length (_items e1))%nat by (apply nth_error_Some; congruence). lia. }
  unfold dragEnd, remove. cbn [indexOf].
  rewrite spliceStart_index by exact Hob. rewrite Horig.
  eexists. split; [reflexivity|].
  cbn [withItems _items _selectedItem _dragIndex].
  assert (Hmoved : map config (spliceRemove original (_items e1))
                   = spliceInsert final (config it) (spliceRemove g (map config (_items e)))).
  { rewrite Hitems1, map_spliceRemove, map_spliceInsert. cbn [_createItem config].
    unfold original, final. apply splice_move; rewrite length_map; assumption. }
  split; [exact Hmoved|].
  split.
  { rewrite length_spliceRemove, Hlen1.
    assert (original < S (length (_items e)))%nat by (rewrite <- Hlen1; apply nth_error_Some; congruence).
    destruct (Nat.ltb_spec original (S (length (_items e)))); lia. }
  split.
  { rewrite Hsel1. unfold unreference, original, final.
    destruct (Nat.leb_spec d g), (Nat.ltb_spec g d); try lia.
    - destruct (Nat.eqb_spec d (S g)); [lia|].
      destruct (Nat.ltb_spec (S g) d); [lia|reflexivity].
    - destruct (Nat.eqb_spec d g); [lia|].
      destruct (Nat.ltb_spec g d); [reflexivity|lia]. }
  split; [reflexivity|].
  intros Hsame. rewrite Hmoved. unfold final.
  assert (Hc : nth_error (map config (_items e)) g = Some (config it))
    by (rewrite nth_error_map, Hit; reflexivity).
  destruct Hsame as [-> | ->].
  - rewrite Nat.ltb_irrefl. now apply spliceInsert_remove.
  - assert ((g <? S g)%nat = true) as -> by (apply Nat.ltb_lt; lia).
    replace (S g - 1)%nat with g by lia. now apply spliceInsert_remove.
Qed.

(** X3.  'drag-end' with deletion for an item that is not displayed any
    more: [indexOf] gives -1, [splice(-1, 1)] takes out the last displayed
    item and 'remove' is emitted with -1.  With nothing displayed,
    [remove] throws and [_dragIndex] keeps its value. *)
Theorem dragEnd_item_gone (e : Editor) (p : Place) :
  (forall i, p <> Displayed i) ->
  (_items e <> [] ->
   exists e',
     dragEnd e p true = (Normal e', Some (-1)%Z)
     /\ _items e' = removelast (_items e)
     /\ _dragIndex e' = None)
  /\ (_items e = [] -> dragEnd e p true = (TypeError e, None)).
Proof.
  intros Hp.
  assert (Hindex : indexOf p = (-1)%Z).
  { destruct p as [i| |]; [now destruct (Hp i)|reflexivity|reflexivity]. }
  split.
  - intros Hne. unfold dragEnd, remove. rewrite Hindex.
    assert (Hstart : spliceStart (length (_items e)) (-1)
                     = (length (_items e) - 1)%nat).
    { unfold spliceStart. cbn. lia. }
    rewrite Hstart.
    destruct (nth_error (_items e) (length (_items e) - 1)) as [last|] eqn:Hlast.
    + eexists. split; [reflexivity|]. cbn [withItems _items _dragIndex].
      split; [apply spliceRemove_last|reflexivity].
    + apply nth_error_None in Hlast. destruct (_items e); [congruence|cbn in Hlast; lia].
  - intros Hnil. unfold dragEnd, remove. rewrite Hindex, Hnil. reflexivity.
Qed.

(** X4.  Cancelling a drag, or ending it without deletion, undoes
    'drag-begin' for an item that was sensitive: the displayed items are as
    before and nothing is dragged any more. *)
Theorem drag_begin_undone (e : Editor) (i : nat) (it : Item) :
  nth_error (_items e) i = Some it -> sensitive it = true ->
  _items (dragCancel (dragBegin e i) (Displayed i)) = _items e
  /\ _dragIndex (dragCancel (dragBegin e i) (Displayed i)) = None
  /\ exists e',
       dragEnd (dragBegin e i) (Displayed i) false = (Normal e', None)
       /\ _items e' = _items e /\ _dragIndex e' = None.
Proof.
  intros Hit Hs.
  assert (Hround : sensitize i (desensitize i (_items e)) = _items e).
  { revert i Hit. generalize (_items e) as l.
    induction l as [|a l IH]; intros i Hit; [now destruct i|].
    destruct i as [|i]; cbn [desensitize sensitize].
    - cbn in Hit. inversion Hit; subst a. destruct it; cbn in *; subst; reflexivity.
    - f_equal. now apply IH. }
  split; [exact Hround|]. split; [reflexivity|].
  eexists. split; [reflexivity|]. split; [exact Hround|reflexivity].
Qed.

(* ------------------------------------------------------------------- *)
(** *** What an allocation leaves alone *)
(* ------------------------------------------------------------------- *)

(** Everything about an item but its animated position. *)
Definition shape (it : Item) : ItemState * Config * bool * bool * bool :=
  (state it, config it, reveal_child it, sensitive it, parented it).

Section Allocation.

Variable solver : list Utils.entry -> option Q -> list Q.
Variable AV_get : AnimatedValue -> Q -> JS.num.
Variable sinRadius cosRadius : Q -> Z.

Local Abbreviation allocate := (vfunc_size_allocate solver AV_get sinRadius cosRadius).

Lemma shape_animate restart time it x y :
  shape (animate AV_get restart time it x y) = shape it.
Proof. reflexivity. Qed.

Lemma shape_shiftStart ox oy it : shape (shiftStart ox oy it) = shape it.
Proof. unfold shiftStart. destruct (xy it) as [[ax ay]|]; reflexivity. Qed.

Lemma shape_placeItems restart time position items : forall i,
  map shape (placeItems AV_get restart time position i items) = map shape items.
Proof.
  induction items as [|it rest IH]; intros i; [reflexivity|].
  cbn [placeItems map]. destruct (position i it) as [x y].
  cbn [map]. now rewrite IH.
Qed.

Lemma shape_moveMatching restart time tgt pos l :
  exists l', stateOf (moveMatching AV_get restart time tgt pos l) = Some l'
             /\ map shape l' = map shape l.
Proof.
  induction l as [|it rest (l' & IH & Hs)]; cbn [moveMatching].
  - eexists; split; reflexivity.
  - destruct tgt as [t|]; [|eexists; split; reflexivity].
    destruct (sameMenu (config it) (config t)).
    + destruct (pos it). eexists; split; reflexivity.
    + destruct (moveMatching AV_get restart time (Some t) pos rest);
        cbn [stateOf] in *; try discriminate; inversion IH; subst;
        eexists; (split; [reflexivity|]); cbn [map]; now rewrite Hs.
Qed.

Lemma shape_slideOld restart time ox oy l :
  exists l', stateOf (slideOld AV_get restart time ox oy l) = Some l'
             /\ map shape l' = map shape l.
Proof.
  induction l as [|it rest (l' & IH & Hs)]; cbn [slideOld].
  - eexists; split; reflexivity.
  - destruct (xy it) as [[ax ay]|]; [|eexists; split; reflexivity].
    destruct (slideOld AV_get restart time ox oy rest);
      cbn [stateOf] in *; try discriminate; inversion IH; subst;
      eexists; (split; [reflexivity|]); cbn [map]; now rewrite Hs.
Qed.

Lemma shape_transition restart time centerX centerY kind angle selected
      (items : list Item) (center : option Item) (old : list Item) :
  exists items' center' old',
    stateOf (transition AV_get sinRadius cosRadius restart time centerX centerY
                        kind angle selected (items, center, old))
    = Some (items', center', old')
    /\ map shape items' = map shape items
    /\ option_map shape center' = option_map shape center
    /\ map shape old' = map shape old.
Proof.
  unfold transition. destruct kind.
  - do 3 eexists. repeat split.
  - match goal with
    | |- context [moveMatching _ _ _ ?t ?p ?l] =>
        destruct (shape_moveMatching restart time t p l) as (l' & Hl & Hs);
        destruct (moveMatching AV_get restart time t p l);
        cbn [stateOf] in Hl; try discriminate; inversion Hl; subst
    end; do 3 eexists; repeat split; exact Hs.
  - match goal with
    | |- context [moveMatching _ _ _ ?t ?p ?l] =>
        destruct (shape_moveMatching restart time t p l) as (l' & Hl & Hs);
        destruct (moveMatching AV_get restart time t p l);
        cbn [stateOf] in Hl; try discriminate; inversion Hl; subst
    end; do 3 eexists; repeat split; exact Hs.
  - match goal with
    | |- context [slideOld _ _ _ ?ox ?oy ?l] =>
        destruct (shape_slideOld restart time ox oy l) as (l' & Hl & Hs);
        destruct (slideOld AV_get restart time ox oy l);
        cbn [stateOf] in Hl; try discriminate; inversion Hl; subst
    end.
    + destruct center as [c|]; do 3 eexists; (split; [reflexivity|]);
        rewrite map_map; cbn [option_map]; rewrite ?shape_shiftStart;
        repeat split; try exact Hs; apply map_ext; intros; apply shape_shiftStart.
    + do 3 eexists. repeat split. exact Hs.
  - match goal with
    | |- context [slideOld _ _ _ ?ox ?oy ?l] =>
        destruct (shape_slideOld restart time ox oy l) as (l' & Hl & Hs);
        destruct (slideOld AV_get restart time ox oy l);
        cbn [stateOf] in Hl; try discriminate; inversion Hl; subst
    end.
    + destruct center as [c|]; do 3 eexists; (split; [reflexivity|]);
        rewrite map_map; cbn [option_map]; rewrite ?shape_shiftStart;
        repeat split; try exact Hs; apply map_ext; intros; apply shape_shiftStart.
    + do 3 eexists. repeat split. exact Hs.
  - do 3 eexists. repeat split.
Qed.

Lemma allocate_shapes (e : Editor) (W H frameTime : Z) :
  exists e',
    stateOf (allocate e W H frameTime) = Some e'
    /\ map shape (_items e') = map shape (_items e)
    /\ option_map shape (_centerItem e') = option_map shape (_centerItem e)
    /\ map shape (_oldItems e') = map shape (_oldItems e)
    /\ _selectedItem e' = _selectedItem e
    /\ (_dragIndex e', _dropIndex e', _dropRow e', _dropColumn e', _lastDropIndex e')
       = (_dragIndex e, _dropIndex e, _dropRow e, _dropColumn e, _lastDropIndex e)
    /\ (_parentAngle e', _transitionAngle e', _lastHideTime e')
       = (_parentAngle e, _transitionAngle e, _lastHideTime e)
    /\ (_width e', _height e') = (Some W, Some H).
Proof.
  unfold vfunc_size_allocate.
  match goal with
  | |- context [transition _ _ _ ?r ?t ?cx ?cy ?k ?a ?s (?items, ?center, ?old)] =>
      destruct (shape_transition r t cx cy k a s items center old)
        as (items' & center' & old' & Hst & Hitems & Hcenter & Hold);
      destruct (transition AV_get sinRadius cosRadius r t cx cy k a s (items, center, old))
        as [[[i1 c1] o1]|[[i1 c1] o1]|]; cbn [stateOf] in Hst; try discriminate;
      inversion Hst; subst i1 c1 o1; clear Hst
  end.
  all: eexists; split; [reflexivity|].
  all: destruct (_inMenuOverviewMode e) eqn:Hmode.
  all: try destruct (gridMetrics W H (length (_items e))) as [[[cc rc] ox] oy] eqn:Hgm.
  all: cbn [_items _centerItem _oldItems _selectedItem _dragIndex _dropIndex _dropRow
            _dropColumn _lastDropIndex _parentAngle _transitionAngle _lastHideTime
            _width _height].
  all: rewrite Hitems, Hcenter, Hold, shape_placeItems.
  all: repeat split.
  all: destruct (_centerItem e) as [c|]; reflexivity.
Qed.


(** X5.  An allocation only moves things: whether it finishes or throws, it
    ends with a state in which the displayed items, the centre item and the
    old items are the same in number and order, with the same state,
    configuration, visibility, sensitivity and parent; the selection, the
    drag-and-drop cursor, the parent angle, the pending transition angle
    and the hide time are untouched, and the size is recorded. *)
Theorem allocate_only_moves (e : Editor) (W H frameTime : Z) :
  exists e',
    stateOf (allocate e W H frameTime) = Some e'
    /\ map shape (_items e') = map shape (_items e)
    /\ option_map shape (_centerItem e') = option_map shape (_centerItem e)
    /\ map shape (_oldItems e') = map shape (_oldItems e)
    /\ _selectedItem e' = _selectedItem e
    /\ (_dragIndex e', _dropIndex e', _dropRow e', _dropColumn e', _lastDropIndex e')
       = (_dragIndex e, _dropIndex e, _dropRow e, _dropColumn e, _lastDropIndex e)
    /\ (_parentAngle e', _transitionAngle e', _lastHideTime e')
       = (_parentAngle e, _transitionAngle e, _lastHideTime e)
    /\ (_width e', _height e') = (Some W, Some H).
Proof. exact (allocate_shapes e W H frameTime). Qed.

End Allocation.

(* ------------------------------------------------------------------- *)
(** *** A second allocation *)
(* ------------------------------------------------------------------- *)

Lemma pushEntries_shape (items1 items2 : list Item) : forall i drag drop,
  map shape items2 = map shape items1 ->
  pushEntries i items2 drag drop = pushEntries i items1 drag drop.
Proof.
  revert items2. induction items1 as [|a l IH]; intros [|b l2] i drag drop Hs;
    try discriminate; [reflexivity|].
  cbn [map] in Hs. inversion Hs as [[Hst Hcfg Hr Hse Hp Hrest]].
  cbn [pushEntries]. unfold entryOf. rewrite Hcfg.
  now rewrite (IH l2 (S i) drag drop Hrest).
Qed.

Lemma positions_shape (F : nat -> ItemState -> JS.num * JS.num)
      (items1 items2 : list Item) : forall k,
  map shape items2 = map shape items1 ->
  positions (fun i it => F i (state it)) k items2
  = positions (fun i it => F i (state it)) k items1.
Proof.
  revert items2. induction items1 as [|a l IH]; intros [|b l2] k Hs;
    try discriminate; [reflexivity|].
  cbn [map] in Hs. inversion Hs as [[Hst Hcfg Hr Hse Hp Hrest]].
  cbn [positions]. rewrite Hst. now rewrite (IH l2 (S k) Hrest).
Qed.

Section Again.

Variable solver : list Utils.entry -> option Q -> list Q.
Variable AV_get : AnimatedValue -> Q -> JS.num.
Variable sinRadius cosRadius : Q -> Z.

Local Abbreviation allocate := (vfunc_size_allocate solver AV_get sinRadius cosRadius).
Local Abbreviation targetsOf := (layoutTargets solver sinRadius cosRadius).

Lemma computeItemAngles_shape (e1 e2 : Editor) :
  map shape (_items e2) = map shape (_items e1) ->
  _parentAngle e2 = _parentAngle e1 ->
  _dragIndex e2 = _dragIndex e1 -> _dropIndex e2 = _dropIndex e1 ->
  _computeItemAngles solver e2 = _computeItemAngles solver e1.
Proof.
  intros Hs Hp Hg Hd. unfold _computeItemAngles, fixedAngles.
  rewrite Hp, Hg, Hd, (pushEntries_shape _ _ _ _ _ Hs).
  assert (Hlen : length (_items e2) = length (_items e1)).
  { rewrite <- (length_map shape (_items e2)), Hs. apply length_map. }
  now rewrite Hlen.
Qed.

Lemma layoutTargets_shape (e1 e2 : Editor) (W H : Z) :
  map shape (_items e2) = map shape (_items e1) ->
  option_map shape (_centerItem e2) = option_map shape (_centerItem e1) ->
  _parentAngle e2 = _parentAngle e1 ->
  _dragIndex e2 = _dragIndex e1 -> _dropIndex e2 = _dropIndex e1 ->
  _dropRow e2 = _dropRow e1 -> _dropColumn e2 = _dropColumn e1 ->
  targetsOf e2 W H = targetsOf e1 W H.
Proof.
  intros Hs Hc Hp Hg Hd Hr Hcol. unfold layoutTargets.
  rewrite (computeItemAngles_shape _ _ Hs Hp Hg Hd), Hr, Hcol.
  assert (Hlen : length (_items e2) = length (_items e1)).
  { rewrite <- (length_map shape (_items e2)), Hs. apply length_map. }
  rewrite Hlen.
  assert (Hmode : _inMenuOverviewMode e2 = _inMenuOverviewMode e1).
  { unfold _inMenuOverviewMode.
    destruct (_centerItem e2), (_centerItem e1); cbn in Hc; congruence. }
  rewrite Hmode. f_equal.
  - destruct (_inMenuOverviewMode e1).
    + apply (positions_shape
               (fun i _ => gridPosition (gridMetrics W H (length (_items e1)))
                                        (_dropRow e1) (_dropColumn e1) i) _ _ 0 Hs).
    + apply (positions_shape
               (fun i st => polarPosition sinRadius cosRadius (W / 2) (H / 2) st
                              (element (_computeItemAngles solver e1) i)) _ _ 0 Hs).
  - destruct (_centerItem e2) as [c2|], (_centerItem e1) as [c1|];
      cbn in Hc; try discriminate; [|reflexivity].
    assert (Hst : state c2 = state c1) by (unfold shape in Hc; congruence).
    cbn [option_map]. now rewrite Hst.
Qed.

Lemma setAnimation_settled time xy x y ax ay :
  xy = Some (ax, ay) -> end_ ax = x -> end_ ay = y ->
  setAnimation AV_get false time xy x y = (ax, ay).
Proof.
  intros -> <- <-. destruct ax, ay. reflexivity.
Qed.

Lemma animate_settled time it x y :
  target it = Some (x, y) -> animate AV_get false time it x y = it.
Proof.
  unfold target, animate, setAnimation.
  destruct it as [st cfg [[[sx ex stx etx] [sy ey sty ety]]|] r s p]; cbn; [|discriminate].
  intros Ht. inversion Ht; subst. reflexivity.
Qed.

Lemma placeItems_settled time position items : forall i,
  map target items = map Some (positions position i items) ->
  placeItems AV_get false time position i items = items.
Proof.
  induction items as [|it rest IH]; intros i Ht; [reflexivity|].
  cbn [map positions] in Ht. inversion Ht as [[Hhead Hrest]].
  cbn [placeItems]. destruct (position i it) as [x y].
  rewrite (animate_settled time it Hhead), (IH (S i) Hrest). reflexivity.
Qed.

Lemma allocate_normal_fields (e e1 : Editor) (W H frameTime : Z) :
  allocate e W H frameTime = Normal e1 ->
  _upcomingTransition e1 = NONE /\ _restartAnimation e1 = false
  /\ _width e1 = Some W /\ _height e1 = Some H
  /\ _backButton e1
     = (let '(x, y) :=
          match _parentAngle e with
          | Some a => polarPosition sinRadius cosRadius (W / 2) (H / 2) CHILD (Some a)
          | None => centerPosition (W / 2) (H / 2) CHILD
          end in
        animateBack AV_get (_restartAnimation e) (animationTime frameTime)
                    (_backButton e) x y).
Proof.
  unfold vfunc_size_allocate.
  match goal with
  | |- context [transition _ _ _ ?r ?t ?cx ?cy ?k ?a ?s ?shown] =>
      destruct (transition AV_get sinRadius cosRadius r t cx cy k a s shown)
        as [[[i1 c1] o1]|[[i1 c1] o1]|]; try discriminate
  end.
  destruct (if _inMenuOverviewMode e
            then gridMetrics W H (length (_items e))
            else (_columnCount e, _rowCount e, _gridOffsetX e, _gridOffsetY e))
    as [[[cc rc] ox] oy].
  intros Hrun. inversion Hrun; subst e1; clear Hrun.
  repeat split.
Qed.

(** X6.  An allocation that finishes consumes the pending transition and
    the restart flag, and a second allocation of the same size then changes
    nothing at all: no item, old item or button moves, no animation is
    restarted, whatever the frame time. *)
Theorem allocate_again (e e1 : Editor) (W H frameTime : Z) :
  allocate e W H frameTime = Normal e1 ->
  _upcomingTransition e1 = NONE /\ _restartAnimation e1 = false
  /\ forall frameTime', allocate e1 W H frameTime' = Normal e1.
Proof.
  intros Hrun.
  destruct (allocate_targets solver AV_get sinRadius cosRadius e W H frameTime)
    as (e1' & Hst & Hitems & Hcenter & Hg & Hd & Hr & Hc & Hp & _ & _ & Hmetrics).
  destruct (allocate_shapes solver AV_get sinRadius cosRadius e W H frameTime)
    as (e1'' & Hst' & Hsi & Hsc & _).
  rewrite Hrun in Hst, Hst'. cbn [stateOf] in Hst, Hst'.
  inversion Hst; subst e1'. inversion Hst'; subst e1''. clear Hst Hst'.
  assert (Hsame : targetsOf e1 W H = targetsOf e W H)
    by (apply layoutTargets_shape; assumption).
  rewrite <- Hsame in Hitems, Hcenter.
  assert (Hmode : _inMenuOverviewMode e1 = _inMenuOverviewMode e).
  { unfold _inMenuOverviewMode.
    destruct (_centerItem e1), (_centerItem e); cbn in Hsc; congruence. }
  assert (Hlen : length (_items e1) = length (_items e)).
  { rewrite <- (length_map shape (_items e1)), Hsi. apply length_map. }
  destruct (allocate_normal_fields _ _ _ _ Hrun) as (Hkind & Hrestart & Hw & Hh & Hback).
  split; [exact Hkind|]. split; [exact Hrestart|].
  intros frameTime'.
  (* the centre item *)
  assert (Hcenter2 :
            match _centerItem e1 with
            | Some c =>
                let '(x, y) := centerPosition (W / 2) (H / 2) (state c) in
                Some (animate AV_get false (animationTime frameTime') c x y)
            | None => None
            end = _centerItem e1).
  { unfold layoutTargets in Hcenter. cbn [snd] in Hcenter.
    destruct (_centerItem e1) as [c|]; [|reflexivity].
    cbn [option_map] in Hcenter. inversion Hcenter as [Ht].
    unfold centerPosition in *. cbv zeta. cbn iota.
    now rewrite (animate_settled _ c Ht). }
  (* the back button *)
  assert (Hback2 :
            (let '(x, y) :=
               match _parentAngle e1 with
               | Some a => polarPosition sinRadius cosRadius (W / 2) (H / 2) CHILD (Some a)
               | None => centerPosition (W / 2) (H / 2) CHILD
               end in
             animateBack AV_get false (animationTime frameTime') (_backButton e1) x y)
            = _backButton e1).
  { rewrite Hp, Hback.
    destruct (match _parentAngle e with
              | Some a => polarPosition sinRadius cosRadius (W / 2) (H / 2) CHILD (Some a)
              | None => centerPosition (W / 2) (H / 2) CHILD
              end) as [bx by_].
    unfold animateBack. cbn [back_xy back_reveal_child]. f_equal. f_equal.
    destruct (setAnimation AV_get (_restartAnimation e) (animationTime frameTime)
                           (back_xy (_backButton e)) bx by_) as [ax ay] eqn:E.
    apply setAnimation_settled; [reflexivity| |].
    - unfold setAnimation in E. destruct (back_xy (_backButton e)) as [[px py]|];
        inversion E; reflexivity.
    - unfold setAnimation in E. destruct (back_xy (_backButton e)) as [[px py]|];
        inversion E; reflexivity. }
  unfold layoutTargets in Hitems. cbn [fst] in Hitems.
  unfold vfunc_size_allocate. rewrite Hkind, Hrestart. cbn [transition]. cbv zeta.
  rewrite Hcenter2, Hback2.
  destruct (_inMenuOverviewMode e1) eqn:Hov.
  - rewrite (placeItems_settled _ _ _ _ Hitems).
    assert (Hgm : gridMetrics W H (length (_items e1))
                  = (_columnCount e1, _rowCount e1, _gridOffsetX e1, _gridOffsetY e1)).
    { rewrite Hlen. symmetry. apply Hmetrics. congruence. }
    rewrite Hgm. destruct e1. cbn in *. subst. reflexivity.
  - rewrite (placeItems_settled _ _ _ _ Hitems).
    destruct e1. cbn in *. subst. reflexivity.
Qed.

End Again.

(* ------------------------------------------------------------------- *)
(** *** Transitions that throw *)
(* ------------------------------------------------------------------- *)

Section Throws.

Variable solver : list Utils.entry -> option Q -> list Q.
Variable AV_get : AnimatedValue -> Q -> JS.num.
Variable sinRadius cosRadius : Q -> Z.

Local Abbreviation allocate := (vfunc_size_allocate solver AV_get sinRadius cosRadius).

(** With transition B pending, no selected item and an old item around,
    the allocation throws at the first old item and leaves the transition,
    the restart flag and the old items as they are. *)
Lemma allocate_B_unselected (e : Editor) (W H frameTime : Z) :
  _upcomingTransition e = TRANSITION_B -> _selectedItem e = None -> _oldItems e <> [] ->
  exists e',
    allocate e W H frameTime = TypeError e'
    /\ _upcomingTransition e' = TRANSITION_B /\ _selectedItem e' = None
    /\ _oldItems e' = _oldItems e /\ _restartAnimation e' = _restartAnimation e.
Proof.
  intros Hk Hs Ho.
  destruct (_oldItems e) as [|o old] eqn:Hold; [congruence|].
  destruct (if _inMenuOverviewMode e
            then gridMetrics W H (length (_items e))
            else (_columnCount e, _rowCount e, _gridOffsetX e, _gridOffsetY e))
    as [[[cc rc] ox] oy] eqn:Hgm.
  eexists. split.
  - unfold vfunc_size_allocate. rewrite Hk, Hs, Hold, Hgm.
    cbn [transition deref moveMatching]. reflexivity.
  - cbn. rewrite ?Hk, ?Hold. repeat split.
Qed.

(** X7.  Going back to the overview without a selection: [setItems] on an
    edited top-level menu with no centre configuration and a selected index
    that selects nothing requests transition B, and every following
    allocation throws when it looks for the selected item among the old
    items; the transition stays pending, so the next allocation throws
    again. *)
Theorem overview_without_selection_throws
        (e : Editor) (configs : list Config) (selectedIndex : option Z)
        (parentAngle : option Q) (frameTime : option Z) (W H time1 time2 : Z) :
  _centerItem e <> None -> _parentAngle e = None ->
  select configs selectedIndex None = None ->
  let s := setItems e configs selectedIndex None parentAngle frameTime in
  exists e1 e2,
    allocate s W H time1 = TypeError e1
    /\ _upcomingTransition e1 = TRANSITION_B /\ _restartAnimation e1 = true
    /\ allocate e1 W H time2 = TypeError e2
    /\ _upcomingTransition e2 = TRANSITION_B.
Proof.
  intros Hc Hp Hsel s.
  assert (Hs : _upcomingTransition s = TRANSITION_B /\ _selectedItem s = None
               /\ _oldItems s <> [] /\ _restartAnimation s = true).
  { unfold s, setItems, classify. rewrite Hp, Hsel.
    destruct (_centerItem e) as [c|] eqn:Ec; [|congruence].
    pose proof (retire_spec e frameTime) as Hr. cbv zeta in Hr. rewrite Ec in Hr.
    destruct (retire e frameTime) as [old last]. inversion Hr; subst old last.
    destruct parentAngle; cbn; repeat split;
      rewrite !map_app; cbn [map]; intros Hnil;
      apply app_eq_nil in Hnil; destruct Hnil as [_ Hnil];
      apply app_eq_nil in Hnil; destruct Hnil as [_ Hnil]; discriminate. }
  destruct Hs as (Hk & Hn & Ho & Hr).
  destruct (allocate_B_unselected s W H time1 Hk Hn Ho) as (e1 & H1 & Hk1 & Hn1 & Ho1 & Hr1).
  assert (Ho1' : _oldItems e1 <> []) by (rewrite Ho1; exact Ho).
  destruct (allocate_B_unselected e1 W H time2 Hk1 Hn1 Ho1') as (e2 & H2 & Hk2 & _).
  exists e1, e2. repeat split; try assumption. congruence.
Qed.

(** X8.  Transitions C and D shift the centre item at their very end; in
    overview mode there is none and the allocation throws, there at the
    latest and with the transition still pending.  [setItems]
    requests D in that way when the editor shows a submenu (a centre item
    and a parent angle), the call supplies no centre configuration, and one
    of the new configurations has the name and icon of the old centre. *)
Theorem submenu_to_overview_throws
        (e : Editor) (c : Item) (configs : list Config) (selectedIndex : option Z)
        (parentAngle : option Q) (frameTime : option Z) (W H time : Z) :
  _centerItem e = Some c -> _parentAngle e <> None ->
  existsb (fun cfg => sameMenu cfg (config c)) configs = true ->
  let s := setItems e configs selectedIndex None parentAngle frameTime in
  _upcomingTransition s = TRANSITION_D
  /\ exists e1,
       allocate s W H time = TypeError e1
       /\ _upcomingTransition e1 = TRANSITION_D /\ _restartAnimation e1 = true.
Proof.
  intros Hc Hp Hex s.
  assert (Hs : _upcomingTransition s = TRANSITION_D /\ _centerItem s = None
               /\ _restartAnimation s = true).
  { unfold s, setItems, classify. rewrite Hc, Hex.
    destruct (_parentAngle e) as [a|]; [|congruence].
    destruct (retire e frameTime) as [old last].
    destruct parentAngle; cbn; repeat split. }
  destruct Hs as (Hk & Hn & Hr). split; [exact Hk|].
  destruct (gridMetrics W H (length (_items s))) as [[[cc rc] ox] oy] eqn:Hgm.
  set (offsetX := option_map (fun a => inject_Z (sinRadius a)) (_transitionAngle s)).
  set (offsetY := option_map (fun a => inject_Z (- cosRadius a)) (_transitionAngle s)).
  destruct (shape_slideOld AV_get true (animationTime time) offsetX offsetY (_oldItems s))
    as (old' & Hold & _).
  destruct (slideOld AV_get true (animationTime time) offsetX offsetY (_oldItems s))
    as [o1|o1|] eqn:Hslide; cbn [stateOf] in Hold; try discriminate.
  - eexists. split.
    + unfold vfunc_size_allocate. rewrite Hk, Hn, Hr.
      unfold _inMenuOverviewMode. rewrite Hn, Hgm. cbn [transition].
      fold offsetX. fold offsetY. rewrite Hslide. reflexivity.
    + cbn. rewrite ?Hk, ?Hr. split; reflexivity.
  - eexists. split.
    + unfold vfunc_size_allocate. rewrite Hk, Hn, Hr.
      unfold _inMenuOverviewMode. rewrite Hn, Hgm. cbn [transition].
      fold offsetX. fold offsetY. rewrite Hslide. reflexivity.
    + cbn. rewrite ?Hk, ?Hr. split; reflexivity.
Qed.

End Throws.
(* ------------------------------------------------------------------- *)
(** *** Invariants of the reachable states *)
(* ------------------------------------------------------------------- *)

(** The calls and events the editor receives. *)
Inductive Event :=
| SetItems (configs : list Config) (selectedIndex : option Z)
           (centerConfig : option Config) (parentAngle : option Q)
           (frameTime : option Z)
| Allocate (W H frameTime : Z)
| Motion (x y : Q)
| Leave
| Drop (d : DropEvent)
| Add (c : Config) (position : Z)
| Remove (which : Z)
| DragBegin (i : nat)
| DragEnd (p : Place) (deleteData : bool)
| DragCancel (p : Place).

(** The place names an item of the editor. *)
Definition located (e : Editor) (p : Place) : bool :=
  match p with
  | Displayed i => (i <? length (_items e))%nat
  | Kept i => (i <? length (_oldItems e))%nat
  | Detached => true
  end.

(** What an item shows of itself: its state and whether it is revealed. *)
Definition face (it : Item) : ItemState * bool := (state it, reveal_child it).

(** Items and mode agree: revealed GRID items in the overview, revealed
    CHILD items around a revealed CENTER item in a menu; the old items are
    hidden. *)
Definition consistent (e : Editor) : Prop :=
  Forall (fun it => face it = (if _inMenuOverviewMode e then GRID else CHILD, true))
         (_items e)
  /\ match _centerItem e with
     | Some c => face c = (CENTER, true)
     | None => True
     end
  /\ Forall (fun it => reveal_child it = false) (_oldItems e).

Lemma Forall_through {A B} (f : A -> B) (P : B -> Prop) (l1 l2 : list A) :
  map f l2 = map f l1 ->
  Forall (fun it => P (f it)) l1 -> Forall (fun it => P (f it)) l2.
Proof.
  revert l2. induction l1 as [|a l IH]; intros [|b l2] Hs Hall; try discriminate.
  - constructor.
  - cbn [map] in Hs. assert (Hb : f b = f a) by congruence.
    assert (Hrest : map f l2 = map f l) by congruence.
    inversion Hall; subst.
    constructor; [rewrite Hb; assumption|now apply IH].
Qed.

Lemma Forall_firstn_skipn {A} (P : A -> Prop) i (l : list A) :
  Forall P l -> Forall P (firstn i l) /\ Forall P (skipn i l).
Proof.
  intros Hl. rewrite <- (firstn_skipn i l) in Hl. now apply Forall_app in Hl.
Qed.

Lemma Forall_spliceInsert {A} (P : A -> Prop) i x (l : list A) :
  P x -> Forall P l -> Forall P (spliceInsert i x l).
Proof.
  intros Hx Hl. unfold spliceInsert. apply Forall_app.
  destruct (Forall_firstn_skipn i Hl) as [Hf Hs].
  split; [exact Hf|constructor; assumption].
Qed.

Lemma Forall_spliceRemove {A} (P : A -> Prop) i (l : list A) :
  Forall P l -> Forall P (spliceRemove i l).
Proof.
  intros Hl. unfold spliceRemove. apply Forall_app.
  split; [apply (Forall_firstn_skipn i Hl)|apply (Forall_firstn_skipn (S i) Hl)].
Qed.

Lemma face_sensitize i items : map face (sensitize i items) = map face items.
Proof.
  revert i. induction items as [|a l IH]; intros [|i]; cbn; try reflexivity.
  now rewrite IH.
Qed.

Lemma face_desensitize i items : map face (desensitize i items) = map face items.
Proof.
  revert i. induction items as [|a l IH]; intros [|i]; cbn; try reflexivity.
  now rewrite IH.
Qed.

Lemma face_of_shape (l1 l2 : list Item) :
  map shape l2 = map shape l1 -> map face l2 = map face l1.
Proof.
  intros Hs.
  assert (E : forall l, map face l
                        = map (fun s : ItemState * Config * bool * bool * bool =>
                                 (fst (fst (fst (fst s))), snd (fst (fst s))))
                              (map shape l))
    by (intros l; rewrite map_map; reflexivity).
  now rewrite (E l1), (E l2), Hs.
Qed.

(** A state with the same mode and the same faces is as consistent. *)
Lemma consistent_faces (e e' : Editor) :
  map face (_items e') = map face (_items e) ->
  option_map face (_centerItem e') = option_map face (_centerItem e) ->
  map face (_oldItems e') = map face (_oldItems e) ->
  consistent e -> consistent e'.
Proof.
  intros Hi Hc Ho (Hitems & Hcenter & Hold).
  assert (Hmode : _inMenuOverviewMode e' = _inMenuOverviewMode e).
  { unfold _inMenuOverviewMode.
    destruct (_centerItem e), (_centerItem e'); try discriminate; reflexivity. }
  unfold consistent. rewrite Hmode. split; [|split].
  - exact (@Forall_through _ _ face
             (fun f => f = (if _inMenuOverviewMode e then GRID else CHILD, true))
             _ _ Hi Hitems).
  - destruct (_centerItem e) as [c|], (_centerItem e') as [c'|];
      cbn [option_map] in Hc; try discriminate; [|exact I].
    congruence.
  - exact (@Forall_through _ _ face (fun f => snd f = false) _ _ Ho Hold).
Qed.

Section Reachable.

Variable solver : list Utils.entry -> option Q -> list Q.
Variable AV_get : AnimatedValue -> Q -> JS.num.
Variable sinRadius cosRadius : Q -> Z.
Variable pointerAngle : Q -> Q -> Q.

(** The state an event leaves behind; a thrown [TypeError] leaves the state
    it was thrown in.  [None] where the model stops: at arithmetic on values
    that are not finite numbers, and at drag events of an item that is not
    where the event says. *)
Definition step (e : Editor) (ev : Event) : option Editor :=
  match ev with
  | SetItems configs selectedIndex centerConfig parentAngle frameTime =>
      Some (setItems e configs selectedIndex centerConfig parentAngle frameTime)
  | Allocate W H frameTime =>
      stateOf (vfunc_size_allocate solver AV_get sinRadius cosRadius e W H frameTime)
  | Motion x y => stateOf (motion solver pointerAngle e x y)
  | Leave => Some (leave e)
  | Drop d => Some (fst (fst (drop e d)))
  | Add c position => Some (add e c position)
  | Remove which => stateOf (remove e which)
  | DragBegin i =>
      if (i <? length (_items e))%nat then Some (dragBegin e i) else None
  | DragEnd p deleteData =>
      if located e p then stateOf (fst (dragEnd e p deleteData)) else None
  | DragCancel p =>
      if located e p then Some (dragCancel e p) else None
  end.

Fixpoint run (e : Editor) (events : list Event) : option Editor :=
  match events with
  | [] => Some e
  | ev :: rest =>
      match step e ev with
      | Some e' => run e' rest
      | None => None
      end
  end.

Lemma motion_keeps_items (e e' : Editor) (x y : Q) :
  stateOf (motion solver pointerAngle e x y) = Some e' ->
  _items e' = _items e /\ _centerItem e' = _centerItem e /\ _oldItems e' = _oldItems e.
Proof.
  unfold motion, motionRadial, motionGrid, motionFinish.
  repeat match goal with
         | |- context [match ?x with _ => _ end] =>
             match x with
             | context [match _ with _ => _ end] => fail 1
             | _ => destruct x
             end
         end; cbn [stateOf]; intros Hs; inversion Hs; repeat split.
Qed.

Lemma drop_keeps_items (e : Editor) (d : DropEvent) :
  _items (fst (fst (drop e d))) = _items e
  /\ _centerItem (fst (fst (drop e d))) = _centerItem e
  /\ _oldItems (fst (fst (drop e d))) = _oldItems e.
Proof.
  unfold drop.
  repeat match goal with
         | |- context [match ?x with _ => _ end] =>
             match x with
             | context [match _ with _ => _ end] => fail 1
             | _ => destruct x
             end
         end; repeat split.
Qed.

Lemma setItems_consistent (e : Editor) configs selectedIndex centerConfig parentAngle
      frameTime :
  consistent (setItems e configs selectedIndex centerConfig parentAngle frameTime).
Proof.
  assert (Hold : _oldItems (setItems e configs selectedIndex centerConfig parentAngle
                                     frameTime)
                 = fst (retire e frameTime)).
  { unfold setItems.
    destruct (classify e configs centerConfig parentAngle) as [kind a].
    destruct (retire e frameTime) as [old last]. reflexivity. }
  destruct (setItems_fields e configs selectedIndex centerConfig parentAngle frameTime)
    as (Hi & Hc & _).
  unfold consistent, _inMenuOverviewMode. rewrite Hi, Hc, Hold, retire_spec.
  cbn [fst]. split; [|split].
  - destruct centerConfig; cbn [option_map]; apply Forall_map, Forall_forall; reflexivity.
  - destruct centerConfig; cbn [option_map]; [reflexivity|exact I].
  - apply Forall_map, Forall_forall. reflexivity.
Qed.

Lemma remove_consistent (e e' : Editor) (which : Z) :
  consistent e -> stateOf (remove e which) = Some e' -> consistent e'.
Proof.
  intros Hinv Hstep. unfold remove in Hstep.
  destruct (nth_error (_items e) (spliceStart (length (_items e)) which));
    cbn [stateOf] in Hstep; inversion Hstep; subst e'; [|exact Hinv].
  destruct Hinv as (Hitems & Hcenter & Hold).
  unfold consistent, _inMenuOverviewMode in *.
  cbn [withItems _items _centerItem _oldItems].
  split; [now apply Forall_spliceRemove|]. split; assumption.
Qed.

Lemma release_consistent (e : Editor) (p : Place) (restart : bool) :
  consistent e -> consistent (release e p restart).
Proof.
  apply consistent_faces; cbn [release _items _centerItem _oldItems].
  - destruct p; [apply face_sensitize|reflexivity|reflexivity].
  - reflexivity.
  - destruct p; [reflexivity|apply face_sensitize|reflexivity].
Qed.

Lemma step_consistent (e e' : Editor) (ev : Event) :
  consistent e -> step e ev = Some e' -> consistent e'.
Proof.
  intros Hinv Hstep. destruct ev; cbn [step] in Hstep.
  - inversion Hstep; subst e'. apply setItems_consistent.
  - destruct (allocate_shapes solver AV_get sinRadius cosRadius e W H frameTime)
      as (e1 & Hst & Hsi & Hsc & Hso & _).
    rewrite Hst in Hstep. inversion Hstep; subst e1.
    apply (@consistent_faces e e'); [now apply face_of_shape| |now apply face_of_shape|exact Hinv].
    destruct (_centerItem e) as [c|], (_centerItem e') as [c'|];
      cbn [option_map] in *; try discriminate; [|reflexivity].
    unfold shape in Hsc. unfold face. congruence.
  - destruct (motion_keeps_items e x y Hstep) as (Hi & Hc & Ho).
    apply (@consistent_faces e e'); [now rewrite Hi|now rewrite Hc|now rewrite Ho|exact Hinv].
  - inversion Hstep; subst e'. exact Hinv.
  - inversion Hstep; subst e'. destruct (drop_keeps_items e d) as (Hi & Hc & Ho).
    apply (@consistent_faces e _); [now rewrite Hi|now rewrite Hc|now rewrite Ho|exact Hinv].
  - inversion Hstep; subst e'. destruct Hinv as (Hitems & Hcenter & Hold).
    unfold consistent, add, _inMenuOverviewMode in *.
    cbn [withItems _items _centerItem _oldItems].
    split; [|split; assumption].
    apply Forall_spliceInsert; [|exact Hitems].
    destruct (_centerItem e); reflexivity.
  - now apply (@remove_consistent e e' which).
  - destruct (i <? length (_items e))%nat; [|discriminate].
    inversion Hstep; subst e'.
    apply (@consistent_faces e _); cbn [dragBegin _items _centerItem _oldItems];
      [apply face_desensitize|reflexivity|reflexivity|exact Hinv].
  - destruct (located e p); [|discriminate]. unfold dragEnd in Hstep.
    destruct deleteData.
    + destruct (remove e (indexOf p)) as [e1|e1|] eqn:Hrem;
        cbn [fst stateOf] in Hstep; inversion Hstep; subst e'.
      * assert (H1 : consistent e1)
          by (apply (@remove_consistent e e1 (indexOf p) Hinv); rewrite Hrem; reflexivity).
        exact H1.
      * apply (@remove_consistent e e1 (indexOf p) Hinv). rewrite Hrem. reflexivity.
    + cbn [fst stateOf] in Hstep. inversion Hstep; subst e'.
      now apply release_consistent.
  - destruct (located e p); [|discriminate]. inversion Hstep; subst e'.
    now apply release_consistent.
Qed.

(** X9.  In every state the editor reaches from [_init] through [setItems],
    allocations, the drop-target events, [add], [remove] and the drag
    events, also after a thrown [TypeError], the items agree with the mode:
    in the overview every displayed item is a revealed GRID item, in a menu
    the centre item is a revealed CENTER item and every displayed item a
    revealed CHILD item; every old item is hidden. *)
Theorem reachable_consistent (events : list Event) (e : Editor) :
  run init events = Some e -> consistent e.
Proof.
  assert (Hgen : forall evs e0, consistent e0 -> run e0 evs = Some e -> consistent e).
  { induction evs as [|ev rest IH]; intros e0 H0 Hrun; cbn [run] in Hrun.
    - inversion Hrun; subst. exact H0.
    - destruct (step e0 ev) as [e1|] eqn:Hs; [|discriminate].
      apply (IH e1); [|exact Hrun]. now apply (@step_consistent e0 e1 ev). }
  apply Hgen. repeat split; constructor.
Qed.

End Reachable.
(* ------------------------------------------------------------------- *)
(** *** The drop index that 'motion' leaves in menu edit mode *)
(* ------------------------------------------------------------------- *)

Lemma wedge_in_range (items : list Item) (drag : option nat) (m : Q)
      (angles : list JS.num) (i : nat) :
  length angles = length items -> (i < length items)%nat ->
  exists r, wedge items drag m angles i = Some r
            /\ match r with Some k => (k <= length items)%nat | None => True end.
Proof.
  intros Hlen Hi. unfold wedge. rewrite Hlen.
  assert (Hnext : (S i mod length items < length items)%nat)
    by (apply Nat.mod_upper_bound; lia).
  destruct (nth_error items i) as [item|] eqn:Ei;
    [|apply nth_error_None in Ei; lia].
  destruct (nth_error items (S i mod length items)) as [nextItem|] eqn:En;
    [|apply nth_error_None in En; lia].
  destruct (element angles i) as [ws|]; [|now exists None].
  destruct (element angles (S i mod length items)) as [we|]; [|now exists None].
  match goal with
  | |- context [if ?c then Some (Some 0%nat) else _] => destruct c
  end; [exists (Some 0%nat); split; [reflexivity|lia]|].
  match goal with
  | |- context [if ?c then Some (Some (S i)) else _] => destruct c
  end; [exists (Some (S i)); split; [reflexivity|lia]|].
  now exists None.
Qed.

Lemma wedges_in_range (items : list Item) (drag : option nat) (m : Q)
      (angles : list JS.num) (indices : list nat) :
  length angles = length items ->
  Forall (fun i => (i < length items)%nat) indices ->
  exists r, wedges items drag m angles indices = Some r
            /\ match r with Some k => (k <= length items)%nat | None => True end.
Proof.
  intros Hlen. induction indices as [|i rest IH]; intros Hall; cbn [wedges].
  - now exists None.
  - inversion Hall as [|? ? Hi Hrest]; subst.
    destruct (@wedge_in_range items drag m angles i Hlen Hi) as (r & Hr & Hk).
    rewrite Hr. destruct r as [k|]; [now exists (Some k)|now apply IH].
Qed.

Lemma radialDropIndex_in_range (items : list Item) (drag : option nat) (m : Q)
      (angles : list JS.num) :
  length angles = length items ->
  exists r, radialDropIndex items drag m angles = Some r
            /\ match r with Some k => (k <= length items)%nat | None => True end.
Proof.
  intros Hlen. unfold radialDropIndex. rewrite Hlen.
  assert (Hseq : Forall (fun i => (i < length items)%nat) (seq 0 (length items))).
  { apply Forall_forall. intros i Hin. apply in_seq in Hin. lia. }
  destruct (length items) as [|[|[|n]]] eqn:En.
  - exists (Some 0%nat). split; [reflexivity|cbn; lia].
  - destruct drag; eexists; (split; [reflexivity|]);
      [cbn; lia|destruct (nearFirst m angles); cbn; lia].
  - destruct drag.
    + eexists. split; [reflexivity|]. destruct (nearFirst m angles); cbn; lia.
    + rewrite <- En in *. now apply wedges_in_range.
  - rewrite <- En in *.
    destruct drag; now apply wedges_in_range.
Qed.

Section EditMotion.

Variable solver : list Utils.entry -> option Q -> list Q.
Variable pointerAngle : Q -> Q -> Q.

(** X10.  In menu edit mode, with a solver that returns one angle per
    entry and a drag index that is the index of an item (or no drag), the
    'motion' handler never throws, whatever drop index the last event left:
    it leaves the items as they are and sets [_dropIndex] to [null] or to an
    index between 0 and [_items.length], a position [splice] can insert at.
    A pointer within [ItemSize[CENTER] / 2] of the centre gives [null]. *)
Theorem motion_edit_drop_index (e : Editor) (W H : Z) (x y : Q) :
  onePerEntry solver ->
  _inMenuOverviewMode e = false ->
  _width e = Some W -> _height e = Some H ->
  match _dragIndex e with Some g => (g < length (_items e))%nat | None => True end ->
  let dx := x - inject_half W in
  let dy := y - inject_half H in
  exists e',
    motion solver pointerAngle e x y = Normal e'
    /\ _items e' = _items e /\ _dragIndex e' = _dragIndex e
    /\ match _dropIndex e' with
       | Some d => (d <= length (_items e))%nat
       | None => True
       end
    /\ (dx * dx + dy * dy
        <= inject_half (ItemSize CENTER) * inject_half (ItemSize CENTER) ->
        _dropIndex e' = None).
Proof.
  intros Hone Hmode HW HH Hdrag dx dy.
  unfold motion. rewrite Hmode, HW, HH. unfold motionRadial. fold dx. fold dy.
  set (e0 := withDrop e (_dropRow e) (_dropColumn e) None).
  assert (Hlen : length (_computeItemAngles solver e0) = length (_items e0)).
  { rewrite (@length_computeItemAngles solver e0 Hone); cbn [e0 withDrop _dragIndex _dropIndex _items].
    - destruct (_dragIndex e); reflexivity.
    - exact Hdrag.
    - exact I. }
  destruct (JS.ltb (inject_half (ItemSize CENTER) * inject_half (ItemSize CENTER))
                   (dx * dx + dy * dy)) eqn:Hfar.
  - destruct (@radialDropIndex_in_range (_items e0) (_dragIndex e0)
                                        (pointerAngle dx dy) _ Hlen) as (r & Hr & Hk).
    rewrite Hr. eexists. split; [reflexivity|].
    match goal with
    | |- context [motionFinish e ?a] => destruct (motionFinish_drop e a) as (Hi & _)
    end.
    rewrite Hi. cbn [withDrop _dropIndex].
    split; [unfold motionFinish; match goal with |- context [if ?c then _ else _] => destruct c end; reflexivity|].
    split; [unfold motionFinish; match goal with |- context [if ?c then _ else _] => destruct c end; reflexivity|].
    split; [exact Hk|].
    intros Hnear. apply JSFacts.ltb_lt in Hfar. exfalso.
    apply (Qlt_not_le _ _ Hfar Hnear).
  - eexists. split; [reflexivity|].
    match goal with
    | |- context [motionFinish e ?a] => destruct (motionFinish_drop e a) as (Hi & _)
    end.
    rewrite Hi. cbn [e0 withDrop _dropIndex].
    split; [unfold motionFinish; match goal with |- context [if ?c then _ else _] => destruct c end; reflexivity|].
    split; [unfold motionFinish; match goal with |- context [if ?c then _ else _] => destruct c end; reflexivity|].
    split; [exact I|reflexivity].
Qed.

End EditMotion.
(* ------------------------------------------------------------------- *)
(** *** What a drop emits *)
(* ------------------------------------------------------------------- *)

Definition isNotification (s : Signal) : bool :=
  match s with
  | Notification _ => true
  | _ => false
  end.

Definition nonEmpty (line : string) : bool := negb (String.eqb line EmptyString).

Lemma In_dropLines (s : Signal) (ls : list string) (d : nat) : forall k,
  In s (dropLines k ls d)
  <-> exists i line, nth_error ls i = Some line /\ line <> EmptyString
                     /\ s = DropData line (d + (k + i)).
Proof.
  induction ls as [|l rest IH]; intros k; cbn [dropLines].
  - split; [intros []|]. intros (i & line & Hn & _). destruct i; discriminate.
  - rewrite in_app_iff, IH. split.
    + intros [Hin|(i & line & Hn & Hne & Hs)].
      * destruct (String.eqb_spec l EmptyString) as [|Hne]; [destruct Hin|].
        destruct Hin as [Hs|[]]. exists 0%nat, l.
        rewrite Nat.add_0_r. repeat split; [exact Hne|now symmetry].
      * exists (S i), line. repeat split; [exact Hn|exact Hne|].
        now rewrite Nat.add_succ_r.
    + intros ([|i] & line & Hn & Hne & Hs).
      * left. cbn [nth_error] in Hn. inversion Hn; subst l.
        destruct (String.eqb_spec line EmptyString) as [|_]; [contradiction|].
        left. now rewrite Hs, Nat.add_0_r.
      * right. exists i, line. repeat split; [exact Hn|exact Hne|].
        now rewrite Hs, Nat.add_succ_r.
Qed.

Lemma length_dropLines (ls : list string) (d : nat) : forall k,
  length (dropLines k ls d) = length (filter nonEmpty ls).
Proof.
  induction ls as [|l rest IH]; intros k; cbn [dropLines filter]; [reflexivity|].
  rewrite length_app, IH. unfold nonEmpty at 2.
  destruct (String.eqb l EmptyString); reflexivity.
Qed.

Lemma dropLines_no_notification (ls : list string) (d : nat) : forall k,
  existsb isNotification (dropLines k ls d) = false.
Proof.
  induction ls as [|l rest IH]; intros k; cbn [dropLines]; [reflexivity|].
  rewrite existsb_app, IH. destruct (String.eqb l EmptyString); reflexivity.
Qed.

(** The index a drop works with: [_dropIndex], or [_lastDropIndex] when
    'leave' has reset it. *)
Definition pendingIndex (e : Editor) : option nat :=
  match _dropIndex e with
  | Some k => Some k
  | None => _lastDropIndex e
  end.

(** X11.  The 'drop' handler does one of three things.  It throws, before
    it has emitted anything and with the restored drop index still
    pending: exactly for an internal drag with a drop index whose string
    [JSON.parse] rejects or, in overview mode, whose item type the registry
    does not know.  Or it accepts the drop and emits only 'drop-item' /
    'drop-data' signals.  Or it rejects it and emits at most one
    notification and nothing else.  When it returns, no drop index is
    pending; without a drop index it rejects silently; in the overview it
    accepts nothing but an internal drag of an item of class MENU, for
    which it emits one 'drop-item'. *)
Theorem drop_accepts_or_notifies (e : Editor) (d : DropEvent) (p : Parsed) :
  let throws :=
    (match pendingIndex e with Some _ => true | None => false end
     && internalDrag d
     && match p with
        | NotJSON => true
        | UnknownType => _inMenuOverviewMode e
        | KnownType => false
        end)%bool in
  match dropHandler e d p with
  | Thrown e' =>
      throws = true
      /\ _dropIndex e' = pendingIndex e /\ _lastDropIndex e' = _lastDropIndex e
      /\ _dropRow e' = _dropRow e /\ _dropColumn e' = _dropColumn e
      /\ _items e' = _items e
  | Returned r =>
      throws = false
      /\ _dropIndex (fst (fst r)) = None
      /\ (if accepted r
          then existsb isNotification (emitted r) = false
          else forallb isNotification (emitted r) = true
               /\ (length (emitted r) <= 1)%nat)
      /\ match pendingIndex e with
         | None => accepted r = false /\ emitted r = []
         | Some k =>
             _inMenuOverviewMode e = true ->
             accepted r = (internalDrag d && isMenuClass d)%bool
             /\ (accepted r = true -> emitted r = [DropItem (what d) k])
         end
  end.
Proof.
  unfold dropHandler, drop, emitted, accepted, _inMenuOverviewMode, pendingIndex.
  destruct e; cbn [_dropIndex _lastDropIndex _centerItem _dropRow _dropColumn _items].
  destruct _dropIndex0 as [k|]; [|destruct _lastDropIndex0 as [k|]];
    cbn [withDrop _dropIndex _centerItem _lastDropIndex _dropRow _dropColumn _items];
    destruct (internalDrag d), p, _centerItem0, (isMenuClass d), (uriList d);
    cbn [fst snd andb negb existsb forallb isNotification orb length];
    rewrite ?dropLines_no_notification;
    repeat split; try lia; try discriminate; intros; try discriminate; reflexivity.
Qed.

(** X12.  A drop of a URI list in menu edit mode is accepted and emits one
    'drop-data' for every non-empty line: the line at position [i] of the
    list is emitted with the index [_dropIndex + i], empty lines included
    in the count of positions. *)
Theorem drop_uri_list (e : Editor) (d : DropEvent) (k : nat) :
  _inMenuOverviewMode e = false -> _dropIndex e = Some k ->
  internalDrag d = false -> uriList d = true ->
  accepted (drop e d) = true
  /\ length (emitted (drop e d)) = length (filter nonEmpty (lines d))
  /\ forall s, In s (emitted (drop e d))
               <-> exists i line, nth_error (lines d) i = Some line
                                  /\ line <> EmptyString
                                  /\ s = DropData line (k + i).
Proof.
  intros Hmode Hk Hint Huri.
  assert (Hdrop : (emitted (drop e d), accepted (drop e d))
                  = (dropLines 0 (lines d) k, true)).
  { rewrite (@drop_at_index e d k (or_introl Hk)). unfold dropResult.
    now rewrite Hint, Hmode, Huri. }
  inversion Hdrop as [[Hem Hacc]]. rewrite Hacc, Hem.
  split; [reflexivity|]. split; [apply length_dropLines|].
  intros s. exact (In_dropLines s (lines d) k 0).
Qed.
(* ------------------------------------------------------------------- *)
(** *** The grid of the overview: requested height and spacing *)
(* ------------------------------------------------------------------- *)

Lemma gridMetrics_wide (W H : Z) (n : nat) :
  (ItemSize GRID <= W)%Z ->
  let fit := (W / ItemSize GRID)%Z in
  let rows := ceilDiv (Z.of_nat n) fit in
  let columns := if (rows =? 1)%Z then Z.of_nat n else fit in
  gridMetrics W H n
  = (Some columns, Some rows,
     Some (inject_half (W - columns * ItemSize GRID)),
     Some (inject_half (H - rows * ItemSize GRID)))
  /\ (0 < fit)%Z
  /\ ((rows - 1) * fit < Z.of_nat n <= rows * fit)%Z
  /\ forall i, (i < n)%nat ->
               (0 <= Z.of_nat i / columns <= rows - 1)%Z
               /\ (0 <= Z.rem (Z.of_nat i) columns < columns)%Z
               /\ Z.of_nat i
                  = (columns * (Z.of_nat i / columns) + Z.rem (Z.of_nat i) columns)%Z.
Proof.
  intros HW fit rows columns.
  assert (Hfit : (0 < fit)%Z).
  { subst fit. change (ItemSize GRID) with 130%Z in *. apply Z.div_str_pos. lia. }
  pose proof (@ceilDiv_spec (Z.of_nat n) _ Hfit) as Hrows. fold rows in Hrows.
  split; [|split; [exact Hfit|split; [exact Hrows|]]].
  - unfold gridMetrics. fold fit. destruct (Z.eqb_spec fit 0); [lia|]. reflexivity.
  - intros i Hi.
    assert (Hcols : (0 < columns)%Z).
    { subst columns. destruct (rows =? 1)%Z; lia. }
    rewrite Z.rem_mod_nonneg by lia.
    pose proof (Z.div_mod (Z.of_nat i) columns ltac:(lia)) as Hdm.
    pose proof (Z.mod_pos_bound (Z.of_nat i) columns Hcols) as Hmod.
    pose proof (Z.div_pos (Z.of_nat i) columns ltac:(lia) Hcols) as Hdiv.
    split; [|split; [exact Hmod|exact Hdm]].
    split; [exact Hdiv|].
    subst columns. destruct (Z.eqb_spec rows 1) as [E|E].
    + rewrite Z.div_small by lia. lia.
    + nia.
Qed.

Section Grid.

Variable solver : list Utils.entry -> option Q -> list Q.
Variable AV_get : AnimatedValue -> Q -> JS.num.
Variable sinRadius cosRadius : Q -> Z.

Local Abbreviation allocate := (vfunc_size_allocate solver AV_get sinRadius cosRadius).

(** Where an allocation of the overview sends the item at index [i]. *)
Lemma overview_targets (e : Editor) (W H frameTime : Z) :
  _inMenuOverviewMode e = true ->
  exists e',
    stateOf (allocate e W H frameTime) = Some e'
    /\ length (_items e') = length (_items e)
    /\ (_columnCount e', _rowCount e', _gridOffsetX e', _gridOffsetY e')
       = gridMetrics W H (length (_items e))
    /\ forall i it,
         nth_error (_items e') i = Some it ->
         (i < length (_items e))%nat
         /\ target it = Some (gridPosition (gridMetrics W H (length (_items e)))
                                           (_dropRow e) (_dropColumn e) i).
Proof.
  intros Hmode.
  destruct (allocate_targets solver AV_get sinRadius cosRadius e W H frameTime)
    as (e' & Hst & Hitems & _ & _ & _ & _ & _ & _ & Hcfg & _ & Hmetrics).
  exists e'. split; [exact Hst|].
  assert (Hlen : length (_items e') = length (_items e)).
  { rewrite <- (length_map config (_items e')), Hcfg. apply length_map. }
  split; [exact Hlen|]. split; [now apply Hmetrics|].
  intros i it Hi.
  assert (Hlt : (i < length (_items e))%nat).
  { rewrite <- Hlen. apply nth_error_Some. now rewrite Hi. }
  split; [exact Hlt|].
  assert (Hmap : nth_error (map target (_items e')) i = Some (target it))
    by (rewrite nth_error_map, Hi; reflexivity).
  rewrite Hitems in Hmap. unfold layoutTargets in Hmap.
  rewrite Hmode in Hmap. cbn [fst] in Hmap.
  rewrite nth_error_map, nth_error_positions in Hmap.
  destruct (nth_error (_items e) i) as [it0|]; [|discriminate].
  cbn [option_map Nat.add] in Hmap. now inversion Hmap.
Qed.

(** X13.  In the overview, the height [vfunc_measure] requests for a width
    of at least one cell is the height of the grid that
    [vfunc_size_allocate] lays out for that width: allocated that height,
    the row count is the requested height divided by the cell size, the
    grid starts at the top edge, and every item is placed within the
    requested height. *)
Theorem measured_height_fits (e : Editor) (W frameTime : Z) :
  _inMenuOverviewMode e = true -> (ItemSize GRID <= W)%Z ->
  exists h rows e' offsetY,
    vfunc_measure e VERTICAL W = Some (h, h, -1, -1)%Z
    /\ h = (rows * ItemSize GRID)%Z /\ (0 <= rows)%Z
    /\ stateOf (allocate e W h frameTime) = Some e'
    /\ _rowCount e' = Some rows
    /\ _gridOffsetY e' = Some offsetY /\ offsetY == 0
    /\ forall it, In it (_items e') ->
                  exists x y, target it = Some (x, Some y)
                              /\ 0 <= y <= inject_Z (h - ItemSize GRID).
Proof.
  intros Hmode HW.
  set (n := length (_items e)).
  set (rows := ceilDiv (Z.of_nat n) (W / ItemSize GRID)).
  set (h := (rows * ItemSize GRID)%Z).
  destruct (@gridMetrics_wide W h n HW) as (Hgm & Hfit & Hrows & Hcell).
  fold rows in Hgm, Hrows, Hcell.
  destruct (@overview_targets e W h frameTime Hmode) as (e' & Hst & Hlen & Hm & Ht).
  fold n in Hm, Ht. rewrite Hgm in Hm, Ht. inversion Hm as [[Hc Hr Hx Hy]].
  exists h, rows, e', (inject_half (h - rows * ItemSize GRID)).
  assert (Hoff : inject_half (h - rows * ItemSize GRID) == 0).
  { subst h. rewrite Z.sub_diag. reflexivity. }
  split.
  { unfold vfunc_measure. rewrite Hmode. fold n.
    destruct (Z.eqb_spec (W / ItemSize GRID) 0); [lia|]. reflexivity. }
  split; [reflexivity|]. split; [nia|].
  split; [exact Hst|]. split; [exact Hr|]. split; [exact Hy|].
  split; [exact Hoff|].
  intros it Hin. apply In_nth_error in Hin. destruct Hin as [i Hi].
  destruct (Ht i it Hi) as [Hlt Htarget].
  destruct (Hcell i Hlt) as ((Hrow0 & Hrow1) & _).
  rewrite Htarget. unfold gridPosition. eexists. eexists. split; [reflexivity|].
  rewrite Hoff, Qplus_0_l. rewrite <- (Zle_Qle 0), <- Zle_Qle.
  subst h. change (ItemSize GRID) with 130%Z in *. split; lia.
Qed.

Lemma dropOffset_keeps_order (dropRow dropColumn : option Z) (row c1 c2 : Z) :
  (c1 < c2)%Z ->
  (c1 * ItemSize GRID + dropOffset dropRow dropColumn row c1 + 115
   <= c2 * ItemSize GRID + dropOffset dropRow dropColumn row c2)%Z.
Proof.
  intros Hlt. unfold dropOffset. change (ItemSize GRID) with 130%Z.
  destruct (optZEqb dropRow row); [|lia].
  destruct dropColumn as [dc|];
    repeat match goal with
           | |- context [(?a <? ?b)%Z] => destruct (Z.ltb_spec a b)
           end; lia.
Qed.

(** X14.  In the overview, for a width of at least one cell, the items
    keep their order and their distance whatever drop gap is shown: of two
    items, the later one is placed either in a lower row, a multiple of the
    cell size further down, or in the same row at least 115 pixels further
    right (the cell size less the 15 pixels neighbours move together). *)
Theorem grid_items_keep_apart (e : Editor) (W H frameTime : Z) :
  _inMenuOverviewMode e = true -> (ItemSize GRID <= W)%Z ->
  exists e',
    stateOf (allocate e W H frameTime) = Some e'
    /\ forall i j a b,
         (i < j)%nat ->
         nth_error (_items e') i = Some a -> nth_error (_items e') j = Some b ->
         exists xa ya xb yb,
           target a = Some (Some xa, Some ya) /\ target b = Some (Some xb, Some yb)
           /\ ((ya == yb /\ xa + 115 <= xb)
               \/ ya + inject_Z (ItemSize GRID) <= yb).
Proof.
  intros Hmode HW.
  set (n := length (_items e)).
  destruct (@gridMetrics_wide W H n HW) as (Hgm & Hfit & Hrows & Hcell).
  destruct (@overview_targets e W H frameTime Hmode) as (e' & Hst & Hlen & Hm & Ht).
  fold n in Hm, Ht. rewrite Hgm in Ht.
  exists e'. split; [exact Hst|].
  intros i j a b Hij Ha Hb.
  destruct (Ht i a Ha) as [Hi Hta]. destruct (Ht j b Hb) as [Hj Htb].
  destruct (Hcell i Hi) as ((Hri0 & Hri1) & (Hci0 & Hci1) & Hdi).
  destruct (Hcell j Hj) as ((Hrj0 & Hrj1) & (Hcj0 & Hcj1) & Hdj).
  rewrite Hta, Htb. unfold gridPosition.
  do 4 eexists. split; [reflexivity|]. split; [reflexivity|].
  set (columns := if (ceilDiv (Z.of_nat n) (W / ItemSize GRID) =? 1)%Z
                  then Z.of_nat n else (W / ItemSize GRID)%Z) in *.
  set (ri := (Z.of_nat i / columns)%Z) in *.
  set (rj := (Z.of_nat j / columns)%Z) in *.
  set (ci := Z.rem (Z.of_nat i) columns) in *.
  set (cj := Z.rem (Z.of_nat j) columns) in *.
  assert (Hle : (ri <= rj)%Z) by nia.
  destruct (Z.eq_dec ri rj) as [E|E].
  - left. rewrite E. split; [reflexivity|].
    assert (Hc : (ci < cj)%Z) by nia.
    pose proof (@dropOffset_keeps_order (_dropRow e) (_dropColumn e) rj _ _ Hc) as Hz.
    rewrite Zle_Qle, !inject_Z_plus in Hz. change (inject_Z 115) with 115 in Hz.
    lra.
  - right. change (ItemSize GRID) with 130%Z.
    assert (Hz : (ri * 130 + 130 <= rj * 130)%Z) by lia.
    rewrite Zle_Qle, !inject_Z_plus in Hz. lra.
Qed.

End Grid.
(* ------------------------------------------------------------------- *)
(** *** The theorems above at concrete inputs *)
(* ------------------------------------------------------------------- *)

Local Abbreviation allocate0 := (vfunc_size_allocate Utils.computeItemAngles arrived flat flat).

Lemma drag_and_drop_moves_witness :
  let e := editing ["a"; "b"; "c"]%string in
  nth_error (_items e) 0 = Some (_createItem (plain "a") CHILD)
  /\ (3 <= length (_items e))%nat
  /\ exists e2,
       dragEnd (add e (plain "a") 3) (Displayed 0) true = (Normal e2, Some 0%Z)
       /\ names (_items e2) = ["b"; "c"; "a"]%string.
Proof.
  intros e.
  assert (Hit : nth_error (_items e) 0 = Some (_createItem (plain "a") CHILD))
    by reflexivity.
  assert (Hd : (3 <= length (_items e))%nat) by (vm_compute; lia).
  split; [exact Hit|]. split; [exact Hd|].
  destruct (@drag_and_drop_moves e 0 3 _ Hit Hd) as (_ & e2 & Hend & Hmap & _).
  exists e2. split; [exact Hend|].
  unfold names. rewrite <- (map_map config name), Hmap. reflexivity.
Defined.

Lemma dragEnd_item_gone_witness :
  let e := editing ["a"; "b"]%string in
  (forall i, Detached <> Displayed i)
  /\ exists e',
       dragEnd e Detached true = (Normal e', Some (-1)%Z)
       /\ _items e' = removelast (_items e)
       /\ _dragIndex e' = None.
Proof.
  intros e.
  assert (Hp : forall i, Detached <> Displayed i) by (intros i; discriminate).
  split; [exact Hp|].
  apply (proj1 (@dragEnd_item_gone e Detached Hp)). discriminate.
Defined.

Lemma drag_begin_undone_witness :
  let e := editing ["a"; "b"]%string in
  let it := _createItem (plain "b") CHILD in
  nth_error (_items e) 1 = Some it /\ sensitive it = true
  /\ _items (dragCancel (dragBegin e 1) (Displayed 1)) = _items e.
Proof.
  intros e it.
  assert (Hit : nth_error (_items e) 1 = Some it) by reflexivity.
  assert (Hs : sensitive it = true) by reflexivity.
  split; [exact Hit|]. split; [exact Hs|].
  exact (proj1 (@drag_begin_undone e 1 it Hit Hs)).
Defined.

Lemma allocate_again_witness :
  let e1 := allocated fiveMenus 520 520 0 in
  allocate0 fiveMenus 520 520 0 = Normal e1
  /\ _upcomingTransition e1 = NONE
  /\ allocate0 e1 520 520 1000 = Normal e1.
Proof.
  intros e1.
  assert (Hrun : allocate0 fiveMenus 520 520 0 = Normal e1) by (vm_compute; reflexivity).
  split; [exact Hrun|].
  destruct (@allocate_again Utils.computeItemAngles arrived flat flat
                            fiveMenus e1 520 520 0 Hrun)
    as (Hk & _ & Hagain).
  split; [exact Hk|apply Hagain].
Defined.

Lemma overview_without_selection_throws_witness :
  let e := editing ["a"]%string in
  let s := setItems e [plain "menu"] None None None None in
  _centerItem e <> None /\ _parentAngle e = None
  /\ select [plain "menu"] None None = None
  /\ exists e1 e2,
       allocate0 s 520 520 0 = TypeError e1
       /\ _upcomingTransition e1 = TRANSITION_B /\ _restartAnimation e1 = true
       /\ allocate0 e1 520 520 1000 = TypeError e2
       /\ _upcomingTransition e2 = TRANSITION_B.
Proof.
  intros e s.
  assert (Hc : _centerItem e <> None) by discriminate.
  split; [exact Hc|]. split; [reflexivity|]. split; [reflexivity|].
  exact (@overview_without_selection_throws Utils.computeItemAngles arrived flat flat
           e [plain "menu"] None None None 520 520 0 1000 Hc eq_refl eq_refl).
Defined.

(** The submenu "sub", whose parent lies at 90 degrees. *)
Definition inSubmenu : Editor :=
  setItems init [plain "a"] None (Some (plain "sub")) (Some 90) None.

Lemma submenu_to_overview_throws_witness :
  let c := _createItem (plain "sub") CENTER in
  let configs := [plain "sub"; plain "x"] in
  _centerItem inSubmenu = Some c /\ _parentAngle inSubmenu <> None
  /\ existsb (fun cfg => sameMenu cfg (config c)) configs = true
  /\ _upcomingTransition (setItems inSubmenu configs None None None None) = TRANSITION_D.
Proof.
  intros c configs.
  assert (Hp : _parentAngle inSubmenu <> None) by discriminate.
  split; [reflexivity|]. split; [exact Hp|]. split; [reflexivity|].
  exact (proj1 (@submenu_to_overview_throws Utils.computeItemAngles arrived flat flat
                  inSubmenu c configs None None None 520 520 0
                  eq_refl Hp eq_refl)).
Defined.

Definition sampleEvents : list Event :=
  [SetItems [plain "a"; plain "b"] None (Some (plain "menu")) None None;
   Allocate 520 520 0;
   Add (plain "c") 1;
   DragBegin 0;
   SetItems [plain "menu"] (Some 0%Z) None None (Some 1000%Z);
   DragCancel (Kept 0);
   Allocate 520 520 2000].

Lemma reachable_consistent_witness :
  exists e,
    run Utils.computeItemAngles arrived flat flat pointerBelow init sampleEvents = Some e
    /\ consistent e.
Proof.
  eexists. split; [vm_compute; reflexivity|].
  apply (@reachable_consistent Utils.computeItemAngles arrived flat flat pointerBelow
                               sampleEvents).
  vm_compute. reflexivity.
Defined.

Lemma motion_edit_drop_index_witness :
  let e := allocated (editing ["a"; "b"; "c"]%string) 520 520 0 in
  onePerEntry Utils.computeItemAngles
  /\ _inMenuOverviewMode e = false
  /\ _width e = Some 520%Z /\ _height e = Some 520%Z
  /\ match _dragIndex e with Some g => (g < length (_items e))%nat | None => True end
  /\ exists e',
       motion Utils.computeItemAngles pointerBelow e 260 500 = Normal e'
       /\ _items e' = _items e.
Proof.
  intros e.
  assert (Hone : onePerEntry Utils.computeItemAngles)
    by exact UtilsFacts.computeItemAngles_length.
  split; [exact Hone|]. split; [reflexivity|]. split; [reflexivity|].
  split; [reflexivity|]. split; [exact I|].
  destruct (@motion_edit_drop_index Utils.computeItemAngles pointerBelow
              e 520 520 260 500 Hone eq_refl eq_refl eq_refl I)
    as (e' & Hm & Hitems & _).
  exists e'. split; [exact Hm|exact Hitems].
Defined.

Definition uriDrop : DropEvent :=
  {| what := "file:///a file:///b"; internalDrag := false; isMenuClass := false;
     uriList := true; lines := ["file:///a"; EmptyString; "file:///b"]%string |}.

(** An internal drag whose string is no JSON. *)
Definition brokenDrop : DropEvent :=
  {| what := "hello"; internalDrag := true; isMenuClass := false;
     uriList := false; lines := ["hello"%string] |}.

Lemma drop_accepts_or_notifies_witness :
  let e := dragging fiveMenus None (Some 2%nat) in
  (exists e', dropHandler e brokenDrop NotJSON = Thrown e'
              /\ _dropIndex e' = Some 2%nat)
  /\ (exists r, dropHandler e uriDrop KnownType = Returned r
                /\ _dropIndex (fst (fst r)) = None /\ accepted r = false).
Proof.
  intros e. split.
  - pose proof (drop_accepts_or_notifies e brokenDrop NotJSON) as H.
    cbv zeta in H.
    destruct (dropHandler e brokenDrop NotJSON) as [r|e'] eqn:E; [discriminate E|].
    exists e'. split; [reflexivity|]. exact (proj1 (proj2 H)).
  - pose proof (drop_accepts_or_notifies e uriDrop KnownType) as H.
    cbv zeta in H.
    destruct (dropHandler e uriDrop KnownType) as [r|e'] eqn:E; [|discriminate E].
    exists r. split; [reflexivity|].
    destruct H as (_ & Hnone & _ & Hover).
    split; [exact Hnone|]. exact (proj1 (Hover eq_refl)).
Defined.

Lemma drop_uri_list_witness :
  let e := dragging (editing ["a"; "b"]%string) None (Some 1%nat) in
  _inMenuOverviewMode e = false /\ _dropIndex e = Some 1%nat
  /\ internalDrag uriDrop = false /\ uriList uriDrop = true
  /\ accepted (drop e uriDrop) = true
  /\ (In (DropData "file:///b" 3) (emitted (drop e uriDrop))
      <-> exists i line, nth_error (lines uriDrop) i = Some line
                         /\ line <> EmptyString
                         /\ DropData "file:///b" 3 = DropData line (1 + i)).
Proof.
  intros e.
  split; [reflexivity|]. split; [reflexivity|]. split; [reflexivity|].
  split; [reflexivity|].
  destruct (@drop_uri_list e uriDrop 1 eq_refl eq_refl eq_refl eq_refl)
    as (Hacc & _ & Hin).
  split; [exact Hacc|apply Hin].
Defined.

Lemma measured_height_fits_witness :
  _inMenuOverviewMode fiveMenus = true /\ (ItemSize GRID <= 520)%Z
  /\ exists h rows,
       vfunc_measure fiveMenus VERTICAL 520 = Some (h, h, -1, -1)%Z
       /\ h = (rows * ItemSize GRID)%Z.
Proof.
  assert (HW : (ItemSize GRID <= 520)%Z) by (vm_compute; discriminate).
  split; [reflexivity|]. split; [exact HW|].
  destruct (@measured_height_fits Utils.computeItemAngles arrived flat flat
                                  fiveMenus 520 0 eq_refl HW)
    as (h & rows & _ & _ & Hm & Hh & _).
  exists h, rows. split; [exact Hm|exact Hh].
Defined.

Lemma grid_items_keep_apart_witness :
  let e := dragging fiveMenus None (Some 1%nat) in
  _inMenuOverviewMode e = true /\ (ItemSize GRID <= 520)%Z
  /\ exists e', stateOf (allocate0 e 520 520 0) = Some e'.
Proof.
  intros e.
  assert (HW : (ItemSize GRID <= 520)%Z) by (vm_compute; discriminate).
  split; [reflexivity|]. split; [exact HW|].
  destruct (@grid_items_keep_apart Utils.computeItemAngles arrived flat flat
                                   e 520 520 0 eq_refl HW)
    as (e' & Hst & _).
  exists e'. exact Hst.
Defined.


End MenuEditorMore.

(* ===================================================================== *)
(** ** The shortcut grab: properties *)
(* ===================================================================== *)

Module ShortcutLabelFacts.
Import ShortcutLabel.

(** What ends a grab without a selection: Escape, a click, or the loss of
    the focus. *)
Inductive Cancel := ByEscape | ByClick | ByFocus.

Definition cancelled (doFullGrab : bool) (s : State) (c : Cancel) : State :=
  match c with
  | ByEscape => fst (keyPressed doFullGrab s Escape)
  | ByClick => pressed doFullGrab s
  | ByFocus => focusLeave doFullGrab s
  end.

(** Key presses, one after the other. *)
Fixpoint presses (doFullGrab : bool) (s : State) (keys : list Key) : State :=
  match keys with
  | [] => s
  | k :: rest => presses doFullGrab (fst (keyPressed doFullGrab s k)) rest
  end.

Definition invalid (k : Key) : bool :=
  match k with
  | Other false _ => true
  | _ => false
  end.

Lemma presses_invalid (doFullGrab : bool) (keys : list Key) : forall s,
  forallb invalid keys = true -> presses doFullGrab s keys = s.
Proof.
  induction keys as [|k rest IH]; intros s Hk; cbn [presses]; [reflexivity|].
  cbn [forallb] in Hk. apply andb_true_iff in Hk. destruct Hk as [Hinv Hrest].
  destruct k as [| |[|] name]; try discriminate.
  unfold keyPressed. destruct (selected s); cbn [fst]; now apply IH.
Qed.

(** X15.  A grab that is cancelled leaves no trace: after the activation of
    the selected row, any number of keys that are no valid accelerators,
    and then Escape, a click or the loss of the focus, the label shows the
    accelerator it showed before, with the text 'Not Bound' for an empty
    one; [onSelect] was not called; the row is unselected; and with a full
    grab the system shortcuts are restored. *)
Theorem cancelled_grab_restores (doFullGrab : bool) (s : State) (keys : list Key)
        (c : Cancel) :
  selected s = true -> forallb invalid keys = true ->
  let s' := cancelled doFullGrab (presses doFullGrab (rowActivated doFullGrab s) keys) c in
  accelerator s' = accelerator s
  /\ disabled_text s' = NOT_BOUND
  /\ selections s' = selections s
  /\ selected s' = false
  /\ inhibited s' = (if doFullGrab then false else inhibited s).
Proof.
  intros Hsel Hkeys s'. subst s'. rewrite presses_invalid by exact Hkeys.
  destruct c; unfold cancelled, focusLeave, pressed, keyPressed, rowActivated;
    cbn [grabKeyboard selected]; rewrite Hsel; cbn; destruct doFullGrab; repeat split.
Qed.

(** X16.  A grab that ends with a selection reports what the label then
    shows: BackSpace or a valid accelerator, pressed after the activation
    of the selected row and any number of keys that are no valid
    accelerators, calls [onSelect] exactly once, with the accelerator the
    label shows afterwards (the empty one for BackSpace); the grab is over,
    so that further keys are not consumed and change nothing. *)
Theorem selecting_grab_reports (doFullGrab : bool) (s : State) (keys : list Key)
        (k : Key) :
  selected s = true -> forallb invalid keys = true ->
  k <> Escape -> invalid k = false ->
  let s' := fst (keyPressed doFullGrab
                            (presses doFullGrab (rowActivated doFullGrab s) keys) k) in
  selections s' = selections s ++ [accelerator s']
  /\ accelerator s' = match k with Other _ name => name | _ => EmptyString end
  /\ disabled_text s' = NOT_BOUND /\ selected s' = false
  /\ inhibited s' = (if doFullGrab then false else inhibited s)
  /\ forall later, presses doFullGrab s' later = s'
                   /\ Forall (fun key => snd (keyPressed doFullGrab s' key) = false) later.
Proof.
  intros Hsel Hkeys Hesc Hvalid s'. subst s'. rewrite presses_invalid by exact Hkeys.
  assert (Hidle : forall t later, selected t = false ->
                    presses doFullGrab t later = t
                    /\ Forall (fun key => snd (keyPressed doFullGrab t key) = false) later).
  { intros t later Ht. induction later as [|key rest [IH1 IH2]]; cbn [presses].
    - split; constructor.
    - unfold keyPressed at 1. rewrite Ht. cbn [fst]. split; [exact IH1|].
      constructor; [|exact IH2]. unfold keyPressed. now rewrite Ht. }
  remember (fst (keyPressed doFullGrab (rowActivated doFullGrab s) k)) as t eqn:Et.
  assert (Hfields : accelerator t = match k with Other _ name => name | _ => EmptyString end
                    /\ selections t = selections s ++ [accelerator t]
                    /\ disabled_text t = NOT_BOUND /\ selected t = false
                    /\ inhibited t = (if doFullGrab then false else inhibited s)).
  { subst t. unfold keyPressed, rowActivated. cbn [grabKeyboard selected]. rewrite Hsel.
    destruct k as [| |[|] name]; try contradiction; try discriminate;
      destruct doFullGrab; repeat split. }
  destruct Hfields as (Hacc & Hcalls & Htext & Hselected & Hinh).
  split; [exact Hcalls|]. split; [exact Hacc|]. split; [exact Htext|].
  split; [exact Hselected|]. split; [exact Hinh|].
  intros later. now apply Hidle.
Qed.

(** A label that shows Ctrl+T, with the row selected by its activation. *)
Definition bound : State :=
  {| accelerator := "<Control>t"; disabled_text := NOT_BOUND;
     lastAccelerator := EmptyString; selected := true; inhibited := false;
     selections := [] |}.

Lemma cancelled_grab_restores_witness :
  let keys := [Other false "Shift_L"] in
  let s' := cancelled true (presses true (rowActivated true bound) keys) ByEscape in
  selected bound = true /\ forallb invalid keys = true
  /\ accelerator s' = "<Control>t"%string /\ selections s' = [].
Proof.
  intros keys s'.
  split; [reflexivity|]. split; [reflexivity|].
  destruct (@cancelled_grab_restores true bound keys ByEscape eq_refl eq_refl)
    as (Hacc & _ & Hcalls & _).
  split; [exact Hacc|exact Hcalls].
Defined.

Lemma selecting_grab_reports_witness :
  let k := Other true "<Alt>x" in
  let s' := fst (keyPressed true (presses true (rowActivated true bound) []) k) in
  selected bound = true /\ forallb invalid [] = true
  /\ k <> Escape /\ invalid k = false
  /\ selections s' = ["<Alt>x"%string] /\ accelerator s' = "<Alt>x"%string.
Proof.
  intros k s'.
  assert (Hk : k <> Escape) by discriminate.
  split; [reflexivity|]. split; [reflexivity|]. split; [exact Hk|].
  split; [reflexivity|].
  destruct (@selecting_grab_reports true bound [] k eq_refl eq_refl Hk eq_refl)
    as (Hcalls & Hacc & _).
  split; [|exact Hacc].
  unfold s'. rewrite Hcalls, Hacc. reflexivity.
Defined.

End ShortcutLabelFacts.

(* ===================================================================== *)
(** ** The achievements page: properties *)
(* ===================================================================== *)

Module AchievementsPageFacts.
Import AchievementsPage.

(** What the page is asked to do: the constructor's [_add] and the signals
    of the achievement tracker. *)
Inductive Call :=
| AddAchievement (state : AchievementState) (id : string)
| Unlocked (id : string)
| Locked (id : string)
| Completed (id : string)
| ProgressChanged (id : string).

Definition handle (p : Page) (c : Call) : Result :=
  match c with
  | AddAchievement state id => Returned (_add p state id)
  | Unlocked id => _achievementUnlocked p id
  | Locked id => _achievementLocked p id
  | Completed id => _achievementCompleted p id
  | ProgressChanged id => _updateProgress p id
  end.

(** The page after a sequence of calls, thrown errors included. *)
Fixpoint after (p : Page) (calls : list Call) : Page :=
  match calls with
  | [] => p
  | c :: rest => after (pageOf (handle p c)) rest
  end.

(** Every id has a widget in both lists or in neither, and the two are not
    revealed together. *)
Definition paired (p : Page) : Prop :=
  forall id,
    match _activeAchievements p id, _completedAchievements p id with
    | Some a, Some c => (a && c)%bool = false
    | None, None => True
    | _, _ => False
    end.

Lemma reveal_paired (p : Page) (id : string) (a c : bool) :
  (a && c)%bool = false -> paired p ->
  paired (pageOf (reveal p id a c))
  /\ forall p', reveal p id a c = Threw p' -> p' = p.
Proof.
  intros Hac Hp. unfold reveal. pose proof (Hp id) as Hid.
  destruct (_activeAchievements p id) as [a0|] eqn:Ha.
  - cbn [_completedAchievements].
    destruct (_completedAchievements p id) as [c0|] eqn:Hc; [|destruct Hid].
    split; [|discriminate].
    intros k. cbn [pageOf _activeAchievements _completedAchievements]. unfold assign.
    destruct (String.eqb k id); [exact Hac|apply Hp].
  - split; [exact Hp|]. intros p' E. now inversion E.
Qed.

Lemma handle_paired (p : Page) (c : Call) :
  paired p ->
  paired (pageOf (handle p c)) /\ forall p', handle p c = Threw p' -> p' = p.
Proof.
  intros Hp. destruct c as [state id|id|id|id|id]; cbn [handle].
  - split; [|discriminate]. intros k. cbn [pageOf _add _activeAchievements
                                             _completedAchievements].
    unfold assign. destruct (String.eqb k id); [destruct state; reflexivity|apply Hp].
  - now apply reveal_paired.
  - now apply reveal_paired.
  - now apply reveal_paired.
  - unfold _updateProgress. destruct (_activeAchievements p id).
    + split; [exact Hp|discriminate].
    + split; [exact Hp|]. intros p' E. now inversion E.
Qed.

(** X17.  Whatever achievements the constructor adds and whatever signals
    the tracker sends: every id has a widget in both lists or in neither,
    no achievement is revealed in the list of the active and in the list of
    the completed ones at once, and a handler that throws (a signal for an
    id that was never added) has changed nothing. *)
Theorem achievement_in_one_list (calls : list Call) :
  let p := after empty calls in
  paired p /\ forall c p', handle p c = Threw p' -> p' = p.
Proof.
  assert (Hgen : forall cs p0, paired p0 -> paired (after p0 cs)).
  { induction cs as [|c rest IH]; intros p0 H0; cbn [after]; [exact H0|].
    apply IH. now apply handle_paired. }
  assert (Hp : paired (after empty calls)) by (apply Hgen; intros id; exact I).
  split; [exact Hp|]. intros c p'. now apply handle_paired.
Qed.

Lemma achievement_in_one_list_witness :
  paired (after empty [AddAchievement ACTIVE "first-steps"; Completed "first-steps";
                       Unlocked "unknown"; Unlocked "first-steps"]).
Proof.
  exact (proj1 (achievement_in_one_list
                  [AddAchievement ACTIVE "first-steps"; Completed "first-steps";
                   Unlocked "unknown"; Unlocked "first-steps"])).
Defined.

End AchievementsPageFacts.
